(* ===== verification/_CoqProject ===== *)
-Q . S2P
Prelude.v
FdTable.v
Syscall.v
Processes.v
Kernel.v
Stages.v
Pipeline.v
Reference.v
Errors.v
Limits.v
StdinClosed.v
Footprint.v
Supervisor.v
Commands.v
Streams.v
Dataflow.v
Flow.v
GrepMissing.v
PsMissing.v
Build.v
System.v
