(* ===== verification/Prelude.v ===== *)
(** * A verification development for [src/Program1/Cpp/processes.cpp]

    The program is one C++ function, [main], that builds the shell pipeline
    [ps aux | grep <term> | wc -l] out of [fork], [pipe], [dup2], [close]
    and [execlp], and then waits for its first child.

    ** The program and its parts

    - The supervisor (the process that runs [main], lines 48-56 and 112-118)
      checks [argc], forks one child, waits for it with [wait(NULL)] and
      prints ["commands completed"].
    - The child (lines 60-111) creates pipe [fds[0]], forks the grandchild,
      and becomes [wc -l] reading [fds[0]].
    - The grandchild (lines 70-102) creates pipe [fds[1]], forks the
      great-grandchild, and becomes [grep <term>] reading [fds[1]] and
      writing [fds[0]].
    - The great-grandchild (lines 80-90) becomes [ps aux] writing [fds[1]].

    The processes interact only through the kernel: descriptors inherited
    at [fork], pipes, the exit status observed by [wait], and the terminal.

    ** Files of the development

    - [Prelude] (this file): the continuation monad in which the program
      is written, with its [do] notation in [cont_scope]; the lowest-free-
      slot search on finite maps used by descriptor allocation; the
      reflexive transitive closure of a step relation, rule induction,
      counted runs ([nsteps]) and runs out of a final state, and the
      transfer of runs along a simulation ([star_sim]); the hint database
      [pipeline].
    - [FdTable]: POSIX descriptor tables ([gmap nat desc]) and the
      semantics of [close], [dup2] and [pipe] on them, with their errors.
      This is the environment of the program, modelled after POSIX, not code
      of the repository.
    - [Syscall]: the interface between the program and the kernel, a tree of
      system calls ([prog]) whose continuations receive the C return values,
      and the C library wrappers ([fork], [pipe], [close], [dup2], [execlp],
      [wait], [perror], [cerr]/[cout] lines, [exit]).
    - [Processes]: the translation of [main] of [processes.cpp], one
      definition per process body, composed the way the source nests them.
    - [Kernel]: the process table, the per-process step function that
      executes one system call ([step_proc]), and the interleaving step
      relation [kstep] of the whole system.
    - [Stages]: each process body after its last [fork] run by
      [Kernel.local_run] from the descriptors [pipe] returned to the
      [execlp] that replaces it (or to its diagnostic when the command is
      missing).
    - [Pipeline]: the run of the whole system under [pipeline_schedule]
      when nothing fails: the wiring of the three commands (C2) and the
      uniqueness of every pipe end (C3).
    - [Reference]: the spec's reference body of one stage (section 4.1,
      step 3) and the three bodies of [main] against it: [ps] and [wc]
      are that body, [grep]'s runs to the same process when the pipe
      descriptors are distinct and not 0 or 1 (C17), and not when the
      first pipe's read end is 0 (C18).
    - [Errors]: the error paths of [main]: the supervisor's failed [fork]
      (C8), [wc] missing from [PATH] (C9), the usage error under every
      schedule (C10) and as a run (C11).
    - [Limits]: the descriptor and process limits at which each [pipe] and
      [fork] of the builder fails, and what the failing stage does: the
      child's pipe (C13), the grandchild's pipe (C14), the child's fork
      (C15), the grandchild's fork (C16).
    - [StdinClosed]: the run from a start with descriptor 0 closed, where
      the first pipe's read end is descriptor 0 and the wiring breaks (C7).
    - [Footprint]: what one step of one process can change in the kernel
      state; the frame lemmas of the invariants over all interleavings.
    - [Supervisor]: the invariant of the supervisor over every
      interleaving: the completion line is written only after the child
      has been reaped (C4), and at most once (C12).
    - [Commands]: the external commands [ps aux], [grep <term>] and
      [wc -l] as the spec describes them, functions from the lines they
      read to the lines they write.
    - [Streams]: the spec's contract of the running pipeline as an
      abstract machine: stages over FIFO channels, end-of-file once the
      writer has exited, the supervisor's wait and notice; its invariant
      (one case per phase), progress and a decreasing measure.
    - [Dataflow]: the kernel extended with the contents of the pipes and
      the execution of the commands by the images: [read] with
      end-of-file once no process holds the write end, [write] with
      [SIGPIPE] when no process holds the read end, [exit].
    - [Flow]: the simulation of [Dataflow] by [Streams] from the state the
      build reaches, in both directions, and the end-to-end theorems:
      every finished run prints the count of matching lines and then the
      completion line (C1), nothing stays open (C6), and the pipes deliver
      in order what was written, losing nothing (C19).
    - [GrepMissing]: the run where [execlp grep] fails, with its data
      flow: a machine of its own ([ps] writing into a pipe whose reader
      dies, killed by [SIGPIPE]; the grandchild's diagnostic and exit;
      [wc] counting nothing; the supervisor), simulated in both
      directions like [Flow]: every finished run prints the diagnostic,
      the count 0 and the completion line, in this order (C20).
    - [PsMissing]: the run where [execlp ps] fails: each process waits for
      the one before it, so the run is one fixed sequence of ten states
      whatever the scheduler does, indexed by the number of steps taken
      (C21); every finished run prints [ps]'s diagnostic, the count 0 and
      the completion line (C22).
    - [Build]: the build under every interleaving.  A state of the build
      is given by four counters, the number of calls each of the four
      processes has made ([Build.bstate]); each process's next call takes
      its counter one up whatever the others have done ([step_sup],
      [step_child], [step_gc], [step_gg]).  So every interleaving that
      cannot go on has made the 22 calls of [pipeline_schedule] and is in
      its state (C23), no interleaving gets stuck before (C24), and the
      data-flow theorem of [Flow] holds after any interleaving of the
      build (C25).
    - [System]: the whole system from the start of [main], the build and
      the data flow interleaved in any order ([System.fstep]: a step of
      [Dataflow.xstep], after which the images started by the step are
      added at the start of their commands, with their pipes empty).
      Before [ps] runs, no image can move and a state is a state of the
      build from [Build]; from then on, a state is given by the counters
      of the child and the grandchild and a state of [Streams]
      ([System.frel]): a call of the build moves the counters and leaves
      the stream machine where it is, a step of an image is a step of the
      stream machine.  No reachable state is stuck before the terminal
      holds the count and the completion line, and such an end is reached
      (C5).

    ** How the model corresponds to the code

    A process is a record [Kernel.proc] (parent pid, descriptor table,
    [errno], and either the rest of its program, the image of an
    external command, or its exit status).  The C code of each process is
    a [Syscall.prog] produced by the definitions of [Processes]; the kernel
    executes its first system call in [step_proc].  [fork] copies the
    caller's record, giving the child the next pid and the continuation
    applied to 0; the array [fds] of the source lives in the continuation,
    so each process has its own copy, as after a C [fork].  [exit(-1)] is
    observed by [wait] as status 255 ([Kernel.wait_status]).  The
    interleaving of processes is the relation [Kernel.kstep]; a run under
    a given order of processes is [Kernel.run] (one call per entry of the
    schedule), which is what the functional theorems of the build use; C4,
    C10 and C12 hold under every schedule (rule induction on
    [star kstep]).  [kstep] lets an external command exit at any time, so
    deadlock freedom is not stated over it: it is stated over
    [System.fstep], where a command exits only once it has written all its
    output (C5).

    After the build, [Dataflow.xinit] adds the pipes' contents (empty)
    and each image's progress through its command; [Dataflow.xstep] runs
    the images and, through [step_proc], the supervisor, in any order.
    [Flow.abs] maps such a state to a state of [Streams]: the tables of
    the stages ([Flow.wc_table], [Flow.grep_table], [Flow.ps_table]) are
    those lines 82-86, 93-98 and 105-107 leave, and the supervisor is at
    one of the points of lines 114-118 ([Flow.sup_state]).  C1, C6 and
    C19 hold under every interleaving of the running pipeline.
    The build itself is one lemma, [Pipeline.build_run], parametrised by
    what the grandchild's calls after its [fork] lead to: [grep]'s image
    ([Pipeline.pipeline_run]) or, when [execlp grep] fails, its pending
    diagnostic ([GrepMissing.grep_missing_build]); likewise for the
    great-grandchild ([PsMissing.ps_missing_build]).  [Build.bstep] is
    one call of any process of the build ([step_proc]; the images do not
    yet run), and [Build] shows that its interleavings all end in the
    state of [pipeline_schedule]; so the theorems about that state (C2,
    C3, and the data flow from it) hold whatever order the build took.
    [System] goes further and lets the images run while the build is
    still making calls.

    ** Bounds

    The kernel has a descriptor limit [open_max] and a process limit
    [proc_max] ([Kernel.config]); the success theorems assume room for the
    four descriptors of the two pipes and for four processes, the error
    theorems the opposite.  [Kernel.local_run] takes a number of calls as
    fuel; each stage lemma gives the exact number its body needs (4, 5, 6
    or 7 to [execlp], one more to the diagnostic when [execlp] fails) and
    proves the run reaches that point in that many calls.  When [ps] is
    missing, every run has at most ten steps (C21).  The
    build's counters are bounded by the calls each process makes before
    its [execlp] succeeds: 1 for the supervisor ([fork], then it blocks in
    [wait]), 6 for the child ([pipe], [fork], four local calls), 9 for the
    grandchild ([pipe], [fork], seven local calls), 6 for the
    great-grandchild; their sum, 22, is the length of
    [pipeline_schedule] and decreases to 0 along every interleaving.
    The whole system ranks its states ([System.srank]) by the calls the
    build has left plus [Streams.ameasure] (a line weighs more the
    earlier the stage that holds it: 6 in [ps], 5 in the first pipe, 4
    read by [grep], 3 to be written by [grep], 2 in the second pipe, 1
    read by [wc]; each phase more than the phases after it); every step
    lowers the rank, which is what lets C5 reach an end constructively.

    ** What is not modelled

    - The build under every interleaving is proved for the success path
      only; the error paths ([Errors], [Limits], [GrepMissing],
      [PsMissing]) are run under [pipeline_schedule] or a schedule of
      their own.
    - Pipes have no capacity limit (a writer never blocks), data moves by
      whole lines, and reads from the terminal are not modelled.
    - [ps]'s listing is a parameter: the machine's process table, and so
      whether [ps] lists [grep]'s own command line, is not modelled.
    - [grep]'s term is a literal string, not a regular expression.
    - Signals other than [SIGPIPE], and the statuses of killed processes
      beyond [wait]'s view of them.

    ** Further work

    1. The interleavings of the build with the data flow on the error
       paths ([GrepMissing], [PsMissing]), as [System] does for the
       success path.
    2. Several failures at once (two commands missing; a missing command
       with a full descriptor table), and the data flow after a failed
       stage when the program was started with descriptor 0 closed.
*)

From stdpp Require Import base gmap sets list strings.
From Stdlib Require Import ZArith Lia.

(** ** The continuation monad

    A computation [cont R A] receives the rest of the program as a
    continuation [A -> R].  Instantiated with [R := prog] (file [Syscall])
    it lets C code that calls [exit] (which never returns) and [execlp]
    (which returns only on failure) be written in direct style. *)

Definition cont (R A : Type) : Type := (A -> R) -> R.

Definition cret {R A} (a : A) : cont R A := fun k => k a.

Definition cbind {R A B} (m : cont R A) (f : A -> cont R B) : cont R B :=
  fun k => m (fun a => f a k).

Declare Scope cont_scope.
Delimit Scope cont_scope with cont.

Notation "'do' x <- m ; k" := (cbind m (fun x => k))
  (at level 10, x name, m at level 100, k at level 200,
   format "'[v' 'do'  x  <-  m ; '/' k ']'") : cont_scope.
Notation "'do' ' p <- m ; k" := (cbind m (fun x => match x with p => k end))
  (at level 10, p pattern, m at level 100, k at level 200) : cont_scope.

Lemma cbind_cret {R A B} (a : A) (f : A -> cont R B) k :
  cbind (cret a) f k = f a k.
Proof. reflexivity. Qed.

Lemma cbind_assoc {R A B C} (m : cont R A) (f : A -> cont R B)
      (g : B -> cont R C) k :
  cbind (cbind m f) g k = cbind m (fun a => cbind (f a) g) k.
Proof. reflexivity. Qed.

(** ** Lowest free slot of a finite map

    POSIX allocates a new descriptor as the lowest number not in use.
    [free_from t i fuel] scans [i], [i+1], ... for at most [fuel] slots;
    [lowest_free] starts at 0 with [size t] as fuel, which is enough: if
    the first [size t] slots are all used, they are all the keys of [t]. *)

Fixpoint free_from {A} (t : gmap nat A) (i fuel : nat) : nat :=
  match fuel with
  | O => i
  | S f => match t !! i with Some _ => free_from t (S i) f | None => i end
  end.

Definition lowest_free {A} (t : gmap nat A) : nat := free_from t 0 (size t).

Section lowest_free.
  Context {A : Type}.
  Implicit Types t : gmap nat A.

Lemma free_from_spec t fuel : forall i,
    let r := free_from t i fuel in
    i <= r <= i + fuel /\
    (forall j, i <= j < r -> is_Some (t !! j)) /\
    (t !! r = None \/ r = i + fuel).
  Proof.
    induction fuel as [|f IH]; intros i; simpl.
    - split; [lia|]. split; [intros; lia | right; lia].
    - destruct (t !! i) as [a|] eqn:Hi.
      + destruct (IH (S i)) as (Hb & Hall & Hend). split; [lia|]. split.
        * intros j Hj. destruct (decide (j = i)) as [->|]; [by eexists|].
          apply Hall. lia.
        * destruct Hend; [left | right]; [done | lia].
      + split; [lia|]. split; [intros; lia | by left].
  Qed.

Lemma lowest_free_used t j : j < lowest_free t -> is_Some (t !! j).
  Proof.
    intros Hj. destruct (free_from_spec t (size t) 0) as (_ & Hall & _).
    apply Hall. unfold lowest_free in Hj. lia.
  Qed.

Lemma lowest_free_None t : t !! lowest_free t = None.
  Proof.
    destruct (free_from_spec t (size t) 0) as (Hb & Hall & [Hfree | Hend]);
      [exact Hfree|].
    unfold lowest_free. rewrite Hend. simpl.
    destruct (t !! size t) eqn:Hs; [|done]. exfalso.
    assert (Hsub : set_seq 0 (size t) ⊆@{gset nat} dom t).
    { intros j Hj%elem_of_set_seq. apply elem_of_dom, Hall. lia. }
    assert (Heq : set_seq 0 (size t) =@{gset nat} dom t).
    { apply set_subseteq_size_eq; [done|]. by rewrite size_dom, size_set_seq. }
    assert (Hin : size t ∈ dom t) by (apply elem_of_dom; by eexists).
    rewrite <- Heq, elem_of_set_seq in Hin. lia.
  Qed.

Lemma lowest_free_bound t : lowest_free t <= size t.
  Proof. destruct (free_from_spec t (size t) 0) as (Hb & _). unfold lowest_free. lia. Qed.

  (** A slot that is free and below every free slot is the lowest one. *)
Lemma lowest_free_unique t n :
    t !! n = None -> (forall j, j < n -> is_Some (t !! j)) -> lowest_free t = n.
  Proof.
    intros Hn Hbelow.
    destruct (Nat.lt_trichotomy (lowest_free t) n) as [Hlt|[Heq|Hgt]]; [|done|].
    - destruct (Hbelow _ Hlt) as [a Ha]. by rewrite lowest_free_None in Ha.
    - destruct (lowest_free_used t n Hgt) as [a Ha]. congruence.
  Qed.
End lowest_free.

(** A map whose only key is [i], once [i] is overwritten, is a singleton. *)
Lemma insert_only {A} (m : gmap nat A) i x :
  (forall j, j <> i -> m !! j = None) -> <[i := x]> m = {[i := x]}.
Proof.
  intros Hother. apply map_eq. intros j.
  destruct (decide (j = i)) as [->|Hne].
  - by rewrite lookup_insert_eq, lookup_singleton_eq.
  - by rewrite lookup_insert_ne, lookup_singleton_ne, Hother.
Qed.

(** ** Sequences of transitions *)

Section star.
  Context {S : Type} (R : S -> S -> Prop).

Inductive star : S -> S -> Prop :=
  | star_refl s : star s s
  | star_step s1 s2 s3 : R s1 s2 -> star s2 s3 -> star s1 s3.

Lemma star_one s1 s2 : R s1 s2 -> star s1 s2.
  Proof. eauto using star. Qed.

Lemma star_trans s1 s2 s3 : star s1 s2 -> star s2 s3 -> star s1 s3.
  Proof. induction 1; eauto using star. Qed.

  (** Rule induction: a property preserved by every step holds of every
      state reachable from a state where it holds. *)
Lemma star_invariant (P : S -> Prop) :
    (forall s s', P s -> R s s' -> P s') ->
    forall s s', star s s' -> P s -> P s'.
  Proof. intros Hpres s s' Hs. induction Hs; eauto. Qed.

  (** A run has a length: [star] is stdpp's [nsteps] for some count. *)
Lemma star_nsteps s s' : star s s' -> exists k, nsteps R k s s'.
  Proof. induction 1 as [s|s1 s2 s3 H12 _ [k Hk]]; [exists 0; constructor | eexists; by eapply nsteps_l]. Qed.

Lemma nsteps_star k s s' : nsteps R k s s' -> star s s'.
  Proof. induction 1; eauto using star. Qed.

  (** A run that leaves a state from which no step is possible is empty. *)
Lemma nsteps_from_final k s s' : nsteps R k s s' -> (forall s'', ~ R s s'') -> k = 0 /\ s = s'.
  Proof. intros [|? ? s1 ? H1 _] Hf; [done | by destruct (Hf s1)]. Qed.
End star.

Arguments star_refl {S R} s.

(** ** Simulation

    A relation [sim] between the states of a concrete system [RA] and of
    an abstract one [RB] such that every concrete step from a state
    related to an abstract state satisfying [inv] is matched by an
    abstract step.  Runs of the concrete system are then runs of the
    abstract one. *)
Section simulation.
  Context {A B : Type} (RA : A -> A -> Prop) (RB : B -> B -> Prop).
  Context (sim : A -> B -> Prop) (inv : B -> Prop).
  Hypothesis (Hinv : forall b b', inv b -> RB b b' -> inv b').
  Hypothesis (Hsim : forall x b x', sim x b -> inv b -> RA x x' ->
                                    exists b', RB b b' /\ sim x' b').

Lemma star_sim x0 b0 x :
  star RA x0 x -> sim x0 b0 -> inv b0 -> exists b, star RB b0 b /\ sim x b /\ inv b.
Proof.
  intros Hs. revert b0. induction Hs as [x|x1 x2 x3 H12 H23 IH]; intros b0 Hx Hb.
  - exists b0. eauto using star.
  - destruct (Hsim x1 b0 x2 Hx Hb H12) as (b1 & Hb01 & Hx2).
    destruct (IH b1 Hx2 (Hinv _ _ Hb Hb01)) as (b & ? & ? & ?).
    exists b. eauto using star.
Qed.

End simulation.

(** ** Integers of the C program *)

Lemma Z_of_nat_ltb_0 (n : nat) : (Z.of_nat n <? 0)%Z = false.
Proof. apply Z.ltb_ge. lia. Qed.

Lemma Z_of_nat_eqb_0 (n : nat) : (Z.of_nat n =? 0)%Z = Nat.eqb n 0.
Proof. destruct n; reflexivity. Qed.

Lemma Z_to_nat_of_nat (n : nat) : Z.to_nat (Z.of_nat n) = n.
Proof. apply Nat2Z.id. Qed.

(** ** Tactics shared by the development *)

(** Turn [NoDup [x1; ...; xn]] into the disequalities it means. *)
Ltac nodup_facts H :=
  repeat (rewrite NoDup_cons in H; destruct H as [?Hn H]);
  repeat match goal with
         | Hn : _ ∉ _ :: _ |- _ => apply not_elem_of_cons in Hn; destruct Hn as [? Hn]
         | Hn : _ ∉ [] |- _ => clear Hn
         end.

(** Prove [NoDup] of an explicit list of numbers from disequalities. *)
Ltac nodup_tac :=
  repeat (apply NoDup_cons_2;
          [repeat (apply not_elem_of_cons; split; [lia|]); apply not_elem_of_nil|]);
  apply NoDup_nil_2.

(** Equality of two finite maps built by [insert] and [delete]: compare
    them key by key. *)
Ltac map_ext :=
  apply map_eq; intros ?i;
  repeat (rewrite ?lookup_insert, ?lookup_delete; case_decide; subst; cbn iota beta;
          try congruence);
  simplify_eq; try done; try congruence; try lia.

(** Equality of two finite sets given by their elements. *)
Ltac set_eq_tac := apply set_eq; intros ?x; set_unfold; tauto.

(** Decide the [Nat.eqb] tests on pids left in a goal or hypothesis: equal
    by reflexivity, different when [lia] shows it. *)
Ltac eqb_simpl :=
  repeat match goal with
  | |- context [Nat.eqb ?a ?a] => rewrite Nat.eqb_refl
  | |- context [Nat.eqb ?a ?b] => rewrite (proj2 (Nat.eqb_neq a b)) by lia
  | H : context [Nat.eqb ?a ?a] |- _ => rewrite Nat.eqb_refl in H
  | H : context [Nat.eqb ?a ?b] |- _ => rewrite (proj2 (Nat.eqb_neq a b)) in H by lia
  end.

Create HintDb pipeline.
Create Rewrite HintDb pipeline_rw.
#[export] Hint Rewrite Z_of_nat_ltb_0 Z_to_nat_of_nat : pipeline_rw.
#[export] Hint Resolve lowest_free_None lowest_free_used star_refl star_one : pipeline.
