(* ===== verification/FdTable.v ===== *)
(** * Descriptor tables and the POSIX calls that change them

    A process's descriptor table maps descriptor numbers to open file
    descriptions.  This file gives the semantics of [close(2)], [dup2(2)]
    and [pipe(2)] on one table, after POSIX and Linux, with the errors the
    program can meet ([EBADF], [EMFILE]).  It is the environment of
    [processes.cpp], not code of the repository.  Descriptors are [int]s in
    C ([Z] here); tables are keyed by [nat], and a negative descriptor is
    rejected with [EBADF] as the kernel does. *)

From stdpp Require Import base gmap sets list strings.
From Stdlib Require Import ZArith Lia.
From S2P Require Import Prelude.

Module FdTable.

(** Open file descriptions: one inherited from the invoker (terminal or
    file, numbered by the invoker), or an end of pipe [p]. *)
Inductive desc : Type :=
| DTerm (n : nat)
| DPipeRd (p : nat)
| DPipeWr (p : nat).

#[export] Instance desc_eq_dec : EqDecision desc.
Proof. solve_decision. Defined.

(** The values of [errno] the program can observe. *)
Inductive errno : Type :=
| ENOERR | EBADF | EMFILE | EAGAIN | ENOENT | ECHILD.

#[export] Instance errno_eq_dec : EqDecision errno.
Proof. solve_decision. Defined.

(** glibc's [strerror] messages, printed by [perror]. *)
Definition strerror (e : errno) : string :=
  match e with
  | ENOERR => "Success"
  | EBADF => "Bad file descriptor"
  | EMFILE => "Too many open files"
  | EAGAIN => "Resource temporarily unavailable"
  | ENOENT => "No such file or directory"
  | ECHILD => "No child processes"
  end.

Abbreviation fdtab := (gmap nat desc).

Definition STDIN_FILENO : Z := 0.
Definition STDOUT_FILENO : Z := 1.
Definition STDERR_FILENO : Z := 2.

(** A C descriptor as a table index; negative values name no slot. *)
Definition fd_index (fd : Z) : option nat :=
  if (fd <? 0)%Z then None else Some (Z.to_nat fd).

(** [close(fd)]: [None] is [EBADF] (the descriptor is not open). *)
Definition fd_close (t : fdtab) (fd : Z) : option fdtab :=
  match fd_index fd with
  | Some i => match t !! i with Some _ => Some (delete i t) | None => None end
  | None => None
  end.

(** [dup2(oldfd, newfd)]: [None] is [EBADF].  As in Linux, when
    [oldfd = newfd] and [oldfd] is open, nothing changes; otherwise
    [newfd] (which must be below the limit [open_max]) is silently closed
    and made to refer to [oldfd]'s description. *)
Definition fd_dup2 (open_max : nat) (t : fdtab) (oldfd newfd : Z) : option fdtab :=
  match fd_index oldfd, fd_index newfd with
  | Some o, Some n =>
      match t !! o with
      | Some d =>
          if decide (o = n) then Some t
          else if Nat.ltb n open_max then Some (<[n := d]> t) else None
      | None => None
      end
  | _, _ => None
  end.

(** [pipe(fds)]: the read end takes the lowest free descriptor, then the
    write end the lowest free one after it; [None] is [EMFILE], when one of
    them would reach the limit [open_max] (the table is then unchanged). *)
Definition fd_pipe (open_max : nat) (t : fdtab) (p : nat) : option (nat * nat * fdtab) :=
  let r := lowest_free t in
  let t1 := <[r := DPipeRd p]> t in
  let w := lowest_free t1 in
  if Nat.ltb r open_max && Nat.ltb w open_max
  then Some (r, w, <[w := DPipeWr p]> t1)
  else None.

(** The descriptors [0 .. n-1] are open and no other: the table of a
    process started from a shell with [n] descriptors. *)
Definition contiguous (n : nat) (t : fdtab) : Prop := forall j, is_Some (t !! j) <-> j < n.

(** The pipe a description belongs to, if any. *)
Definition desc_pipe (d : desc) : option nat :=
  match d with DPipeRd p | DPipeWr p => Some p | DTerm _ => None end.

(** Every pipe end in [t] belongs to a pipe numbered below [n]. *)
Definition pipes_below (n : nat) (t : fdtab) : Prop :=
  map_Forall (fun _ d => forall p, desc_pipe d = Some p -> p < n) t.

Section fd_lemmas.
  Implicit Types t : fdtab.
  Context (open_max : nat).

Lemma fd_index_nat (i : nat) : fd_index (Z.of_nat i) = Some i.
  Proof. unfold fd_index. rewrite Z_of_nat_ltb_0, Nat2Z.id. done. Qed.

Lemma fd_index_stdin : fd_index STDIN_FILENO = Some 0.
  Proof. reflexivity. Qed.
Lemma fd_index_stdout : fd_index STDOUT_FILENO = Some 1.
  Proof. reflexivity. Qed.
Lemma fd_index_stderr : fd_index STDERR_FILENO = Some 2.
  Proof. reflexivity. Qed.

Lemma fd_index_neg (fd : Z) : (fd < 0)%Z -> fd_index fd = None.
  Proof. unfold fd_index. intros H. by rewrite (proj2 (Z.ltb_lt _ _) H). Qed.

Lemma fd_close_open t i d :
    t !! i = Some d -> fd_close t (Z.of_nat i) = Some (delete i t).
  Proof. intros H. unfold fd_close. by rewrite fd_index_nat, H. Qed.

Lemma fd_close_closed t i :
    t !! i = None -> fd_close t (Z.of_nat i) = None.
  Proof. intros H. unfold fd_close. by rewrite fd_index_nat, H. Qed.

Lemma fd_dup2_move t o n d :
    t !! o = Some d -> o <> n -> n < open_max ->
    fd_dup2 open_max t (Z.of_nat o) (Z.of_nat n) = Some (<[n := d]> t).
  Proof.
    intros Ho Hne Hn. unfold fd_dup2. rewrite !fd_index_nat, Ho.
    rewrite decide_False by done. by rewrite (proj2 (Nat.ltb_lt _ _) Hn).
  Qed.

  (** [dup2(fd, fd)] does nothing: the idiom [dup2(fd, 0); close(fd)]
      then closes descriptor 0 itself. *)
Lemma fd_dup2_same t o d :
    t !! o = Some d -> fd_dup2 open_max t (Z.of_nat o) (Z.of_nat o) = Some t.
  Proof.
    intros Ho. unfold fd_dup2. rewrite !fd_index_nat, Ho.
    by rewrite decide_True.
  Qed.

Lemma fd_dup2_closed t o n :
    t !! o = None -> fd_dup2 open_max t (Z.of_nat o) n = None.
  Proof.
    intros Ho. unfold fd_dup2. rewrite fd_index_nat.
    destruct (fd_index n); [by rewrite Ho | done].
  Qed.

  (** What a successful [pipe] returns: two distinct descriptors that were
      free, the read end the lowest free one, bound to the two ends. *)
Lemma fd_pipe_Some t p r w t' :
    fd_pipe open_max t p = Some (r, w, t') ->
    r = lowest_free t /\ t !! r = None /\ t !! w = None /\ r <> w /\
    r < open_max /\ w < open_max /\
    t' = <[w := DPipeWr p]> (<[r := DPipeRd p]> t).
  Proof.
    unfold fd_pipe. intros H.
    destruct (Nat.ltb_spec (lowest_free t) open_max);
      destruct (Nat.ltb_spec (lowest_free (<[lowest_free t := DPipeRd p]> t)) open_max);
      simpl in H; try discriminate.
    injection H as <- <- <-.
    pose proof (lowest_free_None (<[lowest_free t := DPipeRd p]> t)) as Hw.
    assert (Hne : lowest_free t <> lowest_free (<[lowest_free t := DPipeRd p]> t)).
    { intros Heq. rewrite <- Heq, lookup_insert_eq in Hw. discriminate. }
    rewrite lookup_insert_ne in Hw by done.
    repeat split; auto using lowest_free_None.
  Qed.

Lemma fd_pipe_ok t p :
    lowest_free t < open_max ->
    lowest_free (<[lowest_free t := DPipeRd p]> t) < open_max ->
    fd_pipe open_max t p =
      Some (lowest_free t, lowest_free (<[lowest_free t := DPipeRd p]> t),
            <[lowest_free (<[lowest_free t := DPipeRd p]> t) := DPipeWr p]>
              (<[lowest_free t := DPipeRd p]> t)).
  Proof.
    intros Hr Hw. unfold fd_pipe.
    by rewrite (proj2 (Nat.ltb_lt _ _) Hr), (proj2 (Nat.ltb_lt _ _) Hw).
  Qed.

Lemma fd_pipe_full t p :
    open_max <= lowest_free t -> fd_pipe open_max t p = None.
  Proof.
    intros H. unfold fd_pipe. by rewrite (proj2 (Nat.ltb_ge _ _) H).
  Qed.

  (** Descriptors that are open are never returned by [pipe]. *)
Lemma fd_pipe_fresh t p r w t' i :
    fd_pipe open_max t p = Some (r, w, t') -> is_Some (t !! i) -> r <> i /\ w <> i.
  Proof.
    intros (_ & Hr & Hw & _)%fd_pipe_Some [d Hd]. split; intros ->; congruence.
  Qed.

Lemma pipes_below_insert n t i d :
    pipes_below n t -> (forall p, desc_pipe d = Some p -> p < n) ->
    pipes_below n (<[i := d]> t).
  Proof. intros Ht Hd. by apply map_Forall_insert_2. Qed.

Lemma pipes_below_delete n t i : pipes_below n t -> pipes_below n (delete i t).
  Proof. apply map_Forall_delete. Qed.

Lemma pipes_below_mono n m t : n <= m -> pipes_below n t -> pipes_below m t.
  Proof. intros Hnm Ht. eapply map_Forall_impl; [done|]. simpl. naive_solver lia. Qed.

  (** A table with no pipe at all ([pipes_below 0]) holds no pipe end. *)
Lemma pipes_below_0 t i d : pipes_below 0 t -> t !! i = Some d -> desc_pipe d = None.
  Proof.
    intros Ht Hi. destruct (desc_pipe d) as [p|] eqn:Hd; [|done].
    specialize (Ht i d Hi p Hd). lia.
  Qed.

  (** A table whose pipes are all older than [p] holds no end of [p]. *)
Lemma pipes_below_fresh n t i d :
    pipes_below n t -> t !! i = Some d -> desc_pipe d <> Some n.
  Proof. intros Ht Hi Hd. specialize (Ht i d Hi n Hd). lia. Qed.

  (** With room for two more descriptors, [pipe] succeeds on two fresh
      descriptors. *)
Lemma fd_pipe_room t p :
    size t + 2 <= open_max ->
    exists r w, fd_pipe open_max t p = Some (r, w, <[w := DPipeWr p]> (<[r := DPipeRd p]> t)) /\
                t !! r = None /\ t !! w = None /\ r <> w.
  Proof.
    intros Hroom.
    pose proof (lowest_free_bound t) as Hr.
    pose proof (lowest_free_bound (<[lowest_free t := DPipeRd p]> t)) as Hw.
    rewrite map_size_insert_None in Hw by apply lowest_free_None.
    pose proof (fd_pipe_ok t p ltac:(lia) ltac:(lia)) as Hok.
    pose proof Hok as (_ & ? & ? & ? & _)%fd_pipe_Some.
    eauto 10.
  Qed.
End fd_lemmas.

(** A descriptor [pipe] finds free is none of the open ones. *)
Lemma fresh_not_open (t : fdtab) i j : t !! i = None -> is_Some (t !! j) -> i <> j.
Proof. intros Hi [d Hj] ->. congruence. Qed.

(** With descriptor 0 free, [pipe] returns it as the read end. *)
Lemma fd_pipe_read_end_0 open_max t p r w t' :
  t !! 0 = None -> fd_pipe open_max t p = Some (r, w, t') -> r = 0.
Proof.
  intros H0 Hp. apply fd_pipe_Some in Hp as (-> & _).
  apply lowest_free_unique; [done | lia].
Qed.

Lemma lowest_free_contig n t : contiguous n t -> lowest_free t = n.
Proof.
  intros Hc. apply lowest_free_unique; [|intros j Hj; by apply (proj2 (Hc j))].
  destruct (t !! n) eqn:E; [|done]. assert (n < n) by (apply (proj1 (Hc n)); by eexists). lia.
Qed.

Lemma contiguous_insert n t x : contiguous n t -> contiguous (S n) (<[n := x]> t).
Proof.
  intros Hc j. rewrite lookup_insert. case_decide; [subst; split; [lia | by eexists]|].
  rewrite (Hc j). lia.
Qed.

(** On a contiguous table of [n] descriptors, [pipe] returns [n] and
    [n + 1] when both are below the limit, and fails otherwise. *)
Lemma fd_pipe_contig_ok open_max n t p :
  contiguous n t -> S n < open_max ->
  fd_pipe open_max t p = Some (n, S n, <[S n := DPipeWr p]> (<[n := DPipeRd p]> t)).
Proof.
  intros Hc Hlt. unfold fd_pipe.
  rewrite (lowest_free_contig n t Hc), (lowest_free_contig (S n) _ (contiguous_insert n t _ Hc)).
  rewrite (proj2 (Nat.ltb_lt _ _)), (proj2 (Nat.ltb_lt (S n) _)) by lia. done.
Qed.

Lemma fd_pipe_contig_full open_max n t p :
  contiguous n t -> open_max <= S n -> fd_pipe open_max t p = None.
Proof.
  intros Hc Hle. unfold fd_pipe.
  rewrite (lowest_free_contig n t Hc), (lowest_free_contig (S n) _ (contiguous_insert n t _ Hc)).
  rewrite (proj2 (Nat.ltb_ge (S n) _)) by lia. by rewrite andb_false_r.
Qed.

End FdTable.

#[export] Hint Resolve FdTable.fd_index_nat FdTable.pipes_below_delete : pipeline.
