(* ===== verification/Syscall.v ===== *)
(** * The system-call interface between the program and the kernel

    A process's remaining code is a [prog]: a finite tree whose nodes are
    the system calls and C library calls [processes.cpp] makes and whose
    branches are the continuations, applied by the kernel to the C return
    value.  [M] is the continuation monad over [prog] (see [Prelude]), in
    which the program of file [Processes] is written; the wrappers below
    are the C library functions it calls.  Their meaning is given by the
    kernel ([Kernel.step_proc]). *)

From stdpp Require Import base gmap sets list strings.
From Stdlib Require Import ZArith Lia.
From S2P Require Import Prelude FdTable.

Module Syscall.
Import FdTable.

Inductive prog : Type :=
| Exit (status : Z)                                  (* exit(status) *)
| Fork (k : Z -> prog)                               (* pid = fork() *)
| Pipe (k : Z -> Z * Z -> prog)                      (* r = pipe(fds); fds *)
| Close (fd : Z) (k : Z -> prog)                     (* close(fd) *)
| Dup2 (oldfd newfd : Z) (k : Z -> prog)             (* dup2(oldfd, newfd) *)
| Execlp (file : string) (argv : list string) (k : Z -> prog)
                                                     (* execlp(file, argv..., NULL) *)
| Wait (k : Z -> prog)                               (* wait(NULL) *)
| Write (fd : Z) (buf : string) (k : Z -> prog)      (* write(fd, buf, len) *)
| GetErrno (k : errno -> prog).                      (* reading errno *)

Abbreviation M := (cont prog).

Local Open Scope string_scope.
Local Open Scope cont_scope.

(** The newline character written by [endl] and [perror]. *)
Definition endl : string := String (Ascii.ascii_of_nat 10) EmptyString.

Definition fork : M Z := fun k => Fork k.

(** [pipe(fds)]: the return value and the two descriptors written to
    [fds].  On failure the array is not written; the program then never
    reads it, and the kernel passes [(-1, -1)]. *)
Definition pipe : M (Z * (Z * Z)) := fun k => Pipe (fun r fds => k (r, fds)).

Definition close (fd : Z) : M Z := fun k => Close fd k.

Definition dup2 (oldfd newfd : Z) : M Z := fun k => Dup2 oldfd newfd k.

(** [execlp] returns only when it fails (with -1). *)
Definition execlp (file : string) (argv : list string) : M Z :=
  fun k => Execlp file argv k.

Definition wait_null : M Z := fun k => Wait k.

Definition write (fd : Z) (s : string) : M Z := fun k => Write fd s k.

(** [exit] never returns: the continuation is dropped. *)
Definition exit {A} (status : Z) : M A := fun _ => Exit status.

(** glibc's [perror(s)]: one write of ["s: <strerror(errno)>\n"] on the
    standard error. *)
Definition perror (s : string) : M unit :=
  fun k => GetErrno (fun e =>
    Write STDERR_FILENO (s ++ ": " ++ strerror e ++ endl)
      (fun _ => k tt)).

(** [cerr << s << endl]: [cerr] is unit-buffered, so each insertion is
    written at once: [s], then the newline. *)
Definition cerr_line (s : string) : M unit :=
  do _ <- write STDERR_FILENO s;
  do _ <- write STDERR_FILENO endl;
  cret tt.

(** [cout << s << endl]: [cout] is buffered and [endl] flushes it, so the
    line is written by one call. *)
Definition cout_line (s : string) : M unit :=
  do _ <- write STDOUT_FILENO (s ++ endl);
  cret tt.

End Syscall.
