(* ===== verification/Processes.v ===== *)
(** * The program: [main] of [src/Program1/Cpp/processes.cpp]

    One definition per process body, in the source's nesting: [main] forks
    the [child] (which becomes [wc -l]), the child forks the [grandchild]
    ([grep <term>]), the grandchild forks the [great_grandchild]
    ([ps aux]).  The local array [int fds[2][2]] is passed as the pairs
    [fds0 = (fds[0][0], fds[0][1])] and [fds1 = (fds[1][0], fds[1][1])],
    read end first; each process has its own copy after [fork], as in C.
    Return values the source ignores ([close], [dup2], [wait]) are bound to
    [_]. *)

From stdpp Require Import base gmap sets list strings.
From Stdlib Require Import ZArith Lia.
From S2P Require Import Prelude FdTable Syscall.

Module Processes.
Import FdTable Syscall.

Local Open Scope string_scope.
Local Open Scope cont_scope.

(** Lines 80-90: the great-grandchild closes both ends of the first pipe
    and the read end of the second, moves the write end of the second
    onto its standard output and becomes [ps aux]. *)
Definition great_grandchild (fds0 fds1 : Z * Z) : M unit :=
  do _ <- close fds0.1;
  do _ <- close fds0.2;
  do _ <- close fds1.1;
  do _ <- dup2 fds1.2 STDOUT_FILENO;
  do _ <- close fds1.2;
  do _ <- execlp "ps" ["ps"; "aux"];
  do _ <- perror "execlp ps failed";
  exit (-1).

(** Lines 91-101: the grandchild reads the second pipe on its standard
    input, writes the first pipe on its standard output, and becomes
    [grep <term>]. *)
Definition grandchild_body (term : string) (fds0 fds1 : Z * Z) : M unit :=
  do _ <- close fds1.2;
  do _ <- dup2 fds1.1 STDIN_FILENO;
  do _ <- close fds1.1;
  do _ <- close fds0.1;
  do _ <- dup2 fds0.2 STDOUT_FILENO;
  do _ <- close fds0.2;
  do _ <- execlp "grep" ["grep"; term];
  do _ <- perror "execlp grep failed";
  exit (-1).

(** Lines 71-102: the grandchild creates the second pipe and forks the
    great-grandchild. *)
Definition grandchild (term : string) (fds0 : Z * Z) : M unit :=
  do '(r, fds1) <- pipe;
  if (r <? 0)%Z then (do _ <- perror "pipe error"; exit (-1)) else
  do pid <- fork;
  if (pid <? 0)%Z then (do _ <- perror "fork error"; exit (-1))
  else if (pid =? 0)%Z then great_grandchild fds0 fds1
  else grandchild_body term fds0 fds1.

(** Lines 103-111: the child reads the first pipe on its standard input
    and becomes [wc -l]. *)
Definition child_body (fds0 : Z * Z) : M unit :=
  do _ <- close fds0.2;
  do _ <- dup2 fds0.1 STDIN_FILENO;
  do _ <- close fds0.1;
  do _ <- execlp "wc" ["wc"; "-l"];
  do _ <- perror "execlp wc failed";
  exit (-1).

(** Lines 61-111: the child creates the first pipe and forks the
    grandchild. *)
Definition child (term : string) : M unit :=
  do '(r, fds0) <- pipe;
  if (r <? 0)%Z then (do _ <- perror "pipe error"; exit (-1)) else
  do pid <- fork;
  if (pid <? 0)%Z then (do _ <- perror "fork error"; exit (-1))
  else if (pid =? 0)%Z then grandchild term fds0
  else child_body fds0.

(** Lines 112-116: the supervisor waits for its child, then reports. *)
Definition parent : M unit :=
  do _ <- wait_null;
  cout_line "commands completed".

(** Lines 48-119.  [argv] includes [argv[0]], so [argc = length argv].
    A failed [fork] only calls [perror] and falls through to [return 0]. *)
Definition main (argv : list string) : M Z :=
  do _ <- (if negb (Nat.eqb (length argv) 2)
           then (do _ <- cerr_line "Usage: processes command"; exit (-1))
           else cret tt);
  do pid <- fork;
  do _ <- (if (pid <? 0)%Z then perror "fork error"
           else if (pid =? 0)%Z then child (nth 1 argv "")
           else parent);
  cret 0%Z.

(** The process image of the program: returning from [main] is [exit]. *)
Definition main_prog (argv : list string) : prog := main argv Exit.

End Processes.
