(* ===== verification/Kernel.v ===== *)
(** * The kernel: processes, one system call at a time, interleavings

    The state of the system is the process table (pid to process), the
    next pid and the next pipe number to allocate, and the log of what
    processes wrote.  A process is its parent, its descriptor table, its
    [errno], and what it runs: the rest of the program ([Running]), an
    external command after a successful [execlp] ([Image]), or nothing
    after [exit] ([Zombie], with the status its parent's [wait] sees).
    [step_proc] executes one call of one process and is a function (the
    kernel is deterministic for a given process); [kstep] lets any process
    move, which gives every interleaving.  External commands are opaque in
    this file: an [Image] may exit with any status.  The limits of the
    configuration ([open_max]: descriptors per process; [proc_max]: size
    of the process table) and the commands found on [PATH] decide which
    calls fail.  Modelled after POSIX and Linux, not code of the
    repository. *)

From stdpp Require Import base gmap sets list strings.
From Stdlib Require Import ZArith Lia.
From S2P Require Import Prelude FdTable Syscall.

Module Kernel.
Import FdTable Syscall.

Inductive pstate : Type :=
| Running (k : prog)
| Image (file : string) (argv : list string)
| Zombie (status : Z).

Record proc : Type := mkProc {
  p_ppid : nat;
  p_fds : fdtab;
  p_errno : errno;
  p_state : pstate
}.

Record kstate : Type := mkKState {
  k_procs : gmap nat proc;
  k_next_pid : nat;
  k_next_pipe : nat;
  k_out : list (nat * desc * string)   (* writer, description, data *)
}.

Record config : Type := mkConfig {
  open_max : nat;            (* RLIMIT_NOFILE *)
  proc_max : nat;            (* room in the process table *)
  path : list string         (* the commands execlp finds on PATH *)
}.

(** Orphans are adopted by [init]. *)
Definition init_pid : nat := 1.

(** The status [wait] reports for [exit(status)]: its low 8 bits. *)
Definition wait_status (status : Z) : Z := Z.land status 255.

Definition set_state (p : proc) (st : pstate) : proc :=
  mkProc (p_ppid p) (p_fds p) (p_errno p) st.
Definition set_fds (p : proc) (t : fdtab) (st : pstate) : proc :=
  mkProc (p_ppid p) t (p_errno p) st.
Definition set_err (p : proc) (e : errno) (st : pstate) : proc :=
  mkProc (p_ppid p) (p_fds p) e st.

Definition upd_proc (s : kstate) (pid : nat) (p : proc) : kstate :=
  mkKState (<[pid := p]> (k_procs s)) (k_next_pid s) (k_next_pipe s) (k_out s).

(** The calls that touch only the calling process: [close], [dup2],
    [execlp] and reading [errno]. *)
Definition local_call (C : config) (p : proc) : option proc :=
  match p_state p with
  | Running (Close fd k) =>
      Some (match fd_close (p_fds p) fd with
            | Some t => set_fds p t (Running (k 0%Z))
            | None => set_err p EBADF (Running (k (-1)%Z))
            end)
  | Running (Dup2 oldfd newfd k) =>
      Some (match fd_dup2 (open_max C) (p_fds p) oldfd newfd with
            | Some t => set_fds p t (Running (k newfd))
            | None => set_err p EBADF (Running (k (-1)%Z))
            end)
  | Running (Execlp file argv k) =>
      Some (if decide (file ∈ path C) then set_state p (Image file argv)
            else set_err p ENOENT (Running (k (-1)%Z)))
  | Running (GetErrno k) => Some (set_state p (Running (k (p_errno p))))
  | _ => None
  end.

(** [exit]: the process keeps only its status; its descriptors are
    closed and its children adopted by [init]. *)
Definition proc_exit (s : kstate) (pid : nat) (p : proc) (status : Z) : kstate :=
  let adopt q := if Nat.eqb (p_ppid q) pid
                 then mkProc init_pid (p_fds q) (p_errno q) (p_state q) else q in
  mkKState (<[pid := set_fds p ∅ (Zombie (wait_status status))]> (adopt <$> k_procs s))
           (k_next_pid s) (k_next_pipe s) (k_out s).

(** [fork]: fails with [EAGAIN] when the process table is full; the child
    gets a copy of the descriptor table and 0, the parent the child's pid. *)
Definition do_fork (C : config) (s : kstate) (pid : nat) (p : proc) (k : Z -> prog) : kstate :=
  if Nat.leb (proc_max C) (size (k_procs s))
  then upd_proc s pid (set_err p EAGAIN (Running (k (-1)%Z)))
  else
    let c := k_next_pid s in
    mkKState (<[c := mkProc pid (p_fds p) (p_errno p) (Running (k 0%Z))]>
                (<[pid := set_state p (Running (k (Z.of_nat c)))]> (k_procs s)))
             (S c) (k_next_pipe s) (k_out s).

(** [pipe]: a new pipe numbered [k_next_pipe]. *)
Definition do_pipe (C : config) (s : kstate) (pid : nat) (p : proc)
           (k : Z -> Z * Z -> prog) : kstate :=
  match fd_pipe (open_max C) (p_fds p) (k_next_pipe s) with
  | Some (r, w, t) =>
      mkKState (<[pid := set_fds p t (Running (k 0%Z (Z.of_nat r, Z.of_nat w)))]> (k_procs s))
               (k_next_pid s) (S (k_next_pipe s)) (k_out s)
  | None => upd_proc s pid (set_err p EMFILE (Running (k (-1)%Z (-1, -1)%Z)))
  end.

(** The children of [pid], and the statuses of the processes that have
    exited. *)
Definition children (procs : gmap nat proc) (pid : nat) : gmap nat proc :=
  filter (fun '(_, q) => p_ppid q = pid) procs.

Definition exited (procs : gmap nat proc) : gmap nat Z :=
  omap (fun q => match p_state q with Zombie st => Some st | _ => None end) procs.

(** [wait(NULL)]: reaps an exited child (the first one in the map's
    order) and returns its pid; fails with [ECHILD] when there is no child;
    blocks (no step) while every child is still alive. *)
Definition do_wait (s : kstate) (pid : nat) (p : proc) (k : Z -> prog) : option kstate :=
  match map_to_list (children (k_procs s) pid) with
  | [] => Some (upd_proc s pid (set_err p ECHILD (Running (k (-1)%Z))))
  | _ :: _ =>
      match map_to_list (exited (children (k_procs s) pid)) with
      | (c, _) :: _ =>
          Some (mkKState (<[pid := set_state p (Running (k (Z.of_nat c)))]> (delete c (k_procs s)))
                         (k_next_pid s) (k_next_pipe s) (k_out s))
      | [] => None
      end
  end.

(** [write]: appended to the log with the description written to; a
    descriptor that is closed or a read end gives [EBADF]. *)
Definition writable (d : desc) : bool :=
  match d with DPipeRd _ => false | _ => true end.

Definition do_write (s : kstate) (pid : nat) (p : proc) (fd : Z) (buf : string)
           (k : Z -> prog) : kstate :=
  match fd_index fd with
  | Some i =>
      match p_fds p !! i with
      | Some d =>
          if writable d then
            mkKState (<[pid := set_state p (Running (k (Z.of_nat (String.length buf))))]> (k_procs s))
                     (k_next_pid s) (k_next_pipe s) (k_out s ++ [(pid, d, buf)])
          else upd_proc s pid (set_err p EBADF (Running (k (-1)%Z)))
      | None => upd_proc s pid (set_err p EBADF (Running (k (-1)%Z)))
      end
  | None => upd_proc s pid (set_err p EBADF (Running (k (-1)%Z)))
  end.

(** One call of process [pid]; [None] when it has none to make (it runs
    an external command, has exited, does not exist, or blocks in [wait]). *)
Definition step_proc (C : config) (s : kstate) (pid : nat) : option kstate :=
  match k_procs s !! pid with
  | Some p =>
      match p_state p with
      | Running (Exit st) => Some (proc_exit s pid p st)
      | Running (Fork k) => Some (do_fork C s pid p k)
      | Running (Pipe k) => Some (do_pipe C s pid p k)
      | Running (Wait k) => do_wait s pid p k
      | Running (Write fd buf k) => Some (do_write s pid p fd buf k)
      | _ => upd_proc s pid <$> local_call C p
      end
  | None => None
  end.

(** Any process may move; an external command may end with any status. *)
Inductive kstep (C : config) : kstate -> kstate -> Prop :=
| kstep_proc s pid s' :
    step_proc C s pid = Some s' -> kstep C s s'
| kstep_image_exit s pid p file argv status :
    k_procs s !! pid = Some p -> p_state p = Image file argv ->
    kstep C s (proc_exit s pid p status).

(** The system when the invoker starts program [code] as process [sup]
    with descriptor table [T]. *)
Definition init_state (sup : nat) (T : fdtab) (code : prog) : kstate :=
  mkKState {[sup := mkProc init_pid T ENOERR (Running code)]} (S sup) 0 [].

(** A run under a given schedule: the pids that move, in order. *)
Fixpoint run (C : config) (sched : list nat) (s : kstate) : option kstate :=
  match sched with
  | [] => Some s
  | pid :: rest => match step_proc C s pid with
                   | Some s' => run C rest s'
                   | None => None
                   end
  end.

(** [n] calls of one process that touch only that process. *)
Fixpoint local_run (C : config) (n : nat) (p : proc) : option proc :=
  match n with
  | O => Some p
  | S n' => match local_call C p with Some p' => local_run C n' p' | None => None end
  end.

Section kernel_lemmas.
  Context (C : config).
  Implicit Types (s : kstate) (p : proc).

Lemma step_local s pid p p' :
    k_procs s !! pid = Some p -> local_call C p = Some p' ->
    step_proc C s pid = Some (upd_proc s pid p').
  Proof.
    intros Hp Hl. unfold step_proc. rewrite Hp.
    destruct (p_state p) as [[]| |] eqn:Hst;
      try (unfold local_call in Hl; rewrite Hst in Hl; discriminate);
      by rewrite Hl.
  Qed.

Lemma upd_proc_upd_proc s pid p p' :
    upd_proc (upd_proc s pid p) pid p' = upd_proc s pid p'.
  Proof. unfold upd_proc. simpl. by rewrite insert_insert_eq. Qed.

Lemma upd_proc_lookup s pid p : k_procs (upd_proc s pid p) !! pid = Some p.
  Proof. apply lookup_insert_eq. Qed.

Lemma run_app sched1 sched2 s :
    run C (sched1 ++ sched2) s = run C sched1 s ≫= run C sched2.
  Proof.
    revert s. induction sched1 as [|pid rest IH]; intros s; [done|]. simpl.
    destruct (step_proc C s pid); [apply IH | done].
  Qed.

  (** A local run of a process is a run of the kernel that schedules it
      [n] times in a row. *)
Lemma run_local_run n s pid p p' :
    k_procs s !! pid = Some p -> local_run C n p = Some p' ->
    run C (replicate n pid) s = Some (upd_proc s pid p').
  Proof.
    revert s p. induction n as [|n IH]; intros s p Hp Hrun; simpl in *.
    - injection Hrun as <-. unfold upd_proc. rewrite insert_id by done. by destruct s.
    - destruct (local_call C p) as [p1|] eqn:Hl; [|discriminate].
      rewrite (step_local s pid p p1) by done.
      rewrite (IH _ p1); [by rewrite upd_proc_upd_proc | apply upd_proc_lookup | done].
  Qed.

Lemma step_exit s pid p st :
    k_procs s !! pid = Some p -> p_state p = Running (Exit st) ->
    step_proc C s pid = Some (proc_exit s pid p st).
  Proof. intros Hp Hst. unfold step_proc. by rewrite Hp, Hst. Qed.

Lemma step_fork s pid p k :
    k_procs s !! pid = Some p -> p_state p = Running (Fork k) ->
    step_proc C s pid = Some (do_fork C s pid p k).
  Proof. intros Hp Hst. unfold step_proc. by rewrite Hp, Hst. Qed.

Lemma step_pipe s pid p k :
    k_procs s !! pid = Some p -> p_state p = Running (Pipe k) ->
    step_proc C s pid = Some (do_pipe C s pid p k).
  Proof. intros Hp Hst. unfold step_proc. by rewrite Hp, Hst. Qed.

Lemma step_write s pid p fd buf k :
    k_procs s !! pid = Some p -> p_state p = Running (Write fd buf k) ->
    step_proc C s pid = Some (do_write s pid p fd buf k).
  Proof. intros Hp Hst. unfold step_proc. by rewrite Hp, Hst. Qed.

Lemma step_wait s pid p k :
    k_procs s !! pid = Some p -> p_state p = Running (Wait k) ->
    step_proc C s pid = do_wait s pid p k.
  Proof. intros Hp Hst. unfold step_proc. by rewrite Hp, Hst. Qed.

Lemma do_fork_ok s pid p k :
    size (k_procs s) < proc_max C ->
    do_fork C s pid p k =
      mkKState (<[k_next_pid s := mkProc pid (p_fds p) (p_errno p) (Running (k 0%Z))]>
                  (<[pid := set_state p (Running (k (Z.of_nat (k_next_pid s))))]> (k_procs s)))
               (S (k_next_pid s)) (k_next_pipe s) (k_out s).
  Proof. intros H. unfold do_fork. by rewrite (proj2 (Nat.leb_gt _ _) H). Qed.

Lemma do_fork_full s pid p k :
    proc_max C <= size (k_procs s) ->
    do_fork C s pid p k = upd_proc s pid (set_err p EAGAIN (Running (k (-1)%Z))).
  Proof. intros H. unfold do_fork. by rewrite (proj2 (Nat.leb_le _ _) H). Qed.

Lemma do_pipe_ok s pid p k r w t :
    fd_pipe (open_max C) (p_fds p) (k_next_pipe s) = Some (r, w, t) ->
    do_pipe C s pid p k =
      mkKState (<[pid := set_fds p t (Running (k 0%Z (Z.of_nat r, Z.of_nat w)))]> (k_procs s))
               (k_next_pid s) (S (k_next_pipe s)) (k_out s).
  Proof. intros H. unfold do_pipe. by rewrite H. Qed.

Lemma local_run_S n p p1 :
    local_call C p = Some p1 -> local_run C (S n) p = local_run C n p1.
  Proof. intros H. simpl. by rewrite H. Qed.

  (** The calls of [local_call], one lemma per outcome. *)
Lemma local_close p fd i d k :
    p_state p = Running (Close fd k) -> fd_index fd = Some i -> p_fds p !! i = Some d ->
    local_call C p = Some (set_fds p (delete i (p_fds p)) (Running (k 0%Z))).
  Proof. intros Hst Hi Hd. unfold local_call, fd_close. by rewrite Hst, Hi, Hd. Qed.

Lemma local_close_ebadf p fd i k :
    p_state p = Running (Close fd k) -> fd_index fd = Some i -> p_fds p !! i = None ->
    local_call C p = Some (set_err p EBADF (Running (k (-1)%Z))).
  Proof. intros Hst Hi Hd. unfold local_call, fd_close. by rewrite Hst, Hi, Hd. Qed.

Lemma local_dup2 p oldfd newfd o n d k :
    p_state p = Running (Dup2 oldfd newfd k) -> fd_index oldfd = Some o ->
    fd_index newfd = Some n -> p_fds p !! o = Some d -> o <> n -> n < open_max C ->
    local_call C p = Some (set_fds p (<[n := d]> (p_fds p)) (Running (k newfd))).
  Proof.
    intros Hst Ho Hn Hd Hne Hlt. unfold local_call, fd_dup2.
    rewrite Hst, Ho, Hn, Hd, decide_False by done.
    by rewrite (proj2 (Nat.ltb_lt _ _) Hlt).
  Qed.

Lemma local_dup2_same p oldfd newfd o d k :
    p_state p = Running (Dup2 oldfd newfd k) -> fd_index oldfd = Some o ->
    fd_index newfd = Some o -> p_fds p !! o = Some d ->
    local_call C p = Some (set_fds p (p_fds p) (Running (k newfd))).
  Proof.
    intros Hst Ho Hn Hd. unfold local_call, fd_dup2.
    by rewrite Hst, Ho, Hn, Hd, decide_True.
  Qed.

Lemma local_exec_ok p file argv k :
    p_state p = Running (Execlp file argv k) -> file ∈ path C ->
    local_call C p = Some (set_state p (Image file argv)).
  Proof. intros Hst Hf. unfold local_call. by rewrite Hst, decide_True. Qed.

Lemma local_exec_fail p file argv k :
    p_state p = Running (Execlp file argv k) -> file ∉ path C ->
    local_call C p = Some (set_err p ENOENT (Running (k (-1)%Z))).
  Proof. intros Hst Hf. unfold local_call. by rewrite Hst, decide_False. Qed.

Lemma local_errno p k :
    p_state p = Running (GetErrno k) ->
    local_call C p = Some (set_state p (Running (k (p_errno p)))).
  Proof. intros Hst. unfold local_call. by rewrite Hst. Qed.

  (** Children and exited children, lookup by lookup. *)
Lemma children_lookup procs pid c :
    children procs pid !! c =
      match procs !! c with
      | Some q => if decide (p_ppid q = pid) then Some q else None
      | None => None
      end.
  Proof.
    unfold children. rewrite map_lookup_filter.
    destruct (procs !! c) as [q|]; simpl; [|done].
    case_decide; by simplify_option_eq.
  Qed.

Lemma children_nonempty procs pid c q :
    procs !! c = Some q -> p_ppid q = pid -> children procs pid ≠ ∅.
  Proof.
    intros Hc Hq Hemp. pose proof (children_lookup procs pid c) as Hl.
    rewrite Hemp, lookup_empty, Hc, decide_True in Hl by done. discriminate.
  Qed.

  (** A process blocked in [wait] with an exited child reaps it. *)
Lemma do_wait_some s pid p k c qc st :
    k_procs s !! c = Some qc -> p_ppid qc = pid -> p_state qc = Zombie st ->
    exists s', do_wait s pid p k = Some s'.
  Proof.
    intros Hc Hpp Hst. unfold do_wait.
    destruct (map_to_list (children (k_procs s) pid)) eqn:E1.
    { apply map_to_list_empty_iff in E1. by apply (children_nonempty _ _ c qc) in E1. }
    destruct (map_to_list (exited (children (k_procs s) pid))) as [|[c' st'] l'] eqn:E2;
      [|by eexists].
    apply map_to_list_empty_iff in E2.
    assert (exited (children (k_procs s) pid) !! c = Some st) as Hl.
    { unfold exited. rewrite lookup_omap, children_lookup, Hc, decide_True by done.
      cbn. by rewrite Hst. }
    by rewrite E2, lookup_empty in Hl.
  Qed.

  (** While no child of [pid] has exited, [exited] finds none. *)
Lemma exited_children_none procs pid :
    (forall c q, procs !! c = Some q -> p_ppid q = pid ->
                 forall st, p_state q <> Zombie st) ->
    exited (children procs pid) = ∅.
  Proof.
    intros Hall. apply map_eq. intros c. unfold exited.
    rewrite lookup_omap, children_lookup, lookup_empty.
    destruct (procs !! c) as [q|] eqn:Hc; [|done]. simpl.
    case_decide; [|done]. simpl.
    destruct (p_state q) eqn:Hst; try done. exfalso. by eapply Hall.
  Qed.

Lemma exited_children_one procs pid c q st :
    procs !! c = Some q -> p_ppid q = pid -> p_state q = Zombie st ->
    (forall c' q', c' <> c -> procs !! c' = Some q' -> p_ppid q' = pid ->
                   forall st', p_state q' <> Zombie st') ->
    exited (children procs pid) = {[c := st]}.
  Proof.
    intros Hc Hq Hst Hothers. apply map_eq. intros c'. unfold exited.
    rewrite lookup_omap, children_lookup.
    destruct (decide (c' = c)) as [->|Hne].
    - rewrite Hc, decide_True by done. simpl. by rewrite Hst, lookup_singleton_eq.
    - rewrite lookup_singleton_ne by done.
      destruct (procs !! c') as [q'|] eqn:Hc'; [|done]. simpl.
      case_decide; [|done]. simpl.
      destruct (p_state q') eqn:Hst'; try done. exfalso. by eapply Hothers.
  Qed.

Lemma do_wait_blocked s pid p k :
    children (k_procs s) pid ≠ ∅ -> exited (children (k_procs s) pid) = ∅ ->
    do_wait s pid p k = None.
  Proof.
    intros Hne Hnone. unfold do_wait.
    destruct (map_to_list (children (k_procs s) pid)) eqn:E.
    - by apply map_to_list_empty_iff in E.
    - by rewrite Hnone, map_to_list_empty.
  Qed.

Lemma do_wait_reap s pid p k c st :
    children (k_procs s) pid ≠ ∅ -> exited (children (k_procs s) pid) = {[c := st]} ->
    do_wait s pid p k =
      Some (mkKState (<[pid := set_state p (Running (k (Z.of_nat c)))]> (delete c (k_procs s)))
                     (k_next_pid s) (k_next_pipe s) (k_out s)).
  Proof.
    intros Hne Hone. unfold do_wait.
    destruct (map_to_list (children (k_procs s) pid)) eqn:E.
    - by apply map_to_list_empty_iff in E.
    - by rewrite Hone, map_to_list_singleton.
  Qed.

Lemma do_wait_echild s pid p k :
    children (k_procs s) pid = ∅ ->
    do_wait s pid p k = Some (upd_proc s pid (set_err p ECHILD (Running (k (-1)%Z)))).
  Proof. intros Hemp. unfold do_wait. by rewrite Hemp, map_to_list_empty. Qed.

Lemma run_cons s pid rest s' :
    step_proc C s pid = Some s' -> run C (pid :: rest) s = run C rest s'.
  Proof. intros H. simpl. by rewrite H. Qed.

Lemma run_local_app n s pid p p' rest :
    k_procs s !! pid = Some p -> local_run C n p = Some p' ->
    run C (replicate n pid ++ rest) s = run C rest (upd_proc s pid p').
  Proof. intros Hp Hl. rewrite run_app. by erewrite run_local_run. Qed.

Lemma do_write_ok s pid p fd i d buf k :
  fd_index fd = Some i -> p_fds p !! i = Some d -> writable d = true ->
  do_write s pid p fd buf k =
    mkKState (<[pid := set_state p (Running (k (Z.of_nat (String.length buf))))]> (k_procs s))
             (k_next_pid s) (k_next_pipe s) (k_out s ++ [(pid, d, buf)]).
Proof. intros Hi Hd Hw. unfold do_write. by rewrite Hi, Hd, Hw. Qed.

Lemma do_write_ebadf s pid p fd i buf k :
  fd_index fd = Some i -> p_fds p !! i = None ->
  do_write s pid p fd buf k = upd_proc s pid (set_err p EBADF (Running (k (-1)%Z))).
Proof. intros Hi Hd. unfold do_write. by rewrite Hi, Hd. Qed.

(** A process none of whose processes is a child of the exiting one keeps
    its parent. *)
Lemma proc_exit_lookup_other s pid p st c q :
  c <> pid -> k_procs s !! c = Some q -> p_ppid q <> pid ->
  k_procs (proc_exit s pid p st) !! c = Some q.
Proof.
  intros Hne Hc Hpp. unfold proc_exit. simpl.
  rewrite lookup_insert_ne, lookup_fmap, Hc by done. simpl.
  by rewrite (proj2 (Nat.eqb_neq _ _) Hpp).
Qed.

Lemma proc_exit_lookup_self s pid p st :
  k_procs (proc_exit s pid p st) !! pid = Some (set_fds p ∅ (Zombie (wait_status st))).
Proof. apply lookup_insert_eq. Qed.
(** Where [exit] leaves each process: the exiting one a zombie without
    descriptors, its children adopted by [init], the others unchanged. *)
Lemma proc_exit_lookup s pid q st i :
  k_procs (proc_exit s pid q st) !! i =
    if decide (pid = i) then Some (set_fds q ∅ (Zombie (wait_status st)))
    else (fun q' => if Nat.eqb (p_ppid q') pid
                    then mkProc init_pid (p_fds q') (p_errno q') (p_state q') else q')
           <$> k_procs s !! i.
Proof. unfold proc_exit. cbn [k_procs]. by rewrite lookup_insert, lookup_fmap. Qed.
End kernel_lemmas.

(** One call of a local run: the first lemma of [local_call] whose side
    conditions hold. *)
Ltac fd_index_tac :=
  first [ apply FdTable.fd_index_nat | apply FdTable.fd_index_stdin
        | apply FdTable.fd_index_stdout | apply FdTable.fd_index_stderr ].
Ltac kstate_simpl :=
  cbn [k_procs k_next_pid k_next_pipe k_out upd_proc init_state
       p_fds p_state p_ppid p_errno set_fds set_state set_err].
Ltac lookup_tac := kstate_simpl; simplify_map_eq; try reflexivity.
Ltac local_step :=
  erewrite local_run_S;
  [| first
     [ eapply local_errno; reflexivity
     | eapply local_exec_ok; [reflexivity | done]
     | eapply local_exec_fail; [reflexivity | done]
     | eapply local_close; [reflexivity | fd_index_tac | lookup_tac]
     | eapply local_close_ebadf; [reflexivity | fd_index_tac | lookup_tac]
     | eapply local_dup2_same; [reflexivity | fd_index_tac | fd_index_tac | lookup_tac]
     | eapply local_dup2; [reflexivity | fd_index_tac | fd_index_tac | lookup_tac
                          | done | lia] ] ].

(** Global steps of a run: [fork] with room in the process table, and
    [pipe] whose outcome is known; the state is normalised afterwards so
    that it carries no stale copies of the processes it replaced. *)
Ltac size_tac := kstate_simpl;
  repeat first [ rewrite map_size_insert_Some by (simplify_map_eq; eauto)
               | rewrite map_size_insert_None by (simplify_map_eq; done) ];
  rewrite ?map_size_singleton; lia.
Ltac fork_step :=
  erewrite run_cons;
  [| erewrite step_fork; [rewrite do_fork_ok; [reflexivity | size_tac] | lookup_tac | reflexivity]];
  kstate_simpl.
Ltac pipe_step H :=
  erewrite run_cons;
  [| erewrite step_pipe; [| lookup_tac | reflexivity];
     erewrite do_pipe_ok; [reflexivity | exact H]];
  kstate_simpl.

(** A [pipe] that fails (the descriptor table is full). *)
Ltac pipe_fail_step H :=
  erewrite run_cons;
  [| erewrite step_pipe; [| lookup_tac | reflexivity]; unfold do_pipe; kstate_simpl; rewrite H;
     reflexivity];
  kstate_simpl.

(** The steps of the error paths: a [fork] refused because the table is
    full, [perror] reading [errno], a [write] to an open descriptor, and
    [exit] (the exiting process's record is normalised). *)
Ltac fork_fail_step :=
  erewrite run_cons;
  [| erewrite step_fork;
     [rewrite do_fork_full; [reflexivity | kstate_simpl; rewrite ?map_size_singleton; lia]
     | lookup_tac | reflexivity]];
  kstate_simpl.
Ltac errno_step :=
  erewrite run_cons; [| eapply step_local; [lookup_tac | eapply local_errno; reflexivity]];
  kstate_simpl.
Ltac write_step :=
  erewrite run_cons;
  [| erewrite step_write; [| lookup_tac | reflexivity];
     erewrite do_write_ok; [reflexivity | fd_index_tac | lookup_tac | done]];
  kstate_simpl.
Ltac exit_step :=
  erewrite run_cons; [| erewrite step_exit; [reflexivity | lookup_tac | reflexivity]];
  unfold proc_exit, set_fds, set_state; kstate_simpl.

End Kernel.
