(* ===== verification/Stages.v ===== *)
(** * The stages: each process body run from its inherited descriptors

    After its last [fork], every process of the pipeline only closes,
    duplicates and execs: calls that touch nothing but its own descriptor
    table.  The lemmas here run each body ([Processes.child_body],
    [Processes.grandchild_body], [Processes.great_grandchild]) with
    [Kernel.local_run], from a table that holds the pipe ends at the
    descriptors [pipe] returned, to the [execlp] that replaces it, on the
    success path and on the path where the command is not found.  These
    are the "build one stage" steps the whole-system runs of [Pipeline]
    are composed of. *)

From stdpp Require Import base gmap sets list strings.
From Stdlib Require Import ZArith Lia.
From S2P Require Import Prelude FdTable Syscall Processes Kernel.

Module Stages.
Import FdTable Syscall Processes Kernel.

Local Open Scope string_scope.

Section stages.
  Context (C : config) (ppid : nat) (t : fdtab) (e : errno).

  (** [wc -l]: the read end of the first pipe becomes descriptor 0, and
      both original pipe descriptors are gone.  When [pipe] returned the
      read end as descriptor 0 itself, [dup2(0, 0)] does nothing and the
      [close] that follows leaves the child with no descriptor 0: the
      formula covers both cases. *)
Lemma child_body_run r w dr dw k :
    t !! r = Some dr -> t !! w = Some dw -> r <> w -> w <> 0 ->
    0 < open_max C -> "wc" ∈ path C ->
    local_run C 4 (mkProc ppid t e (Running (child_body (Z.of_nat r, Z.of_nat w) k))) =
      Some (mkProc ppid (delete r (<[0 := dr]> (delete w t))) e (Image "wc" ["wc"; "-l"])).
  Proof.
    intros. destruct (decide (r = 0)) as [->|?]; do 4 local_step; [|reflexivity].
    unfold set_state, set_fds. kstate_simpl. do 2 f_equal. map_ext.
  Qed.

  (** When [wc] is not on [PATH], [execlp] returns, [errno] is [ENOENT],
      and the child is about to print its diagnostic and exit. *)
Lemma child_body_exec_fails r w dr dw k :
    t !! r = Some dr -> t !! w = Some dw -> r <> w -> r <> 0 ->
    0 < open_max C -> "wc" ∉ path C ->
    local_run C 5 (mkProc ppid t e (Running (child_body (Z.of_nat r, Z.of_nat w) k))) =
      Some (mkProc ppid (delete r (<[0 := dr]> (delete w t))) ENOENT
              (Running (Write STDERR_FILENO
                          ("execlp wc failed: No such file or directory" ++ endl)
                          (fun _ => Exit (-1))))).
  Proof. intros. do 5 local_step. reflexivity. Qed.

  (** [grep <term>]: the read end of the second pipe becomes descriptor 0,
      the write end of the first becomes descriptor 1, and the four
      original pipe descriptors are gone.  When the read end of the first
      pipe is descriptor 0 itself, its [close] (line 96) closes the
      descriptor 0 that [dup2] has just set: the formula covers both
      cases. *)
Lemma grandchild_body_run term r0 w0 r1 w1 dr0 dw0 dr1 dw1 k :
    t !! r0 = Some dr0 -> t !! w0 = Some dw0 -> t !! r1 = Some dr1 -> t !! w1 = Some dw1 ->
    NoDup [r0; w0; r1; w1; 1] -> NoDup [w0; r1; w1; 0] -> 1 < open_max C -> "grep" ∈ path C ->
    local_run C 7 (mkProc ppid t e (Running (grandchild_body term (Z.of_nat r0, Z.of_nat w0)
                                                         (Z.of_nat r1, Z.of_nat w1) k))) =
      Some (mkProc ppid (delete w0 (<[1 := dw0]> (delete r0 (delete r1 (<[0 := dr1]> (delete w1 t))))))
                   e (Image "grep" ["grep"; term])).
  Proof.
    intros ???? Hd Hd' ??. nodup_facts Hd. nodup_facts Hd'.
    destruct (decide (r0 = 0)) as [->|?]; do 7 local_step; reflexivity.
  Qed.

  (** [ps aux]: the write end of the second pipe becomes descriptor 1, and
      the four original pipe descriptors are gone. *)
Lemma great_grandchild_run r0 w0 r1 w1 dr0 dw0 dr1 dw1 k :
    t !! r0 = Some dr0 -> t !! w0 = Some dw0 -> t !! r1 = Some dr1 -> t !! w1 = Some dw1 ->
    NoDup [r0; w0; r1; w1; 1] -> 1 < open_max C -> "ps" ∈ path C ->
    local_run C 6 (mkProc ppid t e (Running (great_grandchild (Z.of_nat r0, Z.of_nat w0)
                                                            (Z.of_nat r1, Z.of_nat w1) k))) =
      Some (mkProc ppid (delete w1 (<[1 := dw1]> (delete r1 (delete w0 (delete r0 t)))))
                   e (Image "ps" ["ps"; "aux"])).
  Proof. intros ???? Hd ??. nodup_facts Hd. do 6 local_step. reflexivity. Qed.
  (** When [grep] is not on [PATH], the grandchild has rewired its
      descriptors as on the success path, [execlp] returns with [errno]
      set to [ENOENT] (line 99), and the grandchild is about to print its
      diagnostic (line 100) and exit (line 101). *)
Lemma grandchild_body_exec_fails term r0 w0 r1 w1 dr0 dw0 dr1 dw1 k :
    t !! r0 = Some dr0 -> t !! w0 = Some dw0 -> t !! r1 = Some dr1 -> t !! w1 = Some dw1 ->
    NoDup [r0; w0; r1; w1; 1] -> NoDup [w0; r1; w1; 0] -> 1 < open_max C -> "grep" ∉ path C ->
    local_run C 8 (mkProc ppid t e (Running (grandchild_body term (Z.of_nat r0, Z.of_nat w0)
                                                         (Z.of_nat r1, Z.of_nat w1) k))) =
      Some (mkProc ppid (delete w0 (<[1 := dw0]> (delete r0 (delete r1 (<[0 := dr1]> (delete w1 t))))))
                   ENOENT (Running (Write STDERR_FILENO
                                      ("execlp grep failed: No such file or directory" ++ endl)
                                      (fun _ => Exit (-1))))).
  Proof.
    intros ???? Hd Hd' ??. nodup_facts Hd. nodup_facts Hd'.
    destruct (decide (r0 = 0)) as [->|?]; do 8 local_step; reflexivity.
  Qed.

  (** When [ps] is not on [PATH], the great-grandchild is about to print
      its diagnostic (line 89) and exit (line 90). *)
Lemma great_grandchild_exec_fails r0 w0 r1 w1 dr0 dw0 dr1 dw1 k :
    t !! r0 = Some dr0 -> t !! w0 = Some dw0 -> t !! r1 = Some dr1 -> t !! w1 = Some dw1 ->
    NoDup [r0; w0; r1; w1; 1] -> 1 < open_max C -> "ps" ∉ path C ->
    local_run C 7 (mkProc ppid t e (Running (great_grandchild (Z.of_nat r0, Z.of_nat w0)
                                                            (Z.of_nat r1, Z.of_nat w1) k))) =
      Some (mkProc ppid (delete w1 (<[1 := dw1]> (delete r1 (delete w0 (delete r0 t)))))
                   ENOENT (Running (Write STDERR_FILENO
                                      ("execlp ps failed: No such file or directory" ++ endl)
                                      (fun _ => Exit (-1))))).
  Proof. intros ???? Hd ??. nodup_facts Hd. do 7 local_step. reflexivity. Qed.
End stages.

End Stages.
