(* ===== verification/Pipeline.v ===== *)
(** * The pipeline built by [main], run on the kernel

    The supervisor is process [sup]; the kernel gives the child, the
    grandchild and the great-grandchild the pids [S sup], [S (S sup)] and
    [S (S (S sup))] (pids are allocated in order and the forks are
    causally ordered).  [pipeline_schedule] runs each process as far as it
    goes before the next one starts; the theorems of this file say what
    that run produces, on the success path and on the error paths. *)

From stdpp Require Import base gmap sets list strings.
From Stdlib Require Import ZArith Lia.
From S2P Require Import Prelude FdTable Syscall Processes Kernel Stages.

Module Pipeline.
Import FdTable Syscall Processes Kernel Stages.

Local Open Scope string_scope.

(** The supervisor forks; the child creates pipe 0, forks, and becomes
    [wc]; the grandchild creates pipe 1, forks, and runs [ng] calls of its
    body; the great-grandchild runs [np] calls of its body. *)
Definition build_schedule (sup ng np : nat) : list nat :=
  sup :: S sup :: S sup :: replicate 4 (S sup) ++
  S (S sup) :: S (S sup) :: replicate ng (S (S sup)) ++ replicate np (S (S (S sup))).

Definition pipeline_schedule (sup : nat) : list nat := build_schedule sup 7 6.

(** The build, for whatever the grandchild's [ng] calls after its [fork]
    lead to ([eg], [stg]) and the great-grandchild's [np] calls lead to
    ([ep], [stp]) from a table holding the four pipe ends: the supervisor
    waits, [wc] runs its command, two pipes exist, nothing has been
    written. *)
Lemma build_run C sup T a0 term ng eg stg np ep stp :
  is_Some (T !! 0) -> is_Some (T !! 1) ->
  size T + 4 <= open_max C -> 4 <= proc_max C -> "wc" ∈ path C ->
  (forall ppid t r0 w0 r1 w1 dr0 dw0 dr1 dw1 k,
     t !! r0 = Some dr0 -> t !! w0 = Some dw0 -> t !! r1 = Some dr1 -> t !! w1 = Some dw1 ->
     NoDup [r0; w0; r1; w1; 1] -> NoDup [w0; r1; w1; 0] ->
     local_run C ng (mkProc ppid t ENOERR (Running (grandchild_body term (Z.of_nat r0, Z.of_nat w0)
                                                              (Z.of_nat r1, Z.of_nat w1) k))) =
       Some (mkProc ppid (delete w0 (<[1 := dw0]> (delete r0 (delete r1 (<[0 := dr1]> (delete w1 t))))))
                    eg stg)) ->
  (forall ppid t r0 w0 r1 w1 dr0 dw0 dr1 dw1 k,
     t !! r0 = Some dr0 -> t !! w0 = Some dw0 -> t !! r1 = Some dr1 -> t !! w1 = Some dw1 ->
     NoDup [r0; w0; r1; w1; 1] ->
     local_run C np (mkProc ppid t ENOERR (Running (great_grandchild (Z.of_nat r0, Z.of_nat w0)
                                                                 (Z.of_nat r1, Z.of_nat w1) k))) =
       Some (mkProc ppid (delete w1 (<[1 := dw1]> (delete r1 (delete w0 (delete r0 t))))) ep stp)) ->
  exists s k,
    run C (build_schedule sup ng np) (init_state sup T (main_prog [a0; term])) = Some s /\
    k_procs s !! sup = Some (mkProc init_pid T ENOERR (Running (Wait k))) /\
    k_procs s !! S sup =
      Some (mkProc sup (<[0 := DPipeRd 0]> T) ENOERR (Image "wc" ["wc"; "-l"])) /\
    k_procs s !! S (S sup) = Some (mkProc (S sup) (<[1 := DPipeWr 0]> (<[0 := DPipeRd 1]> T)) eg stg) /\
    k_procs s !! S (S (S sup)) = Some (mkProc (S (S sup)) (<[1 := DPipeWr 1]> T) ep stp) /\
    dom (k_procs s) = {[sup; S sup; S (S sup); S (S (S sup))]} /\
    k_next_pid s = S (S (S (S sup))) /\ k_next_pipe s = 2 /\ k_out s = [].
Proof.
  intros H0 H1 Hom Hpm Hwc Hg Hgg.
  destruct (fd_pipe_room (open_max C) T 0) as (r0 & w0 & Hp0 & Hr0 & Hw0 & Hrw0); [lia|].
  pose proof (fresh_not_open T r0 0 Hr0 H0). pose proof (fresh_not_open T r0 1 Hr0 H1).
  pose proof (fresh_not_open T w0 0 Hw0 H0). pose proof (fresh_not_open T w0 1 Hw0 H1).
  assert (sup ≠ S sup /\ S sup ≠ S (S sup) /\ sup ≠ S (S sup)) as (? & ? & ?) by lia.
  unfold build_schedule.
  fork_step. pipe_step Hp0. fork_step.
  erewrite run_local_app;
    [| lookup_tac | eapply child_body_run; [lookup_tac | lookup_tac | done | done | lia | done]].
  kstate_simpl.
  destruct (fd_pipe_room (open_max C) (<[w0:=DPipeWr 0]> (<[r0:=DPipeRd 0]> T)) 1)
    as (r1 & w1 & Hp1 & Hr1 & Hw1 & Hrw1).
  { rewrite !map_size_insert_None; simplify_map_eq; try done; lia. }
  apply lookup_insert_None in Hr1 as [[Hr1T ?]%lookup_insert_None ?].
  apply lookup_insert_None in Hw1 as [[Hw1T ?]%lookup_insert_None ?].
  pose proof (fresh_not_open T r1 0 Hr1T H0). pose proof (fresh_not_open T r1 1 Hr1T H1).
  pose proof (fresh_not_open T w1 0 Hw1T H0). pose proof (fresh_not_open T w1 1 Hw1T H1).
  assert (S (S (S sup)) ≠ sup /\ S (S (S sup)) ≠ S sup /\ S (S (S sup)) ≠ S (S sup))
    as (? & ? & ?) by lia.
  pipe_step Hp1. fork_step.
  erewrite run_local_app;
    [| lookup_tac | eapply Hg; [lookup_tac | lookup_tac | lookup_tac | lookup_tac | nodup_tac | nodup_tac]].
  kstate_simpl.
  erewrite run_local_run;
    [| lookup_tac | eapply Hgg; [lookup_tac | lookup_tac | lookup_tac | lookup_tac | nodup_tac]].
  kstate_simpl.
  eexists _, _. split; [reflexivity|]. simplify_map_eq.
  split_and!; [reflexivity | (do 3 f_equal; map_ext) | (do 3 f_equal; map_ext)
              | (do 3 f_equal; map_ext) | rewrite !dom_insert_L, dom_singleton_L; set_eq_tac
              | done | done | done].
Qed.

(** The state the schedule reaches when nothing fails: the supervisor
    waits, the three stages run their commands, two pipes exist, nothing
    has been written. *)
Lemma pipeline_run C sup T a0 term :
  is_Some (T !! 0) -> is_Some (T !! 1) ->
  size T + 4 <= open_max C -> 4 <= proc_max C ->
  "ps" ∈ path C -> "grep" ∈ path C -> "wc" ∈ path C ->
  exists s k,
    run C (pipeline_schedule sup) (init_state sup T (main_prog [a0; term])) = Some s /\
    k_procs s !! sup = Some (mkProc init_pid T ENOERR (Running (Wait k))) /\
    k_procs s !! S sup =
      Some (mkProc sup (<[0 := DPipeRd 0]> T) ENOERR (Image "wc" ["wc"; "-l"])) /\
    k_procs s !! S (S sup) =
      Some (mkProc (S sup) (<[1 := DPipeWr 0]> (<[0 := DPipeRd 1]> T)) ENOERR
                   (Image "grep" ["grep"; term])) /\
    k_procs s !! S (S (S sup)) =
      Some (mkProc (S (S sup)) (<[1 := DPipeWr 1]> T) ENOERR (Image "ps" ["ps"; "aux"])) /\
    dom (k_procs s) = {[sup; S sup; S (S sup); S (S (S sup))]} /\
    k_next_pid s = S (S (S (S sup))) /\ k_next_pipe s = 2 /\ k_out s = [].
Proof.
  intros H0 H1 Hom Hpm Hps Hgrep Hwc.
  apply build_run; [done.. | |]; intros.
  - eapply grandchild_body_run; eauto. lia.
  - eapply great_grandchild_run; eauto. lia.
Qed.

(** [exec_with s pid file argv t]: process [pid] runs [file] with
    arguments [argv] and descriptor table [t]. *)
Definition exec_with (s : kstate) (pid : nat) (file : string) (argv : list string)
           (t : fdtab) : Prop :=
  exists q, k_procs s !! pid = Some q /\ p_state q = Image file argv /\ p_fds q = t.

(** [holds s pid fd d]: descriptor [fd] of process [pid] refers to [d]. *)
Definition holds (s : kstate) (pid fd : nat) (d : desc) : Prop :=
  exists q, k_procs s !! pid = Some q /\ p_fds q !! fd = Some d.

(** Who holds a pipe end in the state [pipeline_run] reaches: only the
    descriptors the stages were wired with. *)
Lemma pipe_holders s sup T k a :
  pipes_below 0 T ->
  k_procs s !! sup = Some (mkProc init_pid T ENOERR (Running (Wait k))) ->
  k_procs s !! S sup = Some (mkProc sup (<[0 := DPipeRd 0]> T) ENOERR (Image "wc" ["wc"; "-l"])) ->
  k_procs s !! S (S sup) =
    Some (mkProc (S sup) (<[1 := DPipeWr 0]> (<[0 := DPipeRd 1]> T)) ENOERR a) ->
  k_procs s !! S (S (S sup)) =
    Some (mkProc (S (S sup)) (<[1 := DPipeWr 1]> T) ENOERR (Image "ps" ["ps"; "aux"])) ->
  dom (k_procs s) = {[sup; S sup; S (S sup); S (S (S sup))]} ->
  forall pid fd d, desc_pipe d <> None -> holds s pid fd d ->
    (pid, fd, d) ∈ [(S sup, 0, DPipeRd 0); (S (S sup), 0, DPipeRd 1);
                    (S (S sup), 1, DPipeWr 0); (S (S (S sup)), 1, DPipeWr 1)].
Proof.
  intros Hnopipe Hsup Hc Hg Hgg Hdom pid fd d Hd (q & Hq & Hfd).
  assert (pid ∈ dom (k_procs s)) as Hin by (apply elem_of_dom; eauto).
  rewrite Hdom in Hin. set_unfold.
  destruct_or! Hin; subst pid; rewrite ?Hsup, ?Hc, ?Hg, ?Hgg in Hq;
    injection Hq as <-; cbn [p_fds] in Hfd;
    repeat (rewrite lookup_insert in Hfd; case_decide;
            [injection Hfd as <-; subst; by repeat constructor|]);
    by destruct Hd; eapply pipes_below_0.
Qed.

Section pipeline.
  Context (C : config) (sup : nat) (T : fdtab) (a0 term : string).
  Hypothesis (HT0 : is_Some (T !! 0)) (HT1 : is_Some (T !! 1)).
  Hypothesis (Hopen : size T + 4 <= open_max C) (Hprocs : 4 <= proc_max C).
  Hypothesis (Hps : "ps" ∈ path C) (Hgrep : "grep" ∈ path C) (Hwc : "wc" ∈ path C).

  (** C2. When the supervisor starts with descriptors 0 and 1 open, and no
      limit or missing command makes a call fail, the program execs [wc -l]
      with standard input on the read end of pipe 0, [grep <term>] with
      standard input on the read end of pipe 1 and standard output on the
      write end of pipe 0, and [ps aux] with standard output on the write
      end of pipe 1; every other descriptor is the one inherited from the
      supervisor, and the supervisor is blocked in [wait(NULL)]. *)
Theorem pipeline_wiring :
    exists s,
      run C (pipeline_schedule sup) (init_state sup T (main_prog [a0; term])) = Some s /\
      exec_with s (S sup) "wc" ["wc"; "-l"] (<[0 := DPipeRd 0]> T) /\
      exec_with s (S (S sup)) "grep" ["grep"; term] (<[1 := DPipeWr 0]> (<[0 := DPipeRd 1]> T)) /\
      exec_with s (S (S (S sup))) "ps" ["ps"; "aux"] (<[1 := DPipeWr 1]> T) /\
      (exists k, k_procs s !! sup = Some (mkProc init_pid T ENOERR (Running (Wait k)))) /\
      step_proc C s sup = None.
  Proof.
    destruct (pipeline_run C sup T a0 term) as (s & k & Hrun & Hsup & Hc & Hg & Hgg & Hdom & _);
      try done.
    exists s. split_and!; [done | by eexists | by eexists | by eexists | by eexists |].
    erewrite step_wait by done.
    apply do_wait_blocked.
    - eapply children_nonempty; [exact Hc | reflexivity].
    - apply exited_children_none. intros c q Hq Hpp st Hst.
      assert (c ∈ dom (k_procs s)) as Hin by (apply elem_of_dom; eauto).
      rewrite Hdom in Hin. set_unfold.
      destruct_or! Hin; subst c; rewrite ?Hsup, ?Hc, ?Hg, ?Hgg in Hq;
        injection Hq as <-; simpl in Hpp, Hst; try discriminate; lia.
  Qed.

  (** C3. In that state every pipe end is held by exactly one descriptor
      of one process, the one it is wired to, provided the supervisor
      inherited no pipe end: no stage keeps an end it does not use, so the
      readers see end-of-file once the writer is done. *)
Theorem pipe_ends_unique :
    pipes_below 0 T ->
    exists s,
      run C (pipeline_schedule sup) (init_state sup T (main_prog [a0; term])) = Some s /\
      forall pid fd d, desc_pipe d <> None ->
        holds s pid fd d <->
        (pid, fd, d) ∈ [(S sup, 0, DPipeRd 0); (S (S sup), 0, DPipeRd 1);
                        (S (S sup), 1, DPipeWr 0); (S (S (S sup)), 1, DPipeWr 1)].
  Proof.
    intros Hnopipe.
    destruct (pipeline_run C sup T a0 term) as (s & k & Hrun & Hsup & Hc & Hg & Hgg & Hdom & _);
      try done.
    exists s. split; [done|]. intros pid fd d Hd. split.
    - by apply (pipe_holders s sup T k _ Hnopipe Hsup Hc Hg Hgg Hdom).
    - rewrite !elem_of_cons, elem_of_nil. intros Hin.
      destruct_or! Hin; try done; simplify_eq;
        (eexists; split; [eassumption | cbn [p_fds]; by simplify_map_eq]).
  Qed.
End pipeline.

(** ** Witnesses at a concrete start: the standard descriptors on a
    terminal, generous limits, the three commands installed. *)
Definition std_fds : fdtab := {[0 := DTerm 0; 1 := DTerm 1; 2 := DTerm 2]}.
Definition demo_config : config := mkConfig 1024 4096 ["ps"; "grep"; "wc"].

Lemma std_fds_no_pipes : pipes_below 0 std_fds.
Proof.
  apply map_Forall_to_list. vm_compute.
  repeat constructor; intros p Hp; discriminate.
Qed.

Lemma pipeline_wiring_witness :
  exists s,
    run demo_config (pipeline_schedule 100) (init_state 100 std_fds (main_prog ["processes"; "bash"]))
      = Some s /\
    exec_with s 101 "wc" ["wc"; "-l"] (<[0 := DPipeRd 0]> std_fds) /\
    exec_with s 102 "grep" ["grep"; "bash"] (<[1 := DPipeWr 0]> (<[0 := DPipeRd 1]> std_fds)) /\
    exec_with s 103 "ps" ["ps"; "aux"] (<[1 := DPipeWr 1]> std_fds).
Proof.
  destruct (pipeline_wiring demo_config 100 std_fds "processes" "bash"
              ltac:(eexists; reflexivity) ltac:(eexists; reflexivity)
              ltac:(vm_compute; lia) ltac:(vm_compute; lia)
              ltac:(repeat constructor) ltac:(repeat constructor) ltac:(repeat constructor))
    as (s & Hrun & Hwc & Hgrep & Hps & _).
  exists s. exact (conj Hrun (conj Hwc (conj Hgrep Hps))).
Defined.

Lemma pipe_ends_unique_witness :
  exists s,
    run demo_config (pipeline_schedule 100) (init_state 100 std_fds (main_prog ["processes"; "bash"]))
      = Some s /\
    (forall pid fd, holds s pid fd (DPipeWr 0) <-> pid = 102 /\ fd = 1).
Proof.
  destruct (pipe_ends_unique demo_config 100 std_fds "processes" "bash"
              ltac:(eexists; reflexivity) ltac:(eexists; reflexivity)
              ltac:(vm_compute; lia) ltac:(vm_compute; lia)
              ltac:(repeat constructor) ltac:(repeat constructor) ltac:(repeat constructor)
              std_fds_no_pipes)
    as (s & Hrun & Hends).
  exists s. split; [exact Hrun|]. clear Hrun. intros pid fd.
  rewrite (Hends pid fd (DPipeWr 0)) by discriminate.
  rewrite !elem_of_cons, elem_of_nil. split.
  - intros Hin. destruct_or! Hin; simplify_eq; done.
  - intros [-> ->]. do 2 right. left. reflexivity.
Defined.

End Pipeline.
