(* ===== verification/Reference.v ===== *)
(** * The spec's stage body, and the code's three bodies against it

    The spec (section 4.1, step 3) describes one "build one stage" step
    that a reimplementation should isolate: close both ends of every
    channel the stage does not use and the unused end of each channel it
    does use, then move the upstream read end onto standard input and
    close the original, then move the downstream write end onto standard
    output and close the original, then replace the image, printing a
    diagnostic naming the command when that fails.  [spec_stage] is that
    step, written with the same library calls as [Processes].

    [main] inlines the step three times.  For [ps] and [wc] the code is
    the reference step itself (the first two parts of
    [stage_bodies_equiv], a conversion).  The grandchild ([grep]) closes the unused read end of
    the first pipe after, not before, moving its input (line 96 after
    lines 94-95): the two orders run to the same process whenever the
    descriptors [pipe] returned are distinct and none is 0 or 1
    (the third part), and differ when the first pipe's read end
    is descriptor 0, where the reference order keeps [grep]'s input and
    the code's loses it ([grandchild_order_matters]). *)

From stdpp Require Import base gmap sets list strings.
From Stdlib Require Import ZArith Lia.
From S2P Require Import Prelude FdTable Syscall Processes Kernel Pipeline.

Module Reference.
Import FdTable Syscall Processes Kernel Pipeline.

Local Open Scope string_scope.
Local Open Scope cont_scope.

(** Both ends of a channel, read end first. *)
Definition close_pair (fds : Z * Z) : M Z :=
  do _ <- close fds.1;
  close fds.2.

Fixpoint close_all (l : list (Z * Z)) : M Z :=
  match l with
  | [] => cret 0%Z
  | fds :: l => do _ <- close_pair fds; close_all l
  end.

(** Step 3 of the builder for one stage: [unused] are the channels it
    does not use, [up] and [down] its upstream and downstream channels. *)
Definition spec_stage (unused : list (Z * Z)) (up down : option (Z * Z))
           (exe : string) (args : list string) : M unit :=
  do _ <- close_all unused;
  do _ <- (if up is Some fds then close fds.2 else cret 0%Z);
  do _ <- (if down is Some fds then close fds.1 else cret 0%Z);
  do _ <- (if up is Some fds then (do _ <- dup2 fds.1 STDIN_FILENO; close fds.1) else cret 0%Z);
  do _ <- (if down is Some fds then (do _ <- dup2 fds.2 STDOUT_FILENO; close fds.2) else cret 0%Z);
  do _ <- execlp exe (exe :: args);
  do _ <- perror ("execlp " ++ exe ++ " failed");
  exit (-1).


(** C17. The code's three stage bodies implement the spec's reference
    step: the great-grandchild's body (lines 82-90) and the child's
    (lines 105-110) are the reference step for [ps aux] and [wc -l]; the
    grandchild's body (lines 93-101), which closes the unused read end
    of the first pipe later than the reference, runs to the same process
    as the reference step for [grep <term>] (the same descriptor table and
    the same image, or the same diagnostic when [grep] is not on [PATH])
    whenever the four pipe descriptors are distinct and none of them is
    0 or 1. *)
Theorem stage_bodies_equiv :
  (forall fds0 fds1, great_grandchild fds0 fds1 = spec_stage [fds0] None (Some fds1) "ps" ["aux"]) /\
  (forall fds0, child_body fds0 = spec_stage [] (Some fds0) None "wc" ["-l"]) /\
  (forall C ppid t e term r0 w0 r1 w1 dr0 dw0 dr1 dw1 k,
     t !! r0 = Some dr0 -> t !! w0 = Some dw0 -> t !! r1 = Some dr1 -> t !! w1 = Some dw1 ->
     NoDup [r0; w0; r1; w1; 0; 1] -> 1 < open_max C ->
     let fds0 := (Z.of_nat r0, Z.of_nat w0) in
     let fds1 := (Z.of_nat r1, Z.of_nat w1) in
     local_run C 7 (mkProc ppid t e (Running (grandchild_body term fds0 fds1 k))) =
       local_run C 7 (mkProc ppid t e (Running (spec_stage [] (Some fds1) (Some fds0) "grep" [term] k))) /\
     is_Some (local_run C 7 (mkProc ppid t e (Running (grandchild_body term fds0 fds1 k))))).
Proof.
  split_and!; [done | done |].
  intros C ppid t e term r0 w0 r1 w1 dr0 dw0 dr1 dw1 k ???? Hd ? fds0 fds1. nodup_facts Hd.
  subst fds0 fds1. destruct (decide ("grep" ∈ path C)); do 14 local_step;
    (split; [|by eexists]); unfold set_state, set_fds, set_err; kstate_simpl; do 3 f_equal; map_ext.
Qed.

(** C18. The order of the grandchild's calls matters when the first
    pipe's read end is descriptor 0 (the program was started with
    descriptor 0 closed): the code's body closes, at line 96, the
    descriptor 0 its [dup2] has just set, and [grep] runs without
    standard input, while the reference step, which closes the unused
    read end first, gives [grep] the read end of the second pipe as
    standard input. *)
Theorem grandchild_order_matters C ppid t e term w0 r1 w1 dr0 dw0 dr1 dw1 k :
  t !! 0 = Some dr0 -> t !! w0 = Some dw0 -> t !! r1 = Some dr1 -> t !! w1 = Some dw1 ->
  NoDup [0; w0; r1; w1; 1] -> 1 < open_max C -> "grep" ∈ path C ->
  let fds0 := (Z.of_nat 0, Z.of_nat w0) in
  let fds1 := (Z.of_nat r1, Z.of_nat w1) in
  exists p p',
    local_run C 7 (mkProc ppid t e (Running (grandchild_body term fds0 fds1 k))) = Some p /\
    local_run C 7 (mkProc ppid t e (Running (spec_stage [] (Some fds1) (Some fds0) "grep" [term] k)))
      = Some p' /\
    p_state p = Image "grep" ["grep"; term] /\ p_state p' = Image "grep" ["grep"; term] /\
    p_fds p !! 0 = None /\ p_fds p' !! 0 = Some dr1.
Proof.
  intros ???? Hd ?? fds0 fds1. nodup_facts Hd. subst fds0 fds1.
  do 14 local_step. eexists _, _. split_and!; [reflexivity.. | |]; cbn; by simplify_map_eq.
Qed.

(** The witnesses: a grandchild whose pipes got descriptors 3 to 6, and
    one started with descriptor 0 closed, whose pipes got 0, 3, 4 and 5. *)
Definition demo_table : fdtab :=
  {[0 := DTerm 0; 1 := DTerm 1; 2 := DTerm 2; 3 := DPipeRd 0; 4 := DPipeWr 0;
    5 := DPipeRd 1; 6 := DPipeWr 1]}.

Lemma stage_bodies_equiv_witness :
  let fds0 := (Z.of_nat 3, Z.of_nat 4) in
  let fds1 := (Z.of_nat 5, Z.of_nat 6) in
  local_run demo_config 7
    (mkProc 101 demo_table ENOERR (Running (grandchild_body "bash" fds0 fds1 (fun _ => Exit 0%Z)))) =
  local_run demo_config 7
    (mkProc 101 demo_table ENOERR
       (Running (spec_stage [] (Some fds1) (Some fds0) "grep" ["bash"] (fun _ => Exit 0%Z)))) /\
  is_Some (local_run demo_config 7
    (mkProc 101 demo_table ENOERR (Running (grandchild_body "bash" fds0 fds1 (fun _ => Exit 0%Z))))).
Proof.
  exact (proj2 (proj2 stage_bodies_equiv) demo_config 101 demo_table ENOERR "bash" 3 4 5 6
           (DPipeRd 0) (DPipeWr 0) (DPipeRd 1) (DPipeWr 1) (fun _ => Exit 0%Z)
           eq_refl eq_refl eq_refl eq_refl ltac:(nodup_tac) ltac:(vm_compute; lia)).
Defined.

Definition stdin_closed_table : fdtab :=
  {[0 := DPipeRd 0; 1 := DTerm 1; 2 := DTerm 2; 3 := DPipeWr 0; 4 := DPipeRd 1; 5 := DPipeWr 1]}.

Lemma grandchild_order_matters_witness :
  let fds0 := (Z.of_nat 0, Z.of_nat 3) in
  let fds1 := (Z.of_nat 4, Z.of_nat 5) in
  exists p p',
    local_run demo_config 7
      (mkProc 101 stdin_closed_table ENOERR
         (Running (grandchild_body "bash" fds0 fds1 (fun _ => Exit 0%Z)))) = Some p /\
    local_run demo_config 7
      (mkProc 101 stdin_closed_table ENOERR
         (Running (spec_stage [] (Some fds1) (Some fds0) "grep" ["bash"] (fun _ => Exit 0%Z)))) = Some p' /\
    p_state p = Image "grep" ["grep"; "bash"] /\ p_state p' = Image "grep" ["grep"; "bash"] /\
    p_fds p !! 0 = None /\ p_fds p' !! 0 = Some (DPipeRd 1).
Proof.
  exact (grandchild_order_matters demo_config 101 stdin_closed_table ENOERR "bash" 3 4 5
           (DPipeRd 0) (DPipeWr 0) (DPipeRd 1) (DPipeWr 1) (fun _ => Exit 0%Z)
           eq_refl eq_refl eq_refl eq_refl ltac:(nodup_tac) ltac:(vm_compute; lia)
           ltac:(repeat constructor)).
Defined.
End Reference.
