(* ===== verification/Errors.v ===== *)
(** * The error paths of [main]

    What the program does when something goes wrong, each path run on the
    kernel to its end: a wrong number of arguments (the usage message and
    exit status 255, under every schedule, with no process or pipe
    created), the supervisor's own [fork] refused (the message and exit
    status 0), and [wc] missing from [PATH] (the child's diagnostic, its
    exit status 255, and the supervisor, which reaps it, still printing
    its completion line and exiting with status 0). *)

From stdpp Require Import base gmap sets list strings.
From Stdlib Require Import ZArith Lia.
From S2P Require Import Prelude FdTable Syscall Processes Kernel Stages Pipeline.

Module Errors.
Import FdTable Syscall Processes Kernel Stages Pipeline.

Local Open Scope string_scope.

(** The four states of the usage-error path: what the supervisor has
    left to run after [n] calls, and what it has written. *)
Definition usage_code (n : nat) : pstate :=
  match n with
  | 0 => Running (Write STDERR_FILENO "Usage: processes command"
                    (fun _ => Write STDERR_FILENO endl (fun _ => Exit (-1))))
  | 1 => Running (Write STDERR_FILENO endl (fun _ => Exit (-1)))
  | 2 => Running (Exit (-1))
  | _ => Zombie 255
  end.

Definition usage_state (sup : nat) (T : fdtab) (d2 : desc) (n : nat) : kstate :=
  mkKState {[sup := mkProc init_pid (if Nat.ltb n 3 then T else ∅) ENOERR (usage_code n)]}
           (S sup) 0 (take n [(sup, d2, "Usage: processes command"); (sup, d2, endl)]).

(** The run where [execlp wc] fails: the supervisor forks, the child
    makes its pipe and forks, runs its five calls up to [perror], writes
    the diagnostic and exits. *)
Definition wc_missing_schedule (sup : nat) : list nat :=
  sup :: S sup :: S sup :: replicate 5 (S sup) ++ [S sup; S sup].

(** Configurations for the concrete runs: a process table with room for
    one process only, and a [PATH] without [wc]. *)
Definition full_table_config : config := mkConfig 1024 1 ["ps"; "grep"; "wc"].
Definition no_wc_config : config := mkConfig 1024 4096 ["ps"; "grep"].

Lemma main_prog_usage argv :
  length argv <> 2 ->
  main_prog argv = Write STDERR_FILENO "Usage: processes command"
                     (fun _ => Write STDERR_FILENO endl (fun _ => Exit (-1))).
Proof. intros H. unfold main_prog, main. by rewrite (proj2 (Nat.eqb_neq _ _) H). Qed.

(** Every step from a state of the usage path leads to the next one. *)
Lemma usage_state_step C sup T d2 n s' :
  T !! 2 = Some d2 -> writable d2 = true ->
  kstep C (usage_state sup T d2 n) s' -> n < 3 /\ s' = usage_state sup T d2 (S n).
Proof.
  intros Hd2 Hw Hstep. inversion Hstep as [s pid s'' Hs| s pid p file argv st Hp Hst]; subst.
  - unfold step_proc in Hs. cbn [usage_state k_procs] in Hs.
    destruct (decide (pid = sup)) as [->|Hne];
      [rewrite lookup_singleton_eq in Hs | by rewrite lookup_singleton_ne in Hs].
    cbn [p_state] in Hs.
    destruct n as [|[|[|n]]]; cbn [usage_code] in Hs; try discriminate;
      [erewrite do_write_ok in Hs; [| reflexivity | exact Hd2 | exact Hw]
      |erewrite do_write_ok in Hs; [| reflexivity | exact Hd2 | exact Hw] |];
      injection Hs as <-; (split; [lia|]); unfold usage_state, proc_exit;
      cbn [k_procs k_next_pid k_next_pipe k_out];
      rewrite ?map_fmap_singleton, insert_singleton_eq; reflexivity.
  - cbn [usage_state k_procs] in Hp.
    apply lookup_singleton_Some in Hp as [<- <-].
    destruct n as [|[|[|n]]]; discriminate.
Qed.

(** C11. With a number of arguments other than one, [main] writes
    ["Usage: processes command"] and a newline to descriptor 2 and exits
    with [-1], which the kernel reports as status 255; the table of the
    exited supervisor is empty. *)
Theorem usage_error_run C sup T argv d2 :
  length argv <> 2 -> T !! 2 = Some d2 -> writable d2 = true ->
  run C [sup; sup; sup] (init_state sup T (main_prog argv)) =
    Some (mkKState {[sup := mkProc init_pid ∅ ENOERR (Zombie 255)]} (S sup) 0
                   [(sup, d2, "Usage: processes command"); (sup, d2, endl)]).
Proof.
  intros Hlen Hd2 Hw. rewrite (main_prog_usage argv Hlen).
  write_step. write_step. exit_step.
  do 2 f_equal. rewrite insert_only; [reflexivity|].
  intros j Hj. rewrite lookup_fmap. by simplify_map_eq.
Qed.

(** C10. With a number of arguments other than one, under every schedule
    of the kernel, the system never holds a process other than the
    supervisor and never creates a pipe: no pipeline is built. *)
Theorem usage_error_no_pipeline C sup T argv d2 s :
  length argv <> 2 -> T !! 2 = Some d2 -> writable d2 = true ->
  star (kstep C) (init_state sup T (main_prog argv)) s ->
  dom (k_procs s) = {[sup]} /\ k_next_pid s = S sup /\ k_next_pipe s = 0.
Proof.
  intros Hlen Hd2 Hw Hstar.
  assert (Hinit : init_state sup T (main_prog argv) = usage_state sup T d2 0).
  { unfold init_state, usage_state. by rewrite (main_prog_usage argv Hlen). }
  rewrite Hinit in Hstar.
  cut (exists n, s = usage_state sup T d2 n).
  { intros [n ->]. split_and!; [apply dom_singleton_L | done | done]. }
  apply (star_invariant (kstep C) (fun s => exists n, s = usage_state sup T d2 n))
    with (s := usage_state sup T d2 0); [| done | by exists 0].
  intros ? s' [n ->] Hs. exists (S n). by apply (usage_state_step C sup T d2 n s').
Qed.

(** C8. When the supervisor's own [fork] fails (the process table is
    full), it prints ["fork error: ..."] and returns from [main] with
    status 0: the failure is not reported in the exit status, and no
    completion line is printed. *)
Theorem fork_failure_exit_zero C sup T a0 term d2 :
  proc_max C <= 1 -> T !! 2 = Some d2 -> writable d2 = true ->
  run C [sup; sup; sup; sup] (init_state sup T (main_prog [a0; term])) =
    Some (mkKState {[sup := mkProc init_pid ∅ EAGAIN (Zombie 0)]} (S sup) 0
                   [(sup, d2, "fork error: Resource temporarily unavailable" ++ endl)]).
Proof.
  intros Hpm Hd2 Hw.
  fork_fail_step. errno_step. write_step. exit_step.
  do 2 f_equal. rewrite insert_only; [reflexivity|].
  intros j Hj. rewrite lookup_fmap. by simplify_map_eq.
Qed.

(** C9. When [wc] is not on [PATH], the child writes ["execlp wc failed:
    No such file or directory"] to descriptor 2 and exits with status
    255; the supervisor's [wait(NULL)] then reaps it (the grandchild was
    handed to init), and the supervisor prints ["commands completed"] and
    exits with status 0 while the grandchild, adopted by init, has not
    even run: the failure of the pipeline does not reach the supervisor's
    output or status, and the completion notice does not mean that the
    stages have finished. *)
Theorem wc_missing_still_completes C sup T a0 term d1 d2 :
  init_pid < sup ->
  T !! 1 = Some d1 -> writable d1 = true -> T !! 2 = Some d2 -> writable d2 = true ->
  is_Some (T !! 0) -> size T + 2 <= open_max C -> 3 <= proc_max C -> "wc" ∉ path C ->
  exists s1 s2,
    run C (wc_missing_schedule sup) (init_state sup T (main_prog [a0; term])) = Some s1 /\
    k_procs s1 !! S sup = Some (mkProc sup ∅ ENOENT (Zombie 255)) /\
    run C [sup; sup; sup] s1 = Some s2 /\
    k_procs s2 !! sup = Some (mkProc init_pid ∅ ENOERR (Zombie 0)) /\
    k_procs s2 !! S sup = None /\
    (exists q k, k_procs s2 !! S (S sup) = Some q /\ p_ppid q = init_pid /\
                 p_state q = Running k) /\
    k_out s2 = [(S sup, d2, "execlp wc failed: No such file or directory" ++ endl);
                (sup, d1, "commands completed" ++ endl)].
Proof.
  intros Hsup Hd1 Hw1 Hd2 Hw2 H0 Hom Hpm Hwc.
  unfold init_pid in Hsup. destruct sup as [|[|sup]]; [lia | lia |].
  destruct (fd_pipe_room (open_max C) T 0) as (r0 & w0 & Hp0 & Hr0 & Hw0 & Hrw0); [lia|].
  pose proof (fresh_not_open T r0 0 Hr0 H0). pose proof (fresh_not_open T w0 0 Hw0 H0).
  pose proof (fresh_not_open T r0 2 Hr0 ltac:(by eexists)).
  pose proof (fresh_not_open T w0 2 Hw0 ltac:(by eexists)).
  assert (sup ≠ S sup /\ S sup ≠ S (S sup) /\ sup ≠ S (S sup)) as (? & ? & ?) by lia.
  unfold wc_missing_schedule.
  fork_step. pipe_step Hp0. fork_step.
  erewrite run_local_app;
    [| lookup_tac | eapply child_body_exec_fails; [lookup_tac | lookup_tac | done | done | lia | done]].
  kstate_simpl. write_step. exit_step.
  do 2 eexists. split; [reflexivity|]. split; [by simplify_map_eq|].
  erewrite run_cons;
  [| erewrite step_wait; [| lookup_tac; eqb_simpl; reflexivity | reflexivity];
     erewrite do_wait_reap;
     [reflexivity
     | eapply children_nonempty; [lookup_tac | reflexivity]
     | eapply exited_children_one; [lookup_tac | reflexivity | reflexivity |]]].
  2:{ intros c' q' Hne Hq Hpp st'.
      cbn [k_procs] in Hq. rewrite lookup_insert_ne, lookup_fmap in Hq by done.
      destruct (decide (c' = S (S sup))) as [->|?];
        [|destruct (decide (c' = S (S (S (S sup))))) as [->|?]];
        simplify_map_eq; eqb_simpl; simplify_eq/=; lia. }
  kstate_simpl. write_step. exit_step.
  split; [reflexivity|].
  split_and!; [by simplify_map_eq | by simplify_map_eq | | reflexivity].
  do 2 eexists. split_and!; [simplify_map_eq; eqb_simpl; reflexivity | reflexivity | reflexivity].
Qed.

(** Witnesses: the theorems applied to the standard descriptors of a
    terminal. *)
Lemma usage_error_run_witness :
  run demo_config [100; 100; 100] (init_state 100 std_fds (main_prog ["processes"])) =
    Some (mkKState {[100 := mkProc init_pid ∅ ENOERR (Zombie 255)]} 101 0
                   [(100, DTerm 2, "Usage: processes command"); (100, DTerm 2, endl)]).
Proof.
  exact (usage_error_run demo_config 100 std_fds ["processes"] (DTerm 2)
           ltac:(simpl; lia) ltac:(reflexivity) ltac:(reflexivity)).
Defined.

Lemma usage_error_no_pipeline_witness :
  dom (k_procs (init_state 100 std_fds (main_prog ["processes"; "a"; "b"]))) = {[100]} /\
  k_next_pid (init_state 100 std_fds (main_prog ["processes"; "a"; "b"])) = 101 /\
  k_next_pipe (init_state 100 std_fds (main_prog ["processes"; "a"; "b"])) = 0.
Proof.
  exact (usage_error_no_pipeline demo_config 100 std_fds ["processes"; "a"; "b"] (DTerm 2) _
           ltac:(simpl; lia) ltac:(reflexivity) ltac:(reflexivity) (star_refl _)).
Defined.

Lemma fork_failure_exit_zero_witness :
  run full_table_config [100; 100; 100; 100]
      (init_state 100 std_fds (main_prog ["processes"; "bash"])) =
    Some (mkKState {[100 := mkProc init_pid ∅ EAGAIN (Zombie 0)]} 101 0
                   [(100, DTerm 2, "fork error: Resource temporarily unavailable" ++ endl)]).
Proof.
  exact (fork_failure_exit_zero full_table_config 100 std_fds "processes" "bash" (DTerm 2)
           ltac:(simpl; lia) ltac:(reflexivity) ltac:(reflexivity)).
Defined.

Lemma wc_missing_still_completes_witness :
  exists s1 s2,
    run no_wc_config (wc_missing_schedule 100)
        (init_state 100 std_fds (main_prog ["processes"; "bash"])) = Some s1 /\
    k_procs s1 !! 101 = Some (mkProc 100 ∅ ENOENT (Zombie 255)) /\
    run no_wc_config [100; 100; 100] s1 = Some s2 /\
    k_procs s2 !! 100 = Some (mkProc init_pid ∅ ENOERR (Zombie 0)) /\
    k_procs s2 !! 101 = None /\
    (exists q k, k_procs s2 !! 102 = Some q /\ p_ppid q = init_pid /\ p_state q = Running k) /\
    k_out s2 = [(101, DTerm 2, "execlp wc failed: No such file or directory" ++ endl);
                (100, DTerm 1, "commands completed" ++ endl)].
Proof.
  exact (wc_missing_still_completes no_wc_config 100 std_fds "processes" "bash"
           (DTerm 1) (DTerm 2)
           ltac:(vm_compute; lia) ltac:(reflexivity) ltac:(reflexivity)
           ltac:(reflexivity) ltac:(reflexivity) ltac:(eexists; reflexivity)
           ltac:(vm_compute; lia) ltac:(vm_compute; lia)
           ltac:(apply (bool_decide_unpack _); vm_compute; exact I)).
Defined.

End Errors.
