(* ===== verification/Limits.v ===== *)
(** * The limits of the kernel: where each call of the builder fails

    The program needs two free descriptors in the child (the first pipe)
    and two more in the grandchild (the second pipe), and room for four
    processes.  Started from a shell with the descriptors [0 .. n-1] open
    ([FdTable.contiguous]), the first [pipe] (line 62) succeeds exactly
    when the limit [open_max] exceeds [n + 1], and the second (line 72)
    when it exceeds [n + 3]; the child's [fork] (line 67) needs room for a
    third process and the grandchild's (line 77) for a fourth.  At each
    threshold the stage that hits the limit prints its diagnostic with the
    reason ([perror]) and exits with status 255, and nothing after it is
    built. *)

From stdpp Require Import base gmap sets list strings.
From Stdlib Require Import ZArith Lia.
From S2P Require Import Prelude FdTable Syscall Processes Kernel Pipeline Errors.

Module Limits.
Import FdTable Syscall Processes Kernel Pipeline Errors.

Local Open Scope string_scope.

(** A failed call followed by [perror] and [exit(-1)]. *)
Ltac perror_exit := errno_step; write_step; exit_step.

Section limits.
  Context (C : config) (sup : nat) (T : fdtab) (n : nat) (a0 term : string) (d2 : desc).
  Hypothesis (Hcontig : contiguous n T) (Hd2 : T !! 2 = Some d2) (Hw2 : writable d2 = true).

Lemma contig_open i : i < n -> is_Some (T !! i).
  Proof. intros Hi. by apply (proj2 (Hcontig i)). Qed.

Lemma contig_closed : T !! n = None /\ T !! S n = None.
  Proof.
    split.
    - destruct (T !! n) eqn:E; [|done]. assert (n < n) by (apply (proj1 (Hcontig n)); by eexists). lia.
    - destruct (T !! S n) eqn:E; [|done].
      assert (S n < n) by (apply (proj1 (Hcontig (S n))); by eexists). lia.
  Qed.

  (** C13. With [open_max <= n + 1] the child's [pipe] (line 62) fails with
      [EMFILE]: the child writes ["pipe error: Too many open files"] to
      descriptor 2 and exits with status 255; no pipe and no grandchild
      are created. *)
Theorem child_pipe_emfile :
    2 <= proc_max C -> open_max C <= S n ->
    exists s,
      run C [sup; S sup; S sup; S sup; S sup] (init_state sup T (main_prog [a0; term])) = Some s /\
      k_procs s !! S sup = Some (mkProc sup ∅ EMFILE (Zombie 255)) /\
      k_next_pipe s = 0 /\ k_next_pid s = S (S sup) /\
      k_out s = [(S sup, d2, "pipe error: Too many open files" ++ endl)].
  Proof.
    intros Hpm Hom.
    pose proof (fd_pipe_contig_full (open_max C) n T 0 Hcontig Hom) as Hp0.
    assert (sup ≠ S sup) by lia.
    fork_step. pipe_fail_step Hp0. perror_exit.
    eexists. split; [reflexivity|]. split_and!; [by simplify_map_eq | done | done | done].
  Qed.

  (** C14. With [n + 2 <= open_max <= n + 3] the child's pipe gets
      descriptors [n] and [n + 1], and the grandchild's [pipe] (line 72)
      fails with [EMFILE]: the grandchild writes ["pipe error: Too many
      open files"] and exits with status 255; the second pipe and the
      great-grandchild are never created. *)
Theorem grandchild_pipe_emfile :
    3 <= proc_max C -> S n < open_max C -> open_max C <= S (S (S n)) ->
    exists s,
      run C [sup; S sup; S sup; S (S sup); S (S sup); S (S sup); S (S sup)]
          (init_state sup T (main_prog [a0; term])) = Some s /\
      k_procs s !! S (S sup) = Some (mkProc (S sup) ∅ EMFILE (Zombie 255)) /\
      k_next_pipe s = 1 /\ k_next_pid s = S (S (S sup)) /\
      k_out s = [(S (S sup), d2, "pipe error: Too many open files" ++ endl)].
  Proof.
    intros Hpm Hlo Hhi. destruct contig_closed as [Hn HSn].
    pose proof (fd_pipe_contig_ok (open_max C) n T 0 Hcontig Hlo) as Hp0.
    pose proof (fd_pipe_contig_full (open_max C) (S (S n)) _ 1
                  (contiguous_insert (S n) _ (DPipeWr 0) (contiguous_insert n T (DPipeRd 0) Hcontig))
                  Hhi) as Hp1.
    assert (2 < n) by (apply (proj1 (Hcontig 2)); by eexists).
    assert (sup ≠ S sup /\ S sup ≠ S (S sup) /\ sup ≠ S (S sup)) as (? & ? & ?) by lia.
    fork_step. pipe_step Hp0. fork_step. pipe_fail_step Hp1. perror_exit.
    eexists. split; [reflexivity|]. split_and!; [by simplify_map_eq | done | done | done].
  Qed.

  (** C15. With room for two processes only, the child's [fork] (line 67)
      fails with [EAGAIN]: the child writes ["fork error: Resource
      temporarily unavailable"] and exits with status 255, holding both
      ends of its pipe until then; no grandchild is created. *)
Theorem child_fork_eagain :
    proc_max C = 2 -> S n < open_max C ->
    exists s,
      run C [sup; S sup; S sup; S sup; S sup; S sup] (init_state sup T (main_prog [a0; term]))
        = Some s /\
      k_procs s !! S sup = Some (mkProc sup ∅ EAGAIN (Zombie 255)) /\
      k_next_pipe s = 1 /\ k_next_pid s = S (S sup) /\
      k_out s = [(S sup, d2, "fork error: Resource temporarily unavailable" ++ endl)].
  Proof.
    intros Hpm Hlo. destruct contig_closed as [Hn HSn].
    pose proof (fd_pipe_contig_ok (open_max C) n T 0 Hcontig Hlo) as Hp0.
    assert (2 < n) by (apply (proj1 (Hcontig 2)); by eexists).
    assert (sup ≠ S sup) by lia.
    fork_step. pipe_step Hp0.
    erewrite run_cons;
      [| erewrite step_fork;
         [rewrite do_fork_full; [reflexivity | size_tac] | lookup_tac | reflexivity]];
      kstate_simpl.
    perror_exit.
    eexists. split; [reflexivity|]. split_and!; [by simplify_map_eq | done | done | done].
  Qed.

  (** C16. With room for three processes only, the grandchild's [fork]
      (line 77) fails with [EAGAIN]: the grandchild writes ["fork error:
      Resource temporarily unavailable"] and exits with status 255, after
      both pipes were created; no great-grandchild, hence no [ps], is
      created. *)
Theorem grandchild_fork_eagain :
    proc_max C = 3 -> S (S (S n)) < open_max C ->
    exists s,
      run C [sup; S sup; S sup; S (S sup); S (S sup); S (S sup); S (S sup); S (S sup)]
          (init_state sup T (main_prog [a0; term])) = Some s /\
      k_procs s !! S (S sup) = Some (mkProc (S sup) ∅ EAGAIN (Zombie 255)) /\
      k_next_pipe s = 2 /\ k_next_pid s = S (S (S sup)) /\
      k_out s = [(S (S sup), d2, "fork error: Resource temporarily unavailable" ++ endl)].
  Proof.
    intros Hpm Hlo. destruct contig_closed as [Hn HSn].
    pose proof (fd_pipe_contig_ok (open_max C) n T 0 Hcontig ltac:(lia)) as Hp0.
    pose proof (fd_pipe_contig_ok (open_max C) (S (S n)) _ 1
                  (contiguous_insert (S n) _ (DPipeWr 0) (contiguous_insert n T (DPipeRd 0) Hcontig))
                  Hlo) as Hp1.
    assert (2 < n) by (apply (proj1 (Hcontig 2)); by eexists).
    assert (sup ≠ S sup /\ S sup ≠ S (S sup) /\ sup ≠ S (S sup)) as (? & ? & ?) by lia.
    fork_step. pipe_step Hp0. fork_step. pipe_step Hp1.
    erewrite run_cons;
      [| erewrite step_fork;
         [rewrite do_fork_full; [reflexivity | size_tac] | lookup_tac | reflexivity]];
      kstate_simpl.
    assert (S (S n) ≠ 2 /\ S (S (S n)) ≠ 2 /\ n ≠ 2 /\ S n ≠ 2) as (? & ? & ? & ?) by lia.
    perror_exit.
    eexists. split; [reflexivity|]. split_and!; [by simplify_map_eq | done | done | done].
  Qed.
End limits.

(** The witnesses: a shell with descriptors 0, 1 and 2, and limits at
    the thresholds. *)
Lemma std_fds_contiguous : contiguous 3 std_fds.
Proof.
  intros j. unfold std_fds. destruct (decide (j < 3)) as [Hj|Hj].
  - split; [done|]. intros _. destruct j as [|[|[|j]]]; [by eexists.. | lia].
  - rewrite !lookup_insert_ne, lookup_singleton_ne by lia. split; [intros [? ?]; done | lia].
Qed.

Definition config_fds (open_max proc_max : nat) : config :=
  mkConfig open_max proc_max ["ps"; "grep"; "wc"].

Lemma child_pipe_emfile_witness :
  exists s,
    run (config_fds 4 4096) [100; 101; 101; 101; 101]
        (init_state 100 std_fds (main_prog ["processes"; "bash"])) = Some s /\
    k_procs s !! 101 = Some (mkProc 100 ∅ EMFILE (Zombie 255)) /\
    k_next_pipe s = 0 /\ k_next_pid s = 102 /\
    k_out s = [(101, DTerm 2, "pipe error: Too many open files" ++ endl)].
Proof.
  exact (child_pipe_emfile (config_fds 4 4096) 100 std_fds 3 "processes" "bash" (DTerm 2)
           std_fds_contiguous ltac:(reflexivity) ltac:(reflexivity)
           ltac:(vm_compute; lia) ltac:(vm_compute; lia)).
Defined.

Lemma grandchild_pipe_emfile_witness :
  exists s,
    run (config_fds 6 4096) [100; 101; 101; 102; 102; 102; 102]
        (init_state 100 std_fds (main_prog ["processes"; "bash"])) = Some s /\
    k_procs s !! 102 = Some (mkProc 101 ∅ EMFILE (Zombie 255)) /\
    k_next_pipe s = 1 /\ k_next_pid s = 103 /\
    k_out s = [(102, DTerm 2, "pipe error: Too many open files" ++ endl)].
Proof.
  exact (grandchild_pipe_emfile (config_fds 6 4096) 100 std_fds 3 "processes" "bash" (DTerm 2)
           std_fds_contiguous ltac:(reflexivity) ltac:(reflexivity)
           ltac:(vm_compute; lia) ltac:(vm_compute; lia) ltac:(vm_compute; lia)).
Defined.

Lemma child_fork_eagain_witness :
  exists s,
    run (config_fds 1024 2) [100; 101; 101; 101; 101; 101]
        (init_state 100 std_fds (main_prog ["processes"; "bash"])) = Some s /\
    k_procs s !! 101 = Some (mkProc 100 ∅ EAGAIN (Zombie 255)) /\
    k_next_pipe s = 1 /\ k_next_pid s = 102 /\
    k_out s = [(101, DTerm 2, "fork error: Resource temporarily unavailable" ++ endl)].
Proof.
  exact (child_fork_eagain (config_fds 1024 2) 100 std_fds 3 "processes" "bash" (DTerm 2)
           std_fds_contiguous ltac:(reflexivity) ltac:(reflexivity)
           ltac:(reflexivity) ltac:(vm_compute; lia)).
Defined.

Lemma grandchild_fork_eagain_witness :
  exists s,
    run (config_fds 1024 3) [100; 101; 101; 102; 102; 102; 102; 102]
        (init_state 100 std_fds (main_prog ["processes"; "bash"])) = Some s /\
    k_procs s !! 102 = Some (mkProc 101 ∅ EAGAIN (Zombie 255)) /\
    k_next_pipe s = 2 /\ k_next_pid s = 103 /\
    k_out s = [(102, DTerm 2, "fork error: Resource temporarily unavailable" ++ endl)].
Proof.
  exact (grandchild_fork_eagain (config_fds 1024 3) 100 std_fds 3 "processes" "bash" (DTerm 2)
           std_fds_contiguous ltac:(reflexivity) ltac:(reflexivity)
           ltac:(reflexivity) ltac:(vm_compute; lia)).
Defined.

End Limits.
