(* ===== verification/StdinClosed.v ===== *)
(** * The pipeline started with standard input closed

    When the invoker starts the program with descriptor 0 closed, the
    first [pipe] (line 62) returns descriptor 0 as its read end.  The
    child's [dup2(fds[0][0], STDIN_FILENO)] (line 106) is then
    [dup2(0, 0)], which does nothing, and the [close(fds[0][0])] after it
    (line 107) closes the only copy: [wc] runs with no standard input.
    The grandchild's [close(fds[0][0])] (line 96) likewise closes the
    descriptor 0 its [dup2] has just set: [grep] runs with no standard
    input either.  This file runs the pipeline from such a start. *)

From stdpp Require Import base gmap sets list strings.
From Stdlib Require Import ZArith Lia.
From S2P Require Import Prelude FdTable Syscall Processes Kernel Stages Pipeline.

Module StdinClosed.
Import FdTable Syscall Processes Kernel Stages Pipeline.

Local Open Scope string_scope.

(** The state [pipeline_schedule] reaches from a start with descriptor 0
    closed. *)
Lemma stdin_closed_run C sup T a0 term :
  T !! 0 = None -> is_Some (T !! 1) ->
  size T + 4 <= open_max C -> 4 <= proc_max C ->
  "ps" ∈ path C -> "grep" ∈ path C -> "wc" ∈ path C ->
  exists s k,
    run C (pipeline_schedule sup) (init_state sup T (main_prog [a0; term])) = Some s /\
    k_procs s !! sup = Some (mkProc init_pid T ENOERR (Running (Wait k))) /\
    k_procs s !! S sup = Some (mkProc sup T ENOERR (Image "wc" ["wc"; "-l"])) /\
    k_procs s !! S (S sup) =
      Some (mkProc (S sup) (<[1 := DPipeWr 0]> T) ENOERR (Image "grep" ["grep"; term])) /\
    k_procs s !! S (S (S sup)) =
      Some (mkProc (S (S sup)) (<[1 := DPipeWr 1]> T) ENOERR (Image "ps" ["ps"; "aux"])) /\
    dom (k_procs s) = {[sup; S sup; S (S sup); S (S (S sup))]}.
Proof.
  intros H0 H1 Hom Hpm Hps Hgrep Hwc.
  destruct (fd_pipe_room (open_max C) T 0) as (r0 & w0 & Hp0 & Hr0 & Hw0 & Hrw0); [lia|].
  pose proof (fd_pipe_read_end_0 _ _ _ _ _ _ H0 Hp0); subst r0.
  pose proof (fresh_not_open T w0 1 Hw0 H1).
  assert (sup ≠ S sup /\ S sup ≠ S (S sup) /\ sup ≠ S (S sup)) as (? & ? & ?) by lia.
  unfold pipeline_schedule, build_schedule.
  fork_step. pipe_step Hp0. fork_step.
  erewrite run_local_app;
    [| lookup_tac | eapply child_body_run; [lookup_tac | lookup_tac | done | done | lia | done]].
  kstate_simpl.
  destruct (fd_pipe_room (open_max C) (<[w0:=DPipeWr 0]> (<[0:=DPipeRd 0]> T)) 1)
    as (r1 & w1 & Hp1 & Hr1 & Hw1 & Hrw1).
  { rewrite !map_size_insert_None; simplify_map_eq; try done; lia. }
  apply lookup_insert_None in Hr1 as [[Hr1T ?]%lookup_insert_None ?].
  apply lookup_insert_None in Hw1 as [[Hw1T ?]%lookup_insert_None ?].
  pose proof (fresh_not_open T r1 1 Hr1T H1). pose proof (fresh_not_open T w1 1 Hw1T H1).
  assert (S (S (S sup)) ≠ sup /\ S (S (S sup)) ≠ S sup /\ S (S (S sup)) ≠ S (S sup))
    as (? & ? & ?) by lia.
  pipe_step Hp1. fork_step.
  erewrite run_local_app;
    [| lookup_tac | eapply grandchild_body_run;
                    [lookup_tac | lookup_tac | lookup_tac | lookup_tac | nodup_tac | nodup_tac
                    | lia | done]].
  kstate_simpl.
  erewrite run_local_run;
    [| lookup_tac | eapply great_grandchild_run;
                    [lookup_tac | lookup_tac | lookup_tac | lookup_tac | nodup_tac | lia | done]].
  kstate_simpl.
  eexists _, _. split; [reflexivity|]. simplify_map_eq.
  split_and!; [reflexivity | (do 3 f_equal; map_ext) | (do 3 f_equal; map_ext)
              | (do 3 f_equal; map_ext) | rewrite !dom_insert_L, dom_singleton_L; set_eq_tac].
Qed.

(** C7. When the program starts with descriptor 0 closed (and no limit or
    missing command makes a call fail), [wc -l] is exec'd with the
    invoker's table, so with no standard input, [grep <term>] with no
    standard input and its standard output on pipe 0, and [ps aux] with
    its standard output on pipe 1; and no process holds the read end of
    either pipe: the output of [ps] and [grep] cannot reach [wc]. *)
Theorem stdin_closed_no_reader C sup T a0 term :
  T !! 0 = None -> is_Some (T !! 1) -> pipes_below 0 T ->
  size T + 4 <= open_max C -> 4 <= proc_max C ->
  "ps" ∈ path C -> "grep" ∈ path C -> "wc" ∈ path C ->
  exists s,
    run C (pipeline_schedule sup) (init_state sup T (main_prog [a0; term])) = Some s /\
    exec_with s (S sup) "wc" ["wc"; "-l"] T /\
    exec_with s (S (S sup)) "grep" ["grep"; term] (<[1 := DPipeWr 0]> T) /\
    exec_with s (S (S (S sup))) "ps" ["ps"; "aux"] (<[1 := DPipeWr 1]> T) /\
    forall pid fd p, ~ holds s pid fd (DPipeRd p).
Proof.
  intros H0 H1 Hnopipe Hom Hpm Hps Hgrep Hwc.
  destruct (stdin_closed_run C sup T a0 term) as (s & k & Hrun & Hsup & Hc & Hg & Hgg & Hdom);
    try done.
  exists s. split_and!; [done | by eexists | by eexists | by eexists |].
  clear Hrun. intros pid fd p (q & Hq & Hfd).
  assert (pid ∈ dom (k_procs s)) as Hin by (apply elem_of_dom; eauto).
  rewrite Hdom in Hin. set_unfold.
  destruct_or! Hin; subst pid; rewrite ?Hsup, ?Hc, ?Hg, ?Hgg in Hq;
    injection Hq as <-; cbn [p_fds] in Hfd;
    rewrite ?lookup_insert in Hfd; try case_decide; simplify_eq;
    by pose proof (pipes_below_0 T fd _ Hnopipe Hfd).
Qed.

(** The witness: a terminal on descriptors 1 and 2 only. *)
Definition no_stdin_fds : fdtab := {[1 := DTerm 1; 2 := DTerm 2]}.

Lemma stdin_closed_no_reader_witness :
  exists s,
    run demo_config (pipeline_schedule 100)
        (init_state 100 no_stdin_fds (main_prog ["processes"; "bash"])) = Some s /\
    exec_with s 101 "wc" ["wc"; "-l"] no_stdin_fds /\
    exec_with s 102 "grep" ["grep"; "bash"] (<[1 := DPipeWr 0]> no_stdin_fds) /\
    exec_with s 103 "ps" ["ps"; "aux"] (<[1 := DPipeWr 1]> no_stdin_fds) /\
    forall pid fd p, ~ holds s pid fd (DPipeRd p).
Proof.
  exact (stdin_closed_no_reader demo_config 100 no_stdin_fds "processes" "bash"
           ltac:(reflexivity) ltac:(eexists; reflexivity)
           ltac:(apply map_Forall_to_list; vm_compute; repeat constructor; intros ? ?; discriminate)
           ltac:(vm_compute; lia) ltac:(vm_compute; lia)
           ltac:(repeat constructor) ltac:(repeat constructor) ltac:(repeat constructor)).
Defined.

End StdinClosed.
