(* ===== verification/Footprint.v ===== *)
(** * What one step of the kernel can change

    Every step of [Kernel.kstep] is taken by one process [pid] and
    changes the state in one of four ways ([footprint]): it replaces the
    record of [pid] (and may append writes of [pid] to the log or create
    a pipe), it forks a child numbered [k_next_pid], it reaps an exited
    child of [pid], or [pid] exits.  The lemmas of this file derive from
    this what a step of one process leaves untouched in the others: their
    records, their parents, the pids in use, the writes of other
    processes.  They are the frame rules of the invariants over all
    interleavings ([Supervisor]). *)

From stdpp Require Import base gmap sets list strings.
From Stdlib Require Import ZArith Lia.
From S2P Require Import Prelude FdTable Syscall Kernel.

Module Footprint.
Import FdTable Syscall Kernel.

Inductive footprint (s : kstate) (pid : nat) (p : proc) : kstate -> Prop :=
| fp_self q np w :
    p_ppid q = p_ppid p -> Forall (fun e : nat * desc * string => e.1.1 = pid) w ->
    footprint s pid p (mkKState (<[pid := q]> (k_procs s)) (k_next_pid s) np (k_out s ++ w))
| fp_fork q c :
    p_ppid q = p_ppid p -> p_ppid c = pid ->
    footprint s pid p (mkKState (<[k_next_pid s := c]> (<[pid := q]> (k_procs s)))
                                (S (k_next_pid s)) (k_next_pipe s) (k_out s))
| fp_reap q c qc st :
    p_ppid q = p_ppid p -> k_procs s !! c = Some qc -> p_ppid qc = pid ->
    p_state qc = Zombie st ->
    footprint s pid p (mkKState (<[pid := q]> (delete c (k_procs s)))
                                (k_next_pid s) (k_next_pipe s) (k_out s))
| fp_exit st :
    footprint s pid p (proc_exit s pid p st).

Lemma fp_upd s pid p q :
  p_ppid q = p_ppid p -> footprint s pid p (upd_proc s pid q).
Proof.
  intros Hq. unfold upd_proc. rewrite <- (app_nil_r (k_out s)).
  by apply fp_self.
Qed.

Lemma local_call_ppid C p p' : local_call C p = Some p' -> p_ppid p' = p_ppid p.
Proof.
  unfold local_call. intros H.
  destruct (p_state p) as [[]| |]; try discriminate; injection H as <-;
    repeat case_match; reflexivity.
Qed.

(** The child [wait] reaps is an exited child of the caller. *)
Lemma do_wait_cases s pid p k s' :
  do_wait s pid p k = Some s' ->
  (children (k_procs s) pid = ∅ /\ s' = upd_proc s pid (set_err p ECHILD (Running (k (-1)%Z)))) \/
  exists c qc st, k_procs s !! c = Some qc /\ p_ppid qc = pid /\ p_state qc = Zombie st /\
    s' = mkKState (<[pid := set_state p (Running (k (Z.of_nat c)))]> (delete c (k_procs s)))
                  (k_next_pid s) (k_next_pipe s) (k_out s).
Proof.
  unfold do_wait. intros H.
  destruct (map_to_list (children (k_procs s) pid)) as [|c0 l0] eqn:E0.
  { left. apply map_to_list_empty_iff in E0. by injection H as <-. }
  destruct (map_to_list (exited (children (k_procs s) pid))) as [|[c st] l] eqn:E;
    [discriminate|]. injection H as <-. right.
  assert ((c, st) ∈ map_to_list (exited (children (k_procs s) pid))) as Hin
    by (rewrite E; left).
  apply elem_of_map_to_list in Hin. unfold exited in Hin.
  rewrite lookup_omap, children_lookup in Hin.
  destruct (k_procs s !! c) as [qc|] eqn:Hc; [|discriminate].
  case_decide; [|discriminate]. cbn in Hin.
  destruct (p_state qc) eqn:Hst; try discriminate. injection Hin as ->.
  by exists c, qc, st.
Qed.

Lemma do_write_cases s pid p fd buf k :
  footprint s pid p (do_write s pid p fd buf k).
Proof.
  unfold do_write.
  destruct (fd_index fd); [|by apply fp_upd].
  destruct (p_fds p !! n) as [d|]; [|by apply fp_upd].
  destruct (writable d); [|by apply fp_upd].
  apply fp_self; [done | by repeat constructor].
Qed.

(** The two outcomes of a [write]: the buffer is logged with the
    description written to, or the call fails with [EBADF]. *)
Lemma do_write_outcomes s pid p fd buf k :
  do_write s pid p fd buf k = upd_proc s pid (set_err p EBADF (Running (k (-1)%Z))) \/
  exists d, do_write s pid p fd buf k =
    mkKState (<[pid := set_state p (Running (k (Z.of_nat (String.length buf))))]> (k_procs s))
             (k_next_pid s) (k_next_pipe s) (k_out s ++ [(pid, d, buf)]).
Proof.
  unfold do_write. destruct (fd_index fd); [|by left].
  destruct (p_fds p !! n) as [d|]; [|by left].
  destruct (writable d); [right; by exists d | by left].
Qed.

(** Every call is made by a process of the table and has one of the four
    footprints. *)
Lemma step_proc_footprint C s0 pid s1 :
  step_proc C s0 pid = Some s1 -> exists p, k_procs s0 !! pid = Some p /\ footprint s0 pid p s1.
Proof.
  intros Hs. unfold step_proc in Hs. destruct (k_procs s0 !! pid) as [p|] eqn:Hp; [|discriminate].
  exists p. split; [done|].
  destruct (p_state p) as [[st|k|k|fd k|o n k|file argv k|k|fd buf k|k]| |] eqn:Hst;
    try (destruct (local_call C p) eqn:Hl; [|discriminate];
         injection Hs as <-; apply fp_upd; by eapply local_call_ppid).
  - injection Hs as <-. apply fp_exit.
  - injection Hs as <-. unfold do_fork. case_match; [by apply fp_upd|].
    by apply fp_fork.
  - injection Hs as <-. unfold do_pipe.
    destruct (fd_pipe (open_max C) (p_fds p) (k_next_pipe s0)) as [[[r w] t]|];
      [|by apply fp_upd].
    rewrite <- (app_nil_r (k_out s0)). by apply fp_self.
  - apply do_wait_cases in Hs as [[_ ->] | (c & qc & st & Hc & Hpp & Hz & ->)];
      [by apply fp_upd | by eapply fp_reap].
  - injection Hs as <-. apply do_write_cases.
Qed.

Lemma kstep_footprint C s s' :
  kstep C s s' -> exists pid p, k_procs s !! pid = Some p /\ footprint s pid p s'.
Proof.
  intros [s0 pid s1 Hs | s0 pid p file argv st Hp Hst].
  - apply step_proc_footprint in Hs as (p & Hp & Hfp). eauto.
  - exists pid, p. split; [done | apply fp_exit].
Qed.

(** A run under a schedule is a sequence of kernel steps. *)
Lemma run_star C sched s s' : run C sched s = Some s' -> star (kstep C) s s'.
Proof.
  revert s. induction sched as [|pid sched IH]; intros s Hrun; cbn in Hrun.
  - injection Hrun as <-. constructor.
  - destruct (step_proc C s pid) as [s1|] eqn:Hs; [|discriminate].
    eapply star_trans; [apply star_one; by eapply kstep_proc | by apply IH].
Qed.

Section footprint_lemmas.
  Context (s : kstate) (pid : nat) (p : proc) (s' : kstate).
  Hypothesis (Hp : k_procs s !! pid = Some p) (Hfp : footprint s pid p s').
  (* Every lemma takes both hypotheses, so that they are applied alike. *)
  Local Set Default Proof Using "Hp Hfp".

  (** The pids in use after the step were in use before, or are the new
      child's. *)
Lemma fp_dom i : i ∈ dom (k_procs s') -> i ∈ dom (k_procs s) \/ i = k_next_pid s.
  Proof.
    intros Hi. assert (pid ∈ dom (k_procs s)) by (by apply elem_of_dom_2 in Hp).
    destruct Hfp; cbn [k_procs] in Hi; try (unfold proc_exit in Hi; cbn [k_procs] in Hi);
      rewrite ?dom_insert, ?dom_delete, ?dom_fmap in Hi; set_unfold; naive_solver.
  Qed.

Lemma fp_next_pid : k_next_pid s' = k_next_pid s \/ k_next_pid s' = S (k_next_pid s).
  Proof. destruct Hfp; auto. Qed.

  (** The writes appended by the step are the stepping process's. *)
Lemma fp_out : exists w, k_out s' = k_out s ++ w /\
    Forall (fun e : nat * desc * string => e.1.1 = pid) w.
  Proof.
    destruct Hfp; cbn [k_out]; [by eexists | | | ];
      exists []; rewrite app_nil_r; split; auto.
  Qed.

  (** A process other than the stepping one, not its child, and not the
      new one, keeps its record. *)
Lemma fp_lookup_other i q :
    i <> pid -> k_procs s !! i = Some q -> p_ppid q <> pid -> i <> k_next_pid s ->
    k_procs s' !! i = Some q.
  Proof.
    intros Hne Hi Hpp Hnext.
    destruct Hfp as [q' np w _ _ | q' c _ _ | q' c qc st _ Hc Hqc _ | st]; cbn [k_procs].
    - by rewrite lookup_insert_ne.
    - by rewrite !lookup_insert_ne.
    - rewrite lookup_insert_ne, lookup_delete_ne; [done | | done].
      intros ->. congruence.
    - unfold proc_exit; cbn [k_procs]. rewrite lookup_insert_ne, lookup_fmap, Hi by done.
      cbn. by rewrite (proj2 (Nat.eqb_neq _ _) Hpp).
  Qed.

  (** The parent of a process after the step: the one it had, [init]
      (adopted), or the stepping process (the new child). *)
Lemma fp_ppid i q' :
    k_procs s' !! i = Some q' ->
    (exists q, k_procs s !! i = Some q /\ p_ppid q' = p_ppid q) \/
    p_ppid q' = init_pid \/
    (i = k_next_pid s /\ p_ppid q' = pid /\ k_next_pid s' = S (k_next_pid s)).
  Proof.
    destruct Hfp as [q np w Hq _ | q c Hq Hc | q c qc st Hq _ _ _ | st]; cbn [k_procs];
      intros Hi.
    - rewrite lookup_insert in Hi. case_decide; simplify_eq; [by left; eauto|].
      left. eauto.
    - rewrite !lookup_insert in Hi. repeat case_decide; simplify_eq; [by right; right| |];
        left; eauto.
    - rewrite lookup_insert in Hi. case_decide; simplify_eq; [by left; eauto|].
      rewrite lookup_delete_Some in Hi. destruct Hi as [_ Hi]. left. eauto.
    - unfold proc_exit in Hi; cbn [k_procs] in Hi. rewrite lookup_insert in Hi.
      case_decide; simplify_eq; [left; by eauto|].
      rewrite lookup_fmap in Hi. destruct (k_procs s !! i) as [q|] eqn:Hq; [|discriminate].
      injection Hi as <-. case_match; [by right; left | left; eauto].
  Qed.

  (** The stepping process keeps its parent (its pid is not the one a
      fork hands out). *)
Lemma fp_self_ppid :
    pid <> k_next_pid s -> exists q', k_procs s' !! pid = Some q' /\ p_ppid q' = p_ppid p.
  Proof.
    intros Hnext.
    destruct Hfp as [q np w Hq _ | q c Hq Hc | q c qc st Hq _ _ _ | st]; cbn [k_procs].
    - rewrite lookup_insert_eq. eauto.
    - rewrite lookup_insert_ne, lookup_insert_eq by done. eauto.
    - rewrite lookup_insert_eq. eauto.
    - rewrite proc_exit_lookup_self. eauto.
  Qed.
  (** Pids are handed out in increasing order: if every pid in use lies in
      [[lo, k_next_pid)], it still does after the step. *)
Lemma fp_pids_range lo :
    (forall i, i ∈ dom (k_procs s) -> lo <= i < k_next_pid s) ->
    forall i, i ∈ dom (k_procs s') -> lo <= i < k_next_pid s'.
  Proof.
    intros Hr. assert (lo <= pid < k_next_pid s) by (apply Hr; by eapply elem_of_dom_2).
    destruct Hfp; cbn [k_procs k_next_pid]; try (unfold proc_exit; cbn [k_procs k_next_pid]);
      intros i; rewrite ?dom_insert, ?dom_delete, ?dom_fmap; set_unfold;
      intros Hi; destruct_or? Hi;
      first [ rewrite Hi; lia | apply Hr in Hi; lia | destruct Hi as [Hi _]; apply Hr in Hi; lia ].
  Qed.
  (** A process other than the stepping one and the new child was there
      before, in the same state (only its parent may have changed). *)
Lemma fp_state_other i q' :
    i <> pid -> i <> k_next_pid s -> k_procs s' !! i = Some q' ->
    exists q, k_procs s !! i = Some q /\ p_state q' = p_state q.
  Proof.
    intros Hne Hnext.
    destruct Hfp as [q np w _ _ | q c _ _ | q c qc st _ _ _ _ | st]; cbn [k_procs].
    - rewrite lookup_insert_ne by done. eauto.
    - rewrite !lookup_insert_ne by done. eauto.
    - rewrite lookup_insert_ne, lookup_delete_Some by done. intros [_ Hi]. eauto.
    - unfold proc_exit; cbn [k_procs]. rewrite lookup_insert_ne, lookup_fmap by done.
      destruct (k_procs s !! i) as [q|]; [|done]. intros [= <-]. exists q.
      split; [done|]. by case_match.
  Qed.
End footprint_lemmas.

End Footprint.
