(* ===== verification/Supervisor.v ===== *)
(** * The supervisor under every interleaving

    The supervisor (lines 48-56 and 112-118) forks once and then blocks in
    [wait(NULL)] until its child has exited; only then does it print
    ["commands completed"].  The theorems of this file hold in every state
    the kernel can reach from the start, whatever the order in which the
    processes run and whatever the external commands do: the completion
    line is written only after the child [S sup] has been created, has
    exited and has been reaped, and it is written at most once.

    The proof is a rule induction ([Prelude.star_invariant]) on an
    invariant [sup_inv] that follows the supervisor through the points of
    its code (before the fork and on the fork-failure path; blocked in
    [wait]; after [wait]) and says what holds of its child at each; the
    steps of the other processes are handled by the frame lemmas of
    [Footprint]. *)

From stdpp Require Import base gmap sets list strings.
From Stdlib Require Import ZArith Lia.
From S2P Require Import Prelude FdTable Syscall Processes Kernel Footprint Pipeline Errors.

Module Supervisor.
Import FdTable Syscall Processes Kernel Footprint Pipeline Errors.

Local Open Scope string_scope.

Definition completion_line : string := "commands completed" ++ endl.

(** The completion lines the supervisor has written. *)
Definition completions (sup : nat) (out : list (nat * desc * string)) :=
  filter (fun e : nat * desc * string => e.1.1 = sup /\ e.2 = completion_line) out.

(** What [main] does with the value [fork] returns (lines 58-118). *)
Definition after_fork (term : string) (pid : Z) : prog :=
  (if (pid <? 0)%Z then perror "fork error"
   else if (pid =? 0)%Z then child term else parent) (fun _ => Exit 0%Z).

(** The supervisor's states before its child exists: the [fork] itself
    and the path where it failed. *)
Definition pre_fork (term : string) (st : pstate) : Prop :=
  st = Running (Fork (after_fork term)) \/
  st = Running (after_fork term (-1)) \/
  (exists e, st = Running (Write STDERR_FILENO ("fork error" ++ ": " ++ strerror e ++ endl)
                                  (fun _ => Exit 0%Z))) \/
  st = Running (Exit 0%Z) \/ st = Zombie 0.

Definition waiting : pstate :=
  Running (Wait (fun _ => Write STDOUT_FILENO completion_line (fun _ => Exit 0%Z))).

Definition reaped : pstate :=
  Running (Write STDOUT_FILENO completion_line (fun _ => Exit 0%Z)).

(** The invariant: pids are handed out from [sup] upwards; the only
    process whose parent is the supervisor is [S sup]; and the supervisor
    is at one of three points of its code, with what holds there. *)
Definition sup_inv (sup : nat) (term : string) (s : kstate) : Prop :=
  (forall i, i ∈ dom (k_procs s) -> sup <= i < k_next_pid s) /\
  (forall i q, k_procs s !! i = Some q -> p_ppid q = sup -> i = S sup) /\
  exists q, k_procs s !! sup = Some q /\ p_ppid q = init_pid /\
  ( (k_next_pid s = S sup /\ dom (k_procs s) = {[sup]} /\
     completions sup (k_out s) = [] /\ pre_fork term (p_state q))
  \/ (p_state q = waiting /\ S sup < k_next_pid s /\
      (exists qc, k_procs s !! S sup = Some qc /\ p_ppid qc = sup) /\
      completions sup (k_out s) = [])
  \/ (S sup < k_next_pid s /\ k_procs s !! S sup = None /\
      ((p_state q = reaped /\ completions sup (k_out s) = []) \/
       ((p_state q = Running (Exit 0%Z) \/ p_state q = Zombie 0) /\
        length (completions sup (k_out s)) <= 1))) ).

Lemma completions_other sup out w pid :
  pid <> sup -> Forall (fun e : nat * desc * string => e.1.1 = pid) w ->
  completions sup (out ++ w) = completions sup out.
Proof.
  intros Hne Hw. unfold completions. rewrite filter_app.
  induction Hw as [|e w He Hw IH]; [by rewrite app_nil_r|].
  rewrite filter_cons_False; [done|]. intros [Hs _]. congruence.
Qed.

Lemma completions_write sup out d buf :
  buf <> completion_line -> completions sup (out ++ [(sup, d, buf)]) = completions sup out.
Proof.
  intros Hne. unfold completions. rewrite filter_app, filter_cons_False; [|naive_solver].
  by rewrite filter_nil, app_nil_r.
Qed.

Lemma completions_app_length sup out w :
  length (completions sup (out ++ w)) <= length (completions sup out) + length w.
Proof.
  unfold completions. rewrite filter_app, length_app.
  pose proof (length_filter (fun e : nat * desc * string => e.1.1 = sup /\ e.2 = completion_line) w).
  lia.
Qed.

(** A process that has exited makes no call. *)
Lemma zombie_no_step C s pid q st s' :
  k_procs s !! pid = Some q -> p_state q = Zombie st -> step_proc C s pid <> Some s'.
Proof. intros Hq Hst. unfold step_proc, local_call. by rewrite Hq, Hst. Qed.

Section frame.
  Context (sup : nat) (term : string) (Hsup : init_pid < sup).

  (** A step of a process other than the supervisor preserves the
      invariant. *)
Lemma sup_inv_other s pid p s' :
    sup_inv sup term s -> pid <> sup -> k_procs s !! pid = Some p ->
    footprint s pid p s' -> sup_inv sup term s'.
  Proof.
    intros (Hrange & Hkids & q & Hq & Hqpp & Hphase) Hne Hp Hfp.
    assert (sup <= pid < k_next_pid s) as Hpid by (apply Hrange; by eapply elem_of_dom_2).
    assert (sup < k_next_pid s) as Hsupnext by (apply Hrange; by eapply elem_of_dom_2).
    destruct (fp_out s pid p s' Hp Hfp) as (w & Hout & Hw).
    pose proof (fp_next_pid s pid p s' Hp Hfp) as Hnext.
    split_and!.
    - by eapply fp_pids_range.
    - intros i q' Hi Hpp.
      destruct (fp_ppid s pid p s' Hp Hfp i q' Hi) as [(q0 & Hi0 & Hpp0) | [Hinit | (_ & Hpid' & _)]].
      + apply (Hkids i q0 Hi0). congruence.
      + unfold init_pid in *. lia.
      + lia.
    - exists q. split_and!; [apply (fp_lookup_other s pid p s' Hp Hfp); try done; lia | done |].
      rewrite Hout, (completions_other sup _ w pid) by done.
      destruct Hphase as [(Hn & Hdom & Hc & Hst) | [(Hst & Hlt & (qc & Hqc & Hqcpp) & Hc) |
                                                     (Hlt & Hgone & Hrest)]].
      + exfalso. assert (pid ∈ dom (k_procs s)) as Hin by (by eapply elem_of_dom_2).
        rewrite Hdom in Hin. set_solver.
      + right; left. split_and!; [done | lia | | done].
        destruct (decide (pid = S sup)) as [->|?].
        * destruct (fp_self_ppid s (S sup) p s' Hp Hfp) as (q' & Hq' & Hpp'); [lia|].
          exists q'. split; congruence.
        * exists qc. split; [|done]. apply (fp_lookup_other s pid p s' Hp Hfp); try done; lia.
      + right; right. split_and!; [lia | | done].
        destruct (k_procs s' !! S sup) eqn:Hs'; [|done].
        destruct (fp_dom s pid p s' Hp Hfp (S sup)) as [Hin | Heq]; [by eapply elem_of_dom_2| |lia].
        apply elem_of_dom in Hin as [? Hin]. congruence.
  Qed.
  (** The supervisor's own steps keep [S sup] its only child: it forks
      only while [k_next_pid] is [S sup]. *)
Lemma kids_sup_step s q s' :
    (forall i, i ∈ dom (k_procs s) -> sup <= i < k_next_pid s) ->
    (forall i q, k_procs s !! i = Some q -> p_ppid q = sup -> i = S sup) ->
    k_procs s !! sup = Some q -> footprint s sup q s' ->
    (k_next_pid s' = S (k_next_pid s) -> k_next_pid s = S sup) ->
    forall i q', k_procs s' !! i = Some q' -> p_ppid q' = sup -> i = S sup.
  Proof.
    intros Hrange Hkids Hq Hfp Hfork i q' Hi Hpp.
    destruct (fp_ppid s sup q s' Hq Hfp i q' Hi) as [(q0 & Hi0 & Hpp0) | [Hinit | (-> & _ & Hn)]].
    - apply (Hkids i q0 Hi0). congruence.
    - unfold init_pid in *. lia.
    - by apply Hfork.
  Qed.

Ltac sup_kids Hrange Hkids Hq Hfp :=
  eapply (kids_sup_step _ _ _ Hrange Hkids Hq Hfp); cbn [k_next_pid upd_proc proc_exit]; lia.

Lemma sup_inv_sup C s s' :
    sup_inv sup term s -> step_proc C s sup = Some s' -> sup_inv sup term s'.
  Proof.
    intros Hinv Hs.
    destruct (step_proc_footprint C s sup s' Hs) as (p & Hp & Hfp).
    destruct Hinv as (Hrange & Hkids & q & Hq & Hqpp & Hphase).
    rewrite Hq in Hp. injection Hp as <-.
    split; [by eapply fp_pids_range|].
    destruct Hphase as [(Hn & Hdom & Hc & Hst) | [(Hst & Hlt & (qc & Hqc & Hqcpp) & Hc) |
                                                   (Hlt & Hgone & Hrest)]].
    - destruct Hst as [Hst | [Hst | [[e Hst] | [Hst | Hst]]]].
      + rewrite (step_fork C s sup q _ Hq Hst) in Hs. injection Hs as <-.
        unfold do_fork in Hfp |- *. destruct (Nat.leb (proc_max C) (size (k_procs s))).
        * split; [sup_kids Hrange Hkids Hq Hfp|].
          eexists. cbn [k_procs upd_proc]. rewrite lookup_insert_eq.
          split_and!; [reflexivity | done |]. left.
          split_and!; [done | by rewrite dom_insert_L, Hdom; set_solver | done | by right; left].
        * split; [eapply (kids_sup_step _ _ _ Hrange Hkids Hq Hfp); cbn; lia|].
          eexists. cbn [k_procs]. rewrite lookup_insert_ne, lookup_insert_eq by lia.
          split_and!; [reflexivity | done |]. right; left.
          split_and!; [by rewrite Hn; reflexivity | cbn; lia | | done].
          eexists. rewrite Hn, lookup_insert_eq. split; reflexivity.
      + rewrite (step_local C s sup q _ Hq (local_errno C q _ Hst)) in Hs. injection Hs as <-.
        split; [sup_kids Hrange Hkids Hq Hfp|].
        eexists. cbn [k_procs upd_proc]. rewrite lookup_insert_eq.
        split_and!; [reflexivity | done |]. left.
        split_and!; [done | by rewrite dom_insert_L, Hdom; set_solver | done |].
        right; right; left. by eexists.
      + rewrite (step_write C s sup q _ _ _ Hq Hst) in Hs. injection Hs as <-.
        destruct (do_write_outcomes s sup q STDERR_FILENO
                    ("fork error" ++ ": " ++ strerror e ++ endl) (fun _ => Exit 0%Z))
          as [Hw | [d Hw]]; rewrite Hw in Hfp |- *;
          (split; [sup_kids Hrange Hkids Hq Hfp|]);
          eexists; cbn [k_procs k_next_pid k_out upd_proc]; rewrite lookup_insert_eq;
          (split_and!; [reflexivity | done |]); left;
          (split_and!; [done | by rewrite dom_insert_L, Hdom; set_solver | | by do 3 right; left]);
          [done|]. rewrite completions_write; [done|]. by inversion 1.
      + rewrite (step_exit C s sup q _ Hq Hst) in Hs. injection Hs as <-.
        split; [sup_kids Hrange Hkids Hq Hfp|].
        eexists. rewrite proc_exit_lookup_self.
        split_and!; [reflexivity | exact Hqpp |]. left. unfold proc_exit; cbn [k_procs k_next_pid k_out].
        split_and!; [done | by rewrite dom_insert_L, dom_fmap_L, Hdom; set_solver | done |].
        by do 4 right.
      + exfalso. by apply (zombie_no_step C s sup q 0) in Hs.
    - unfold waiting in Hst. rewrite (step_wait C s sup q _ Hq Hst) in Hs.
      apply do_wait_cases in Hs as [[Hnone _] | (c & qc' & st & Hc' & Hpp & Hz & ->)].
      { exfalso. by apply (children_nonempty (k_procs s) sup (S sup) qc). }
      pose proof (Hkids c qc' Hc' Hpp); subst c.
      split; [sup_kids Hrange Hkids Hq Hfp|].
      eexists. cbn [k_procs k_next_pid k_out]. rewrite lookup_insert_eq.
      split_and!; [reflexivity | exact Hqpp |]. right; right.
      split_and!; [done | by rewrite lookup_insert_ne, lookup_delete_eq by lia |].
      by left.
    - destruct Hrest as [[Hst Hc] | [[Hst | Hst] Hc]].
      + unfold reaped in Hst. rewrite (step_write C s sup q _ _ _ Hq Hst) in Hs. injection Hs as <-.
        destruct (do_write_outcomes s sup q STDOUT_FILENO completion_line (fun _ => Exit 0%Z))
          as [Hw | [d Hw]]; rewrite Hw in Hfp |- *;
          (split; [sup_kids Hrange Hkids Hq Hfp|]);
          eexists; cbn [k_procs k_next_pid k_out upd_proc]; rewrite lookup_insert_eq;
          (split_and!; [reflexivity | done |]); right; right;
          (split_and!; [done | by rewrite lookup_insert_ne by lia |]); right;
          (split; [by left|]); [rewrite Hc; cbn; lia|].
        pose proof (completions_app_length sup (k_out s) [(sup, d, completion_line)]) as Hl.
        rewrite Hc in Hl. exact Hl.
      + rewrite (step_exit C s sup q _ Hq Hst) in Hs. injection Hs as <-.
        split; [sup_kids Hrange Hkids Hq Hfp|].
        eexists. rewrite proc_exit_lookup_self.
        split_and!; [reflexivity | exact Hqpp |]. right; right.
        unfold proc_exit; cbn [k_procs k_next_pid k_out].
        split_and!; [done | by rewrite lookup_insert_ne, lookup_fmap, Hgone by lia |].
        right. split; [by right | done].
      + exfalso. by apply (zombie_no_step C s sup q 0) in Hs.
  Qed.

  (** The supervisor never runs an external command. *)
Lemma sup_inv_not_image s q file argv :
    sup_inv sup term s -> k_procs s !! sup = Some q -> p_state q <> Image file argv.
  Proof.
    intros (_ & _ & q' & Hq' & _ & Hphase) Hq Hst. rewrite Hq in Hq'. injection Hq' as <-.
    rewrite Hst in Hphase. unfold pre_fork, waiting, reaped in Hphase.
    destruct Hphase as [(_ & _ & _ & Hpre) | [(Hw & _) | (_ & _ & [[Hr _] | [[Hr | Hr] _]])]];
      try discriminate.
    destruct Hpre as [H | [H | [[e H] | [H | H]]]]; discriminate.
  Qed.

Lemma sup_inv_step C s s' : sup_inv sup term s -> kstep C s s' -> sup_inv sup term s'.
  Proof.
    intros Hinv Hstep.
    inversion Hstep as [s0 pid s1 Hs | s0 pid p file argv st Hp Hst]; subst s0.
    - destruct (decide (pid = sup)) as [->|Hne]; [by eapply sup_inv_sup|].
      destruct (step_proc_footprint C s pid s' Hs) as (p & Hp & Hfp).
      by eapply sup_inv_other.
    - destruct (decide (pid = sup)) as [->|Hne].
      + exfalso. by apply (sup_inv_not_image s p file argv Hinv Hp).
      + eapply sup_inv_other; [done | done | exact Hp | apply fp_exit].
  Qed.

Lemma sup_inv_init T a0 : sup_inv sup term (init_state sup T (main_prog [a0; term])).
  Proof.
    unfold init_state. split_and!; cbn [k_procs k_next_pid k_out].
    - intros i. rewrite dom_singleton_L, elem_of_singleton. lia.
    - intros i q Hi Hpp. apply lookup_singleton_Some in Hi as [<- <-].
      cbn in Hpp. unfold init_pid in *. lia.
    - eexists. rewrite lookup_singleton_eq. split_and!; [reflexivity | reflexivity |].
      left. split_and!; [reflexivity | apply dom_singleton_L | reflexivity | by left].
  Qed.

  (** Every state reachable from the start satisfies the invariant. *)
Lemma sup_inv_reachable C T a0 s :
    star (kstep C) (init_state sup T (main_prog [a0; term])) s -> sup_inv sup term s.
  Proof.
    intros Hstar. eapply (star_invariant (kstep C) (sup_inv sup term)); [| exact Hstar |].
    - intros s1 s2 Hinv Hs. by eapply sup_inv_step.
    - apply sup_inv_init.
  Qed.
End frame.

Lemma completions_elem sup out d :
  (sup, d, completion_line) ∈ out -> completions sup out <> [].
Proof.
  intros Hin Hnil. unfold completions in Hnil.
  assert ((sup, d, completion_line) ∈ filter (fun e : nat * desc * string =>
             e.1.1 = sup /\ e.2 = completion_line) out) as Hf
    by (apply list_elem_of_filter; split; [done | exact Hin]).
  rewrite Hnil in Hf. set_solver.
Qed.

(** C4. In every state reachable from the start, under every schedule
    and whatever the external commands do: if the supervisor has written
    ["commands completed"], then its child [S sup] has been created and is
    no longer in the process table, that is, it has exited and the
    supervisor's [wait] has reaped it (only its parent can remove it). *)
Theorem completion_after_child_reaped C sup T a0 term s d :
  init_pid < sup ->
  star (kstep C) (init_state sup T (main_prog [a0; term])) s ->
  (sup, d, completion_line) ∈ k_out s ->
  S sup < k_next_pid s /\ k_procs s !! S sup = None.
Proof.
  intros Hsup Hstar Hin.
  destruct (sup_inv_reachable sup term Hsup C T a0 s Hstar)
    as (_ & _ & q & _ & _ & [(_ & _ & Hc & _) | [(_ & _ & _ & Hc) | (Hlt & Hgone & _)]]);
    [| | done]; by apply completions_elem in Hin.
Qed.

(** C12. In every reachable state the supervisor has written
    ["commands completed"] at most once. *)
Theorem completion_at_most_once C sup T a0 term s :
  init_pid < sup ->
  star (kstep C) (init_state sup T (main_prog [a0; term])) s ->
  length (completions sup (k_out s)) <= 1.
Proof.
  intros Hsup Hstar.
  destruct (sup_inv_reachable sup term Hsup C T a0 s Hstar)
    as (_ & _ & q & _ & _ & [(_ & _ & Hc & _) | [(_ & _ & _ & Hc) | (_ & _ & [[_ Hc] | [_ Hc]])]]);
    rewrite ?Hc; cbn; lia.
Qed.

(** Witnesses: the run of [Errors] where [wc] is missing, continued until
    the supervisor has exited. *)
Definition wc_missing_full : list nat := wc_missing_schedule 100 ++ [100; 100; 100].

Lemma completion_after_child_reaped_witness :
  exists s,
    run no_wc_config wc_missing_full (init_state 100 std_fds (main_prog ["processes"; "bash"]))
      = Some s /\
    (100, DTerm 1, completion_line) ∈ k_out s /\
    S 100 < k_next_pid s /\ k_procs s !! S 100 = None.
Proof.
  destruct (run no_wc_config wc_missing_full
              (init_state 100 std_fds (main_prog ["processes"; "bash"]))) as [s|] eqn:Hrun;
    [| vm_compute in Hrun; discriminate].
  assert ((100, DTerm 1, completion_line) ∈ k_out s) as Hin.
  { clear -Hrun. vm_compute in Hrun. injection Hrun as <-.
    apply (bool_decide_unpack _). vm_compute. exact I. }
  exists s. split; [reflexivity|]. split; [exact Hin|].
  apply (completion_after_child_reaped no_wc_config 100 std_fds "processes" "bash" s (DTerm 1));
    [vm_compute; lia | exact (run_star _ _ _ _ Hrun) | exact Hin].
Defined.

Lemma completion_at_most_once_witness :
  exists s,
    run no_wc_config wc_missing_full (init_state 100 std_fds (main_prog ["processes"; "bash"]))
      = Some s /\
    length (completions 100 (k_out s)) <= 1.
Proof.
  destruct (run no_wc_config wc_missing_full
              (init_state 100 std_fds (main_prog ["processes"; "bash"]))) as [s|] eqn:Hrun;
    [| vm_compute in Hrun; discriminate].
  exists s. split; [reflexivity|].
  apply (completion_at_most_once no_wc_config 100 std_fds "processes" "bash" s);
    [vm_compute; lia | exact (run_star _ _ _ _ Hrun)].
Defined.

End Supervisor.
