(* ===== verification/Commands.v ===== *)
(** * The three external commands, as the spec describes them

    After [execlp] a stage is no longer code of the repository: it is
    [ps aux], [grep <term>] or [wc -l].  The spec treats them as stream
    filters over lines; this file gives each its function from the lines
    it reads on descriptor 0 to the lines it writes on descriptor 1.
    - [ps aux] reads nothing and writes the process listing, a parameter
      [listing] of the model (the state of the machine is not modelled);
    - [grep <term>] writes, in order, the input lines that contain [term]
      (the term is read as a literal string, i.e. a basic regular
      expression without special characters);
    - [wc -l] writes one line, the decimal count of its input lines.
    A line is the data between two newlines; it is written with its
    newline in one [write] (below [PIPE_BUF], so atomically). *)

From stdpp Require Import base list strings pretty.
From Stdlib Require Import ZArith Lia.
From S2P Require Import Prelude.

Module Commands.

Local Open Scope string_scope.

Inductive cmd : Type :=
| CPs
| CGrep (pat : string)
| CWc.

#[export] Instance cmd_eq_dec : EqDecision cmd.
Proof. solve_decision. Defined.

(** The command an image runs, from the file [execlp] found and its
    [argv]: only the three invocations of [main] are known. *)
Definition cmd_of (file : string) (argv : list string) : option cmd :=
  match argv with
  | [a; b] =>
      if decide (file = "ps" /\ a = "ps" /\ b = "aux") then Some CPs
      else if decide (file = "grep" /\ a = "grep") then Some (CGrep b)
      else if decide (file = "wc" /\ a = "wc" /\ b = "-l") then Some CWc
      else None
  | _ => None
  end.

(** [is_prefix p s]: [s] starts with [p]. *)
Fixpoint is_prefix (p s : string) : bool :=
  match p, s with
  | EmptyString, _ => true
  | String c p', String d s' => Ascii.eqb c d && is_prefix p' s'
  | String _ _, EmptyString => false
  end.

(** [contains pat line]: [pat] occurs in [line], the match of [grep]. *)
Fixpoint contains (pat line : string) : bool :=
  is_prefix pat line ||
  match line with
  | EmptyString => false
  | String _ l => contains pat l
  end.

Definition grep_lines (pat : string) (ls : list string) : list string :=
  List.filter (contains pat) ls.

(** The output of [wc -l]: the count in decimal. *)
Definition wc_l (ls : list string) : list string := [pretty (N.of_nat (length ls))].

(** Whether the command reads its standard input. *)
Definition reads_stdin (c : cmd) : bool :=
  match c with CPs => false | _ => true end.

(** What the command writes after reading [input] to its end. *)
Definition cmd_output (listing : list string) (c : cmd) (input : list string) : list string :=
  match c with
  | CPs => listing
  | CGrep pat => grep_lines pat input
  | CWc => wc_l input
  end.

Lemma is_prefix_spec p s : is_prefix p s = true <-> exists suf, s = p ++ suf.
Proof.
  revert s. induction p as [|c p IH]; intros [|d s]; cbn.
  - split; [by exists EmptyString | done].
  - split; [by eexists | done].
  - split; [done | by intros [? ?]].
  - rewrite andb_true_iff, Ascii.eqb_eq, IH. split.
    + intros [-> [suf ->]]. by exists suf.
    + intros [suf Hs]. injection Hs as -> ->. eauto.
Qed.

(** [grep]'s match is substring search. *)
Lemma contains_spec pat line :
  contains pat line = true <-> exists pre suf, line = pre ++ pat ++ suf.
Proof.
  induction line as [|c l IH]; cbn [contains]; rewrite orb_true_iff, is_prefix_spec.
  - split.
    + intros [[suf H]|?]; [by exists EmptyString, suf | done].
    + intros ([|] & suf & H); [left; by exists suf | discriminate].
  - rewrite IH. split.
    + intros [[suf H]|(pre & suf & H)]; [by exists EmptyString, suf |].
      exists (String c pre), suf. by rewrite H.
    + intros ([|c' pre] & suf & H); [left; by exists suf|].
      injection H as <- ->. right. eauto.
Qed.

Lemma grep_lines_length pat ls : length (grep_lines pat ls) <= length ls.
Proof. unfold grep_lines. pose proof (filter_length (contains pat) ls). lia. Qed.

Lemma cmd_of_ps : cmd_of "ps" ["ps"; "aux"] = Some CPs.
Proof. reflexivity. Qed.
Lemma cmd_of_grep term : cmd_of "grep" ["grep"; term] = Some (CGrep term).
Proof. unfold cmd_of. rewrite decide_False by naive_solver. by rewrite decide_True. Qed.
Lemma cmd_of_wc : cmd_of "wc" ["wc"; "-l"] = Some CWc.
Proof. reflexivity. Qed.

End Commands.
