(* ===== verification/Streams.v ===== *)
(** * The pipeline as a stream machine

    The spec's contract for the running pipeline: the stages are stream
    filters connected by FIFO channels; a stage that reads sees
    end-of-file on its channel once the channel is empty and the stage
    writing it has exited; a stage writes only while the stage reading
    its channel is alive.  The supervisor waits for [wc], then writes its
    completion line and exits.

    This file is that contract as an abstract machine over the stages'
    phases, the two channel contents and the terminal output ([astep]).
    Its invariant ([ainv]) relates what each stage has read, what is
    still in the channels and what the stages still have to write. Every
    step keeps it ([ainv_step]); a state without a step is the final one
    ([ainv_progress]); and a measure decreases at every step
    ([astep_measure]), which ranks the states of the whole system.  The
    kernel-level semantics of [Dataflow] refines this machine. *)

From stdpp Require Import base list strings pretty.
From Stdlib Require Import ZArith Lia.
From S2P Require Import Prelude FdTable Syscall Supervisor Commands.

Module Streams.
Import FdTable Syscall Supervisor Commands.

(** The phases of [grep]: reading (the lines read so far), writing (the
    lines still to write), exited. *)
Inductive gphase := GRead (acc : list string) | GWrite (rest : list string) | GDone.
(** The phases of [wc]; after exiting it is a zombie until the supervisor
    reaps it. *)
Inductive wphase := WRead (acc : list string) | WWrite (rest : list string) | WZombie | WReaped.
(** The supervisor: in [wait], about to write, about to exit, exited. *)
Inductive sphase := SWait | SWrite | SExit | SDone.

(** [a_ps]: the lines [ps] still has to write, or [None] once it has
    exited; [a_b1]: channel 0 ([ps] to [grep]); [a_b0]: channel 1
    ([grep] to [wc]); [a_out]: the terminal output, as the kernel logs it. *)
Record astate := mkA {
  a_ps : option (list string);
  a_b1 : list string;
  a_g : gphase;
  a_b0 : list string;
  a_w : wphase;
  a_sup : sphase;
  a_out : list (nat * desc * string)
}.

Definition g_alive (g : gphase) : bool := match g with GDone => false | _ => true end.
Definition w_alive (w : wphase) : bool :=
  match w with WRead _ | WWrite _ => true | _ => false end.

Section machine.
  Context (L : list string) (pat : string) (wpid sup : nat) (d1 : desc).

  (** One step of one stage. *)
Inductive astep : astate -> astate -> Prop :=
  | a_ps_write l r b1 g b0 w sp out :
      g_alive g = true ->
      astep (mkA (Some (l :: r)) b1 g b0 w sp out) (mkA (Some r) (b1 ++ [l]) g b0 w sp out)
  | a_ps_exit b1 g b0 w sp out :
      astep (mkA (Some []) b1 g b0 w sp out) (mkA None b1 g b0 w sp out)
  | a_g_read ps l b1 acc b0 w sp out :
      astep (mkA ps (l :: b1) (GRead acc) b0 w sp out) (mkA ps b1 (GRead (acc ++ [l])) b0 w sp out)
  | a_g_eof acc b0 w sp out :
      astep (mkA None [] (GRead acc) b0 w sp out)
            (mkA None [] (GWrite (grep_lines pat acc)) b0 w sp out)
  | a_g_write ps b1 l r b0 w sp out :
      w_alive w = true ->
      astep (mkA ps b1 (GWrite (l :: r)) b0 w sp out) (mkA ps b1 (GWrite r) (b0 ++ [l]) w sp out)
  | a_g_exit ps b1 b0 w sp out :
      astep (mkA ps b1 (GWrite []) b0 w sp out) (mkA ps b1 GDone b0 w sp out)
  | a_w_read ps b1 g l b0 acc sp out :
      astep (mkA ps b1 g (l :: b0) (WRead acc) sp out) (mkA ps b1 g b0 (WRead (acc ++ [l])) sp out)
  | a_w_eof ps b1 acc sp out :
      astep (mkA ps b1 GDone [] (WRead acc) sp out) (mkA ps b1 GDone [] (WWrite (wc_l acc)) sp out)
  | a_w_write ps b1 g b0 l r sp out :
      astep (mkA ps b1 g b0 (WWrite (l :: r)) sp out)
            (mkA ps b1 g b0 (WWrite r) sp (out ++ [(wpid, d1, (l ++ endl)%string)]))
  | a_w_exit ps b1 g b0 sp out :
      astep (mkA ps b1 g b0 (WWrite []) sp out) (mkA ps b1 g b0 WZombie sp out)
  | a_s_wait ps b1 g b0 out :
      astep (mkA ps b1 g b0 WZombie SWait out) (mkA ps b1 g b0 WReaped SWrite out)
  | a_s_write ps b1 g b0 w out :
      astep (mkA ps b1 g b0 w SWrite out) (mkA ps b1 g b0 w SExit (out ++ [(sup, d1, completion_line)]))
  | a_s_exit ps b1 g b0 w out :
      astep (mkA ps b1 g b0 w SExit out) (mkA ps b1 g b0 w SDone out).

  (** The start: [ps] has its listing to write, both channels are
      empty, [grep] and [wc] have read nothing, the supervisor waits. *)
Definition astart : astate := mkA (Some L) [] (GRead []) [] (WRead []) SWait [].

  (** What [grep] and [wc] write on the whole listing, and the lines the
      terminal shows: the count, then the completion line. *)
Definition matches : list string := grep_lines pat L.
Definition count_line : string := pretty (N.of_nat (length matches)).
Definition wc_entry : nat * desc * string := (wpid, d1, (count_line ++ endl)%string).
Definition sup_entry : nat * desc * string := (sup, d1, completion_line).

  (** The invariant, one case per phase of the pipeline.  While [grep]
      reads, the lines it has read, channel 0 and what [ps] has still to
      write make up the listing, and [wc] has seen nothing.  Once [grep]
      has seen end-of-file, [ps] has exited and channel 0 is empty; the
      lines [wc] has read, channel 1 and what [grep] has still to write
      make up [matches].  Once [wc] has seen end-of-file, [grep] has
      exited and channel 1 is empty; then the count, [wc]'s exit, the
      reaping and the completion line follow in this order. *)
Inductive ainv : astate -> Prop :=
  | inv_grep_reads ps acc b1 :
      acc ++ b1 ++ default [] ps = L -> ainv (mkA ps b1 (GRead acc) [] (WRead []) SWait [])
  | inv_grep_writes acc b0 r :
      acc ++ b0 ++ r = matches -> ainv (mkA None [] (GWrite r) b0 (WRead acc) SWait [])
  | inv_wc_reads acc b0 :
      acc ++ b0 = matches -> ainv (mkA None [] GDone b0 (WRead acc) SWait [])
  | inv_wc_counted : ainv (mkA None [] GDone [] (WWrite [count_line]) SWait [])
  | inv_wc_wrote : ainv (mkA None [] GDone [] (WWrite []) SWait [wc_entry])
  | inv_wc_exited : ainv (mkA None [] GDone [] WZombie SWait [wc_entry])
  | inv_reaped : ainv (mkA None [] GDone [] WReaped SWrite [wc_entry])
  | inv_reported sp :
      sp = SExit \/ sp = SDone -> ainv (mkA None [] GDone [] WReaped sp [wc_entry; sup_entry]).

Lemma ainv_start : ainv astart.
Proof. by apply inv_grep_reads. Qed.

Lemma ainv_step a a' : ainv a -> astep a a' -> ainv a'.
Proof.
  intros Hinv Hs. destruct Hinv as [| | | | | | | sp [-> | ->]]; inversion Hs; subst;
    cbn [default from_option id] in *;
    rewrite ?app_nil_r in *; subst;
    first [ apply inv_grep_reads | apply inv_grep_writes | apply inv_wc_reads
          | apply inv_wc_counted | apply inv_wc_wrote | apply inv_wc_exited | apply inv_reaped
          | apply inv_reported ];
    first [by rewrite <-?app_assoc, ?app_nil_r | by left | by right].
Qed.

Lemma ainv_reachable a : star astep astart a -> ainv a.
Proof. intros Hs. eapply star_invariant; [exact ainv_step | exact Hs | exact ainv_start]. Qed.

  (** Progress: a state of the invariant either is the final one, the
      supervisor having exited after the count and its line, or has a
      step. *)
Lemma ainv_progress a :
  ainv a -> a = mkA None [] GDone [] WReaped SDone [wc_entry; sup_entry] \/ exists a', astep a a'.
Proof.
  intros Hinv. destruct Hinv as [[r|] acc [|l b1] Hl| acc b0 [|l r] Hl | acc [|l b0] Hl | | | | |
                                  sp [-> | ->]];
    try (right; eexists; by econstructor).
  - destruct r; right; eexists; by econstructor.
  - by left.
Qed.

  (** The final state of the invariant: no step is left, and the terminal
      shows the count of the matching lines, then the completion line. *)
Lemma ainv_final a :
  ainv a -> (forall a', ~ astep a a') -> a_sup a = SDone /\ a_out a = [wc_entry; sup_entry].
Proof.
  intros Hinv Hno. destruct (ainv_progress a Hinv) as [-> | [a' Ha']]; [done|].
  by destruct (Hno a').
Qed.

  (** A measure every step decreases: each line weighs more the earlier
      the stage holding it, and each stage's phase weighs more than the
      phases after it. *)
Definition ps_weight (ps : option (list string)) : nat :=
  match ps with Some r => 1 + 6 * length r | None => 0 end.
Definition g_weight (g : gphase) : nat :=
  match g with GRead acc => 2 + 4 * length acc | GWrite r => 1 + 3 * length r | GDone => 0 end.
Definition w_weight (w : wphase) : nat :=
  match w with WRead acc => 4 + length acc | WWrite r => 2 + length r | WZombie => 1 | WReaped => 0 end.
Definition s_weight (sp : sphase) : nat :=
  match sp with SWait => 3 | SWrite => 2 | SExit => 1 | SDone => 0 end.
Definition ameasure (a : astate) : nat :=
  ps_weight (a_ps a) + 5 * length (a_b1 a) + g_weight (a_g a) + 2 * length (a_b0 a) +
  w_weight (a_w a) + s_weight (a_sup a).

Lemma astep_measure a a' : astep a a' -> ameasure a' < ameasure a.
Proof.
  intros Hs. destruct Hs; unfold ameasure; cbn; rewrite ?length_app; cbn; try lia.
  pose proof (grep_lines_length pat acc). lia.
Qed.

End machine.

End Streams.
