(* ===== verification/Dataflow.v ===== *)
(** * Data flow: the kernel with pipe contents and running commands

    [Kernel] leaves an image opaque: it only exits.  This file gives the
    images the behaviour of the commands of [Commands] and the pipes
    their contents, after POSIX:
    - a pipe holds the lines written to it and not yet read, in order;
    - [read] on descriptor 0 takes the first line of the pipe; on an
      empty pipe it returns end-of-file once no process holds the write
      end, and blocks (no step) while one does;
    - [write] on descriptor 1 appends to the pipe while some process
      holds its read end; with none, the writer is killed by [SIGPIPE];
      a write to the terminal is logged in [k_out], as the program's own
      writes are;
    - a command reads its whole input, then writes its output line by
      line, then exits with status 0.
    The processes that still run code of the program move by
    [Kernel.step_proc], as in [Kernel.kstep]; their writes are logged in
    [k_out] whatever the descriptor, which is exact in the runs of [Flow],
    where no such process holds a pipe end.  A state of this semantics
    is a kernel state with the contents of each pipe and the phase of
    each image ([xstate]); [xinit] starts every image at the beginning of
    its command, with every pipe empty. *)

From stdpp Require Import base gmap sets list strings.
From Stdlib Require Import ZArith Lia.
From S2P Require Import Prelude FdTable Syscall Kernel Pipeline Commands.

Module Dataflow.
Import FdTable Syscall Kernel Pipeline Commands.

(** An image reads its input (the lines read so far) or writes its
    output (the lines left to write). *)
Inductive dphase := Reading (acc : list string) | Writing (rest : list string).

Record xstate := mkX {
  x_k : kstate;
  x_pipes : gmap nat (list string);
  x_phase : gmap nat dphase
}.

(** The status [wait] reports for a process killed by [SIGPIPE]. *)
Definition sigpipe_status : Z := 13%Z.

(** Some process holds the write end, or the read end, of pipe [p]. *)
Definition write_open (s : kstate) (p : nat) : Prop := exists pid fd, holds s pid fd (DPipeWr p).
Definition read_open (s : kstate) (p : nat) : Prop := exists pid fd, holds s pid fd (DPipeRd p).

(** A write of an image to the terminal, logged like the program's. *)
Definition log_write (s : kstate) (e : nat * desc * string) : kstate :=
  mkKState (k_procs s) (k_next_pid s) (k_next_pipe s) (k_out s ++ [e]).

Definition start_phase (listing : list string) (c : cmd) : dphase :=
  if reads_stdin c then Reading [] else Writing (cmd_output listing c []).

Definition image_phase (listing : list string) (q : proc) : option dphase :=
  match p_state q with
  | Image file argv => start_phase listing <$> cmd_of file argv
  | _ => None
  end.

(** The kernel state [s] with every pipe created so far empty and every
    image at the start of its command. *)
Definition xinit (listing : list string) (s : kstate) : xstate :=
  mkX s (list_to_map ((fun p => (p, [])) <$> seq 0 (k_next_pipe s)))
        (omap (image_phase listing) (k_procs s)).

Section semantics.
  Context (C : config) (listing : list string).

  (** One step of one process. *)
Inductive xstep : xstate -> xstate -> Prop :=
  | xs_call x pid k' :
      step_proc C (x_k x) pid = Some k' ->
      xstep x (mkX k' (x_pipes x) (x_phase x))
  | xs_read x pid q file argv acc p l rest :
      k_procs (x_k x) !! pid = Some q -> p_state q = Image file argv ->
      x_phase x !! pid = Some (Reading acc) ->
      p_fds q !! 0 = Some (DPipeRd p) -> x_pipes x !! p = Some (l :: rest) ->
      xstep x (mkX (x_k x) (<[p := rest]> (x_pipes x)) (<[pid := Reading (acc ++ [l])]> (x_phase x)))
  | xs_eof x pid q file argv c acc p :
      k_procs (x_k x) !! pid = Some q -> p_state q = Image file argv -> cmd_of file argv = Some c ->
      x_phase x !! pid = Some (Reading acc) ->
      p_fds q !! 0 = Some (DPipeRd p) -> x_pipes x !! p = Some [] -> ~ write_open (x_k x) p ->
      xstep x (mkX (x_k x) (x_pipes x) (<[pid := Writing (cmd_output listing c acc)]> (x_phase x)))
  | xs_write_pipe x pid q file argv l rest p b :
      k_procs (x_k x) !! pid = Some q -> p_state q = Image file argv ->
      x_phase x !! pid = Some (Writing (l :: rest)) ->
      p_fds q !! 1 = Some (DPipeWr p) -> x_pipes x !! p = Some b -> read_open (x_k x) p ->
      xstep x (mkX (x_k x) (<[p := b ++ [l]]> (x_pipes x)) (<[pid := Writing rest]> (x_phase x)))
  | xs_sigpipe x pid q file argv l rest p :
      k_procs (x_k x) !! pid = Some q -> p_state q = Image file argv ->
      x_phase x !! pid = Some (Writing (l :: rest)) ->
      p_fds q !! 1 = Some (DPipeWr p) -> ~ read_open (x_k x) p ->
      xstep x (mkX (proc_exit (x_k x) pid q sigpipe_status) (x_pipes x) (delete pid (x_phase x)))
  | xs_write_term x pid q file argv l rest n :
      k_procs (x_k x) !! pid = Some q -> p_state q = Image file argv ->
      x_phase x !! pid = Some (Writing (l :: rest)) -> p_fds q !! 1 = Some (DTerm n) ->
      xstep x (mkX (log_write (x_k x) (pid, DTerm n, (l ++ endl)%string)) (x_pipes x)
                   (<[pid := Writing rest]> (x_phase x)))
  | xs_exit x pid q file argv :
      k_procs (x_k x) !! pid = Some q -> p_state q = Image file argv ->
      x_phase x !! pid = Some (Writing []) ->
      xstep x (mkX (proc_exit (x_k x) pid q 0) (x_pipes x) (delete pid (x_phase x))).
End semantics.

(** Equality, key by key, of the lookups of the state a step leads to
    with those of an abstraction given by three functions, which [unf]
    unfolds: the process table, the phases, the pipes.  Used by the
    simulations of [Flow], [GrepMissing] and [PsMissing]. *)
Ltac conc_ext_by H unf :=
  intros ?i; cbn [k_procs k_out log_write x_k x_pipes x_phase];
  rewrite ?proc_exit_lookup, ?lookup_insert, ?lookup_delete;
  repeat case_decide; subst; rewrite ?H;
  unf; repeat case_decide; subst; cbn -[init_pid]; eqb_simpl;
  try lia; try reflexivity; try (destruct i as [|[|i]]; cbn; congruence).

End Dataflow.
