(* ===== verification/Flow.v ===== *)
(** * The running pipeline refines the stream machine

    From the state the build of [Pipeline] reaches, the data-flow
    semantics of [Dataflow] is simulated step for step by the stream
    machine of [Streams]: each state of the one determines the kernel
    state, the pipe contents and the phases of the other ([conc_proc],
    [conc_phase], [conc_pipe]), and each step of a process is a step of
    its stage.  The closing discipline of [main] is what makes
    end-of-file agree: a stage sees end-of-file exactly when the stage
    before it has exited, because no other process holds the write end
    of its pipe ([write_open_conc]).  With the invariant, progress and
    measure of the machine, every run of the system ends, and when it
    ends the terminal shows the count of the lines of the listing that
    contain the term, then the supervisor's completion line. *)

From stdpp Require Import base gmap sets list strings pretty.
From Stdlib Require Import ZArith Lia.
From S2P Require Import Prelude FdTable Syscall Processes Kernel Footprint Pipeline Errors Supervisor Commands Streams Dataflow.

Module Flow.
Import FdTable Syscall Processes Kernel Footprint Pipeline Supervisor Commands Streams Dataflow.

Local Open Scope string_scope.

Definition sup_state (sp : sphase) : pstate :=
  match sp with
  | SWait => waiting
  | SWrite => reaped
  | SExit => Running (Exit 0%Z)
  | SDone => Zombie 0
  end.

Definition ps_alive (ps : option (list string)) : bool := if ps is Some _ then true else false.

(** The lines a stage still has to write, in the phase [Dataflow] gives
    it; none once it has exited or while it reads. *)
Definition to_write (ph : option dphase) : list string :=
  match ph with Some (Writing r) => r | _ => [] end.

Section refinement.
  Context (sup : nat) (T : fdtab) (term : string).

  (** The tables of the three stages, as [Pipeline.pipeline_run] wires
      them. *)
Definition wc_table : fdtab := <[0 := DPipeRd 0]> T.
Definition grep_table : fdtab := <[1 := DPipeWr 0]> (<[0 := DPipeRd 1]> T).
Definition ps_table : fdtab := <[1 := DPipeWr 1]> T.

  (** The process table of a state of the machine: the supervisor, [wc]
      (pid [S sup]), [grep] and [ps]; an exited stage is a zombie without
      descriptors, its children adopted by [init]. *)
Definition conc_proc (a : astate) (i : nat) : option proc :=
  if decide (i = sup) then
    Some (mkProc init_pid (if a_sup a is SDone then ∅ else T) ENOERR (sup_state (a_sup a)))
  else if decide (i = S sup) then
    match a_w a with
    | WRead _ | WWrite _ => Some (mkProc sup wc_table ENOERR (Image "wc" ["wc"; "-l"]))
    | WZombie => Some (mkProc sup ∅ ENOERR (Zombie 0))
    | WReaped => None
    end
  else if decide (i = S (S sup)) then
    Some (mkProc (if w_alive (a_w a) then S sup else init_pid)
                 (if g_alive (a_g a) then grep_table else ∅) ENOERR
                 (if g_alive (a_g a) then Image "grep" ["grep"; term] else Zombie 0))
  else if decide (i = S (S (S sup))) then
    Some (mkProc (if g_alive (a_g a) then S (S sup) else init_pid)
                 (if ps_alive (a_ps a) then ps_table else ∅) ENOERR
                 (if ps_alive (a_ps a) then Image "ps" ["ps"; "aux"] else Zombie 0))
  else None.

Definition conc_phase (a : astate) (i : nat) : option dphase :=
  if decide (i = S sup) then
    match a_w a with WRead acc => Some (Reading acc) | WWrite r => Some (Writing r) | _ => None end
  else if decide (i = S (S sup)) then
    match a_g a with GRead acc => Some (Reading acc) | GWrite r => Some (Writing r) | _ => None end
  else if decide (i = S (S (S sup))) then Writing <$> a_ps a
  else None.

Definition conc_pipe (a : astate) (j : nat) : option (list string) :=
  match j with 0 => Some (a_b0 a) | 1 => Some (a_b1 a) | _ => None end.

  (** The abstraction relation. *)
Definition abs (x : xstate) (a : astate) : Prop :=
  (forall i, k_procs (x_k x) !! i = conc_proc a i) /\
  (forall i, x_phase x !! i = conc_phase a i) /\
  (forall j, x_pipes x !! j = conc_pipe a j) /\
  k_out (x_k x) = a_out a.

(** A process table wired as [main] wires the pipeline, as far as pipes
    are concerned: the supervisor holds the invoker's table or nothing,
    each stage holds its table while it is alive ([wa], [ga], [pa] for
    [wc], [grep] and [ps]) and nothing after, and no other process
    exists. *)
Definition wired (wa ga pa : bool) (P : nat -> option proc) : Prop :=
  (forall i q, P i = Some q ->
     (i = sup /\ (p_fds q = T \/ p_fds q = ∅)) \/
     (i = S sup /\ p_fds q = if wa then wc_table else ∅) \/
     (i = S (S sup) /\ p_fds q = if ga then grep_table else ∅) \/
     (i = S (S (S sup)) /\ p_fds q = if pa then ps_table else ∅)) /\
  (wa = true -> exists q, P (S sup) = Some q /\ p_fds q = wc_table) /\
  (ga = true -> exists q, P (S (S sup)) = Some q /\ p_fds q = grep_table) /\
  (pa = true -> exists q, P (S (S (S sup))) = Some q /\ p_fds q = ps_table).

Section holders.
  Hypothesis (Hnopipe : pipes_below 0 T).

  (** The pipe ends held in a wired table: [wc] reads pipe 0, [grep]
      reads pipe 1 and writes pipe 0, [ps] writes pipe 1, each while it
      is alive; nobody else holds one. *)
Lemma wired_holds wa ga pa P pid q fd d :
  wired wa ga pa P -> P pid = Some q -> p_fds q !! fd = Some d -> desc_pipe d <> None ->
  (pid = S sup /\ fd = 0 /\ d = DPipeRd 0 /\ wa = true) \/
  (pid = S (S sup) /\ ga = true /\ ((fd = 0 /\ d = DPipeRd 1) \/ (fd = 1 /\ d = DPipeWr 0))) \/
  (pid = S (S (S sup)) /\ pa = true /\ fd = 1 /\ d = DPipeWr 1).
Proof.
  intros (Hv & _) Hq Hfd Hd.
  assert (forall i, T !! i = Some d -> False) as HT by (intros i Hi; by eapply Hd, pipes_below_0).
  destruct (Hv pid q Hq) as [(-> & [E|E])|[(-> & E)|[(-> & E)|(-> & E)]]]; rewrite E in Hfd;
    repeat case_match; try (by rewrite lookup_empty in Hfd); try (exfalso; by eapply HT);
    unfold wc_table, grep_table, ps_table in Hfd;
    repeat (rewrite lookup_insert in Hfd; case_decide; [injection Hfd as <-; subst; naive_solver|]);
    exfalso; by eapply HT.
Qed.

Lemma wired_write_open wa ga pa P x p :
  wired wa ga pa P -> (forall i, k_procs (x_k x) !! i = P i) ->
  write_open (x_k x) p <-> (p = 0 /\ ga = true) \/ (p = 1 /\ pa = true).
Proof.
  intros Hw Hp. split.
  - intros (pid & fd & q & Hq & Hfd). rewrite Hp in Hq.
    destruct (wired_holds wa ga pa P pid q fd _ Hw Hq Hfd)
      as [(_ & _ & ? & _)|[(_ & ? & [[_ ?]|[_ ?]])|(_ & ? & _ & ?)]]; simplify_eq; naive_solver.
  - destruct Hw as (_ & _ & Hg & Hps). intros [[-> Hga]|[-> Hpa]].
    + destruct (Hg Hga) as (q & Hq & E). exists (S (S sup)), 1, q. rewrite Hp, E.
      split; [done|]. unfold grep_table. by simplify_map_eq.
    + destruct (Hps Hpa) as (q & Hq & E). exists (S (S (S sup))), 1, q. rewrite Hp, E.
      split; [done|]. unfold ps_table. by simplify_map_eq.
Qed.

Lemma wired_read_open wa ga pa P x p :
  wired wa ga pa P -> (forall i, k_procs (x_k x) !! i = P i) ->
  read_open (x_k x) p <-> (p = 0 /\ wa = true) \/ (p = 1 /\ ga = true).
Proof.
  intros Hw Hp. split.
  - intros (pid & fd & q & Hq & Hfd). rewrite Hp in Hq.
    destruct (wired_holds wa ga pa P pid q fd _ Hw Hq Hfd)
      as [(_ & _ & ? & ?)|[(_ & ? & [[_ ?]|[_ ?]])|(_ & ? & _ & ?)]]; simplify_eq; naive_solver.
  - destruct Hw as (_ & Hw & Hg & _). intros [[-> Hwa]|[-> Hga]].
    + destruct (Hw Hwa) as (q & Hq & E). exists (S sup), 0, q. rewrite Hp, E.
      split; [done|]. unfold wc_table. by simplify_map_eq.
    + destruct (Hg Hga) as (q & Hq & E). exists (S (S sup)), 0, q. rewrite Hp, E.
      split; [done|]. unfold grep_table. by simplify_map_eq.
Qed.

  (** The process table of a state of the machine is wired. *)
Lemma conc_wired a : wired (w_alive (a_w a)) (g_alive (a_g a)) (ps_alive (a_ps a)) (conc_proc a).
Proof.
  unfold conc_proc. split_and!.
  - intros i q Hq. repeat case_decide; subst; try discriminate; repeat case_match; simplify_eq/=;
      naive_solver.
  - intros Hw. rewrite decide_False, decide_True by lia. destruct (a_w a); try discriminate; by eexists.
  - intros Hg. rewrite decide_False, decide_False, decide_True by lia. rewrite Hg. by eexists.
  - intros Hps. rewrite decide_False, decide_False, decide_False, decide_True by lia. rewrite Hps.
    by eexists.
Qed.

Lemma conc_holds a pid q fd d :
  conc_proc a pid = Some q -> p_fds q !! fd = Some d -> desc_pipe d <> None ->
  (pid = S sup /\ fd = 0 /\ d = DPipeRd 0 /\ w_alive (a_w a) = true) \/
  (pid = S (S sup) /\ g_alive (a_g a) = true /\
     ((fd = 0 /\ d = DPipeRd 1) \/ (fd = 1 /\ d = DPipeWr 0))) \/
  (pid = S (S (S sup)) /\ ps_alive (a_ps a) = true /\ fd = 1 /\ d = DPipeWr 1).
Proof. apply wired_holds, conc_wired. Qed.

Lemma write_open_conc x a p :
  abs x a -> write_open (x_k x) p <->
  (p = 0 /\ g_alive (a_g a) = true) \/ (p = 1 /\ ps_alive (a_ps a) = true).
Proof. intros (Hp & _). exact (wired_write_open _ _ _ _ x p (conc_wired a) Hp). Qed.

Lemma read_open_conc x a p :
  abs x a -> read_open (x_k x) p <->
  (p = 0 /\ w_alive (a_w a) = true) \/ (p = 1 /\ g_alive (a_g a) = true).
Proof. intros (Hp & _). exact (wired_read_open _ _ _ _ x p (conc_wired a) Hp). Qed.
End holders.

(** Equality of the lookups of a new state with those of its abstraction,
    key by key ([Dataflow.conc_ext_by]). *)
Ltac conc_ext H := conc_ext_by H ltac:(unfold conc_proc, conc_phase, conc_pipe).

Section simulation.
  Context (C : config) (L : list string) (n1 : nat).
  Hypothesis (HT1 : T !! 1 = Some (DTerm n1)) (Hnopipe : pipes_below 0 T) (Hsup : init_pid < sup).


  (** The only child of the supervisor is [wc], and it is a zombie only
      once [wc] has exited. *)
Lemma conc_zombie_child a c qc st :
  conc_proc a c = Some qc -> p_ppid qc = sup -> p_state qc = Zombie st ->
  c = S sup /\ a_w a = WZombie.
Proof.
  intros Hc Hpp Hst. unfold conc_proc in Hc.
  repeat case_decide; try subst c; try discriminate; repeat case_match; try discriminate;
    injection Hc as <-; cbn in *; unfold init_pid in *; try lia; by simplify_eq.
Qed.

Lemma conc_wc_child x a :
  (forall i, k_procs (x_k x) !! i = conc_proc a i) -> a_w a <> WReaped ->
  children (k_procs (x_k x)) sup <> ∅.
Proof.
  intros Hp Hw.
  assert (exists q, k_procs (x_k x) !! S sup = Some q /\ p_ppid q = sup) as (q & Hq & Hpp).
  { rewrite Hp. unfold conc_proc. rewrite decide_False, decide_True by lia.
    destruct (a_w a); try done; by eexists. }
  by eapply children_nonempty.
Qed.

  (** A call of the supervisor is a step of the machine: [wait] reaps
      [wc] once it has exited and blocks before, then the completion line
      and [exit]. *)
Lemma abs_call x a pid k' :
  abs x a -> ainv L term (S sup) sup (DTerm n1) a -> step_proc C (x_k x) pid = Some k' ->
  exists a', astep term (S sup) sup (DTerm n1) a a' /\ abs (mkX k' (x_pipes x) (x_phase x)) a'.
Proof.
  intros HR Hinv Hst. pose proof HR as (Hp & Hph & Hpi & Ho).
  unfold step_proc in Hst. rewrite Hp in Hst. unfold conc_proc in Hst.
  destruct (decide (pid = sup)) as [->|Hne].
  2: { repeat case_decide; cbn in Hst; try discriminate;
       destruct (a_w a), (g_alive (a_g a)), (ps_alive (a_ps a)); cbn in Hst; discriminate. }
  assert (forall c qc st, k_procs (x_k x) !! c = Some qc -> p_ppid qc = sup ->
            p_state qc = Zombie st -> c = S sup /\ a_w a = WZombie) as Hz.
  { intros c qc st Hc. rewrite Hp in Hc. by apply conc_zombie_child. }
  pose proof (conc_wc_child x a Hp) as Hkid.
  destruct Hinv as [ps acc b1 Hl|acc b0 r Hl|acc b0 Hl| | | | |sp Hsp];
    cbn -[do_write do_wait proc_exit] in Hst, Hz, Hkid.
  1-5: apply do_wait_cases in Hst as [[Hemp _]|(c & qc & st & Hc & Hpp & Hzs & _)];
    exfalso; [by apply Hkid | destruct (Hz c qc st Hc Hpp Hzs) as [_ ?]; discriminate].
  - apply do_wait_cases in Hst as [[Hemp _]|(c & qc & st & Hc & Hpp & Hzs & ->)]; [exfalso; by apply Hkid|].
    destruct (Hz c qc st Hc Hpp Hzs) as [-> _].
    eexists. split; [constructor|].
    split_and!; [conc_ext Hp | conc_ext Hph | conc_ext Hpi | done].
  - injection Hst as <-. erewrite do_write_ok; [| apply fd_index_stdout | exact HT1 | done].
    eexists. split; [constructor|].
    split_and!; [conc_ext Hp | conc_ext Hph | conc_ext Hpi | cbn; by rewrite Ho].
  - destruct Hsp as [-> | ->]; cbn -[proc_exit] in Hst; [|discriminate].
    injection Hst as <-. eexists. split; [constructor|].
    split_and!; [conc_ext Hp | conc_ext Hph | conc_ext Hpi | done].
Qed.

Lemma conc_phase_pids a i ph :
  conc_phase a i = Some ph -> i = S sup \/ i = S (S sup) \/ i = S (S (S sup)).
Proof. unfold conc_phase. intros H. repeat case_decide; auto; discriminate. Qed.

Lemma conc_at_wc a :
  conc_proc a (S sup) = match a_w a with
                        | WRead _ | WWrite _ => Some (mkProc sup wc_table ENOERR (Image "wc" ["wc"; "-l"]))
                        | WZombie => Some (mkProc sup ∅ ENOERR (Zombie 0))
                        | WReaped => None
                        end /\
  conc_phase a (S sup) = match a_w a with
                         | WRead acc => Some (Reading acc) | WWrite r => Some (Writing r) | _ => None
                         end.
Proof. unfold conc_proc, conc_phase. repeat case_decide; try lia; auto. Qed.

Lemma conc_at_grep a :
  conc_proc a (S (S sup)) =
    Some (mkProc (if w_alive (a_w a) then S sup else init_pid)
                 (if g_alive (a_g a) then grep_table else ∅) ENOERR
                 (if g_alive (a_g a) then Image "grep" ["grep"; term] else Zombie 0)) /\
  conc_phase a (S (S sup)) = match a_g a with
                             | GRead acc => Some (Reading acc) | GWrite r => Some (Writing r)
                             | GDone => None
                             end.
Proof. unfold conc_proc, conc_phase. repeat case_decide; try lia; auto. Qed.

Lemma conc_at_ps a :
  conc_proc a (S (S (S sup))) =
    Some (mkProc (if g_alive (a_g a) then S (S sup) else init_pid)
                 (if ps_alive (a_ps a) then ps_table else ∅) ENOERR
                 (if ps_alive (a_ps a) then Image "ps" ["ps"; "aux"] else Zombie 0)) /\
  conc_phase a (S (S (S sup))) = Writing <$> a_ps a.
Proof. unfold conc_proc, conc_phase. repeat case_decide; try lia; auto. Qed.

Lemma table_lookups :
  wc_table !! 0 = Some (DPipeRd 0) /\ wc_table !! 1 = Some (DTerm n1) /\
  grep_table !! 0 = Some (DPipeRd 1) /\ grep_table !! 1 = Some (DPipeWr 0) /\
  ps_table !! 1 = Some (DPipeWr 1).
Proof. unfold wc_table, grep_table, ps_table. by split_and!; simplify_map_eq. Qed.

(** Each step of the data-flow semantics is a step of the machine, and
    the abstraction holds after it. *)
Lemma abs_step x a x' :
  abs x a -> ainv L term (S sup) sup (DTerm n1) a -> xstep C L x x' ->
  exists a', astep term (S sup) sup (DTerm n1) a a' /\ abs x' a'.
Proof.
  intros HR Hinv Hs. pose proof HR as (Hp & Hph & Hpi & Ho).
  pose proof (fun p => write_open_conc Hnopipe x a p HR) as Hwopen.
  pose proof (fun p => read_open_conc Hnopipe x a p HR) as Hropen.
  pose proof table_lookups as (Tw0 & Tw1 & Tg0 & Tg1 & Tp1).
  destruct Hs as [x pid k' Hst|x pid q file argv acc p l rest Hq Hst Hphx Hfd Hb
                 |x pid q file argv c acc p Hq Hst Hc Hphx Hfd Hb Hwo
                 |x pid q file argv l rest p b Hq Hst Hphx Hfd Hb Hro
                 |x pid q file argv l rest p Hq Hst Hphx Hfd Hro
                 |x pid q file argv l rest n Hq Hst Hphx Hfd|x pid q file argv Hq Hst Hphx];
    [by eapply abs_call|..];
    rewrite Hph in Hphx; rewrite Hp in Hq;
    (destruct (conc_phase_pids a pid _ Hphx) as [-> | [-> | ->]];
     [destruct (conc_at_wc a) as [E1 E2] | destruct (conc_at_grep a) as [E1 E2]
     | destruct (conc_at_ps a) as [E1 E2]];
     rewrite E1 in Hq; rewrite E2 in Hphx; clear E1 E2);
    destruct Hinv as [[r0|] acc0 b1 _|acc0 b0 r0 _|acc0 b0 _| | | | |sp Hsp];
    cbn in Hq, Hphx; simplify_eq; cbn in Hst; simplify_eq;
    try (rewrite ?cmd_of_grep, ?cmd_of_wc in Hc; simplify_eq);
    try (cbn in Hfd; rewrite ?Tw0, ?Tw1, ?Tg0, ?Tg1, ?Tp1 in Hfd; simplify_eq);
    try (rewrite Hpi in Hb; cbn in Hb; simplify_eq);
    try (rewrite Hwopen in Hwo; cbn in Hwo);
    try (rewrite Hropen in Hro; cbn in Hro);
    try (exfalso; apply Hwo; by auto); try (exfalso; apply Hro; by auto).
  all: lazymatch goal with
       | |- exists _, _ /\ abs (mkX _ _ (<[_ := Reading _]> _)) _ =>
           eexists; split; [first [apply a_g_read | apply a_w_read] |]
       | |- exists _, _ /\ abs (mkX _ _ (<[_ := Writing (cmd_output _ _ _)]> _)) _ =>
           eexists; split; [first [apply a_g_eof | apply a_w_eof] |]
       | |- exists _, _ /\ abs (mkX _ (<[_ := _]> _) _) _ =>
           eexists; split; [first [apply a_ps_write; done | apply a_g_write; done] |]
       | |- exists _, _ /\ abs (mkX (log_write _ _) _ _) _ =>
           eexists; split; [apply a_w_write |]
       | |- exists _, _ /\ abs (mkX (proc_exit _ _ _ _) _ _) _ =>
           eexists; split; [first [apply a_ps_exit | apply a_g_exit | apply a_w_exit] |]
       end.
  all: split_and!; [conc_ext Hp | conc_ext Hph | conc_ext Hpi | cbn; by rewrite Ho].
Qed.

(** A lookup in a state at one of the four pids of the pipeline. *)
Ltac look_tac Hp Hph Hpi :=
  first [rewrite Hp; unfold conc_proc | rewrite Hph; unfold conc_phase | rewrite Hpi];
  repeat case_decide; try lia; cbn; reflexivity.

(** Each step of the machine is enabled in the data-flow semantics. *)
Lemma abs_enabled x a a' :
  abs x a -> astep term (S sup) sup (DTerm n1) a a' -> exists x', xstep C L x x'.
Proof.
  intros HR Hs. pose proof HR as (Hp & Hph & Hpi & Ho).
  pose proof (fun p => write_open_conc Hnopipe x a p HR) as Hwopen.
  pose proof (fun p => read_open_conc Hnopipe x a p HR) as Hropen.
  pose proof table_lookups as (Tw0 & Tw1 & Tg0 & Tg1 & Tp1).
  destruct Hs; cbn in Hwopen, Hropen.
  - eexists. eapply (xs_write_pipe C L x (S (S (S sup))));
      [look_tac Hp Hph Hpi | reflexivity | look_tac Hp Hph Hpi | exact Tp1
      | look_tac Hp Hph Hpi | apply Hropen; right; by split].
  - eexists. eapply (xs_exit C L x (S (S (S sup)))); [look_tac Hp Hph Hpi | reflexivity | look_tac Hp Hph Hpi].
  - eexists. eapply (xs_read C L x (S (S sup)));
      [look_tac Hp Hph Hpi | reflexivity | look_tac Hp Hph Hpi | exact Tg0 | look_tac Hp Hph Hpi].
  - eexists. eapply (xs_eof C L x (S (S sup)));
      [look_tac Hp Hph Hpi | reflexivity | apply cmd_of_grep | look_tac Hp Hph Hpi | exact Tg0
      | look_tac Hp Hph Hpi | rewrite Hwopen; intros [[? _]|[_ ?]]; discriminate].
  - eexists. eapply (xs_write_pipe C L x (S (S sup)));
      [look_tac Hp Hph Hpi | reflexivity | look_tac Hp Hph Hpi | exact Tg1
      | look_tac Hp Hph Hpi | apply Hropen; left; by split].
  - eexists. eapply (xs_exit C L x (S (S sup))); [look_tac Hp Hph Hpi | reflexivity | look_tac Hp Hph Hpi].
  - eexists. eapply (xs_read C L x (S sup));
      [look_tac Hp Hph Hpi | reflexivity | look_tac Hp Hph Hpi | exact Tw0 | look_tac Hp Hph Hpi].
  - eexists. eapply (xs_eof C L x (S sup));
      [look_tac Hp Hph Hpi | reflexivity | apply cmd_of_wc | look_tac Hp Hph Hpi | exact Tw0
      | look_tac Hp Hph Hpi | rewrite Hwopen; intros [[_ ?]|[? _]]; discriminate].
  - eexists. eapply (xs_write_term C L x (S sup));
      [look_tac Hp Hph Hpi | reflexivity | look_tac Hp Hph Hpi | exact Tw1].
  - eexists. eapply (xs_exit C L x (S sup)); [look_tac Hp Hph Hpi | reflexivity | look_tac Hp Hph Hpi].
  - assert (k_procs (x_k x) !! S sup = Some (mkProc sup ∅ ENOERR (Zombie 0))) as Hw
      by look_tac Hp Hph Hpi.
    destruct (do_wait_some (x_k x) sup (mkProc init_pid T ENOERR waiting)
                         (fun _ => Write STDOUT_FILENO completion_line (fun _ => Exit 0%Z))
                         (S sup) _ 0 Hw eq_refl eq_refl)
      as [s' Hs'].
    exists (mkX s' (x_pipes x) (x_phase x)). apply (xs_call C L x sup s'). rewrite (step_wait C _ sup (mkProc init_pid T ENOERR waiting)
                                 (fun _ => Write STDOUT_FILENO completion_line (fun _ => Exit 0%Z)));
      [exact Hs' | look_tac Hp Hph Hpi | reflexivity].
  - eexists. apply (xs_call C L x sup). unfold step_proc. rewrite Hp. unfold conc_proc.
    rewrite decide_True by done. reflexivity.
  - eexists. apply (xs_call C L x sup). unfold step_proc. rewrite Hp. unfold conc_proc.
    rewrite decide_True by done. reflexivity.
Qed.
End simulation.

  (** The state the build reaches, with empty pipes and the three
      commands at their start, is the start of the machine. *)
Lemma abs_start (L : list string) s :
  k_procs s !! sup = Some (mkProc init_pid T ENOERR waiting) ->
  k_procs s !! S sup = Some (mkProc sup wc_table ENOERR (Image "wc" ["wc"; "-l"])) ->
  k_procs s !! S (S sup) = Some (mkProc (S sup) grep_table ENOERR (Image "grep" ["grep"; term])) ->
  k_procs s !! S (S (S sup)) = Some (mkProc (S (S sup)) ps_table ENOERR (Image "ps" ["ps"; "aux"])) ->
  dom (k_procs s) = {[sup; S sup; S (S sup); S (S (S sup))]} ->
  k_next_pipe s = 2 -> k_out s = [] ->
  abs (xinit L s) (astart L).
Proof.
  intros Hs Hw Hg Hps Hdom Hnp Hout. unfold xinit. split_and!; cbn [x_k x_pipes x_phase].
  - intros i. unfold conc_proc. repeat case_decide; subst; try done.
    apply (proj1 (not_elem_of_dom _ _)). rewrite Hdom. set_unfold. lia.
  - intros i. rewrite lookup_omap. unfold conc_phase.
    repeat case_decide; subst; rewrite ?Hw, ?Hg, ?Hps; cbn; rewrite ?cmd_of_grep; try done.
    destruct (decide (i = sup)) as [->|]; [by rewrite Hs|].
    by rewrite (proj1 (not_elem_of_dom (k_procs s) i)) by (rewrite Hdom; set_unfold; lia).
  - intros [|[|j]]; rewrite Hnp; cbn; [done | done |].
    by rewrite !lookup_insert_ne, lookup_empty by lia.
  - done.
Qed.
End refinement.

(** The build under [pipeline_schedule] reaches a state whose data-flow
    extension is the start of the machine. *)
Lemma flow_start C sup T a0 term L :
  init_pid < sup -> is_Some (T !! 0) -> is_Some (T !! 1) ->
  size T + 4 <= open_max C -> 4 <= proc_max C ->
  "ps" ∈ path C -> "grep" ∈ path C -> "wc" ∈ path C ->
  exists s, run C (pipeline_schedule sup) (init_state sup T (main_prog [a0; term])) = Some s /\
    abs sup T term (xinit L s) (astart L).
Proof.
  intros Hlt H0 H1 Hom Hpm Hps Hgrep Hwc.
  destruct (pipeline_run C sup T a0 term H0 H1 Hom Hpm Hps Hgrep Hwc)
    as (s & k & Hrun & Hsup & Hc & Hg & Hgg & Hdom & Hnpid & Hnp & Hout).
  exists s. split; [done|].
  pose proof (sup_inv_reachable sup term Hlt C T a0 s (run_star _ _ _ _ Hrun))
    as (_ & _ & q & Hq & _ & [(Hn & _)|[(Hst & _)|(_ & Hnone & _)]]); [lia | | congruence].
  rewrite Hsup in Hq. injection Hq as <-. cbn in Hst. rewrite Hst in Hsup.
  by apply abs_start.
Qed.

(** Every state a run from the start of the machine reaches is the image
    of a state of the invariant of [Streams]. *)
Lemma flow_reachable C sup T term n1 L x0 x :
  T !! 1 = Some (DTerm n1) -> pipes_below 0 T -> init_pid < sup ->
  abs sup T term x0 (astart L) -> star (xstep C L) x0 x ->
  exists a, abs sup T term x a /\ ainv L term (S sup) sup (DTerm n1) a.
Proof.
  intros H1 Hnopipe Hlt Habs Hstar.
  destruct (star_sim (xstep C L) (astep term (S sup) sup (DTerm n1)) (abs sup T term)
              (ainv L term (S sup) sup (DTerm n1)) (ainv_step L term (S sup) sup (DTerm n1))
              (abs_step sup T term C L n1 H1 Hnopipe Hlt) _ _ _ Hstar Habs (ainv_start _ _ _ _ _))
    as (a & _ & Hxa & Hinv).
  by exists a.
Qed.

(** Where every run from the start of the machine ends: all three
    stages exited and the supervisor too, after the two lines. *)
Lemma flow_final C sup T term n1 L x0 x :
  T !! 1 = Some (DTerm n1) -> pipes_below 0 T -> init_pid < sup ->
  abs sup T term x0 (astart L) -> star (xstep C L) x0 x -> (forall x', ~ xstep C L x x') ->
  abs sup T term x (mkA None [] GDone [] WReaped SDone
                      [wc_entry L term (S sup) (DTerm n1); sup_entry sup (DTerm n1)]).
Proof.
  intros H1 Hnopipe Hlt Habs Hstar Hterm.
  destruct (flow_reachable C sup T term n1 L x0 x H1 Hnopipe Hlt Habs Hstar) as (a & Hxa & Hinv).
  destruct (ainv_progress L term (S sup) sup (DTerm n1) a Hinv) as [<- | [a' Ha']]; [done|].
  destruct (abs_enabled sup T term C L n1 H1 Hnopipe Hlt x a a' Hxa Ha') as [x' Hx'].
  by destruct (Hterm x').
Qed.

(** C1. Total correctness of the running pipeline.  When the build
    succeeds (room for two pipes and four processes, the three commands
    on [PATH]) and the invoker's standard output is a terminal, then,
    however the four processes are interleaved and whatever [ps]
    lists, every run of the system that cannot go on has written exactly
    two lines to the terminal: first [wc]'s count of the listed lines
    that contain the term, then the supervisor's "commands completed". *)
Theorem pipeline_prints_count C sup T a0 term n1 L :
  init_pid < sup -> is_Some (T !! 0) -> T !! 1 = Some (DTerm n1) -> pipes_below 0 T ->
  size T + 4 <= open_max C -> 4 <= proc_max C ->
  "ps" ∈ path C -> "grep" ∈ path C -> "wc" ∈ path C ->
  exists s, run C (pipeline_schedule sup) (init_state sup T (main_prog [a0; term])) = Some s /\
    forall x, star (xstep C L) (xinit L s) x -> (forall x', ~ xstep C L x x') ->
      k_out (x_k x) = [(S sup, DTerm n1, count_line L term ++ endl);
                       (sup, DTerm n1, completion_line)].
Proof.
  intros Hlt H0 H1 Hnopipe Hom Hpm Hps Hgrep Hwc.
  destruct (flow_start C sup T a0 term L Hlt H0 ltac:(by eexists) Hom Hpm Hps Hgrep Hwc)
    as (s & Hrun & Habs).
  exists s. split; [done|]. intros x Hstar Hterm.
  by destruct (flow_final C sup T term n1 L _ x H1 Hnopipe Hlt Habs Hstar Hterm) as (_ & _ & _ & ->).
Qed.

(** C19. The two pipes are FIFO channels that lose, duplicate and
    reorder nothing: at every point of every run from the state the build
    reaches, while [grep] reads, the lines it has read, then the contents
    of the pipe from [ps], then the lines [ps] has still to write, are the
    listing [ps] produces; and once [grep] has stopped reading, while
    [wc] reads, the lines [wc] has read, then the contents of the pipe
    from [grep], then the lines [grep] has still to write, are the lines
    of the listing that contain the term, in the listing's order. *)
Theorem pipeline_channels_fifo C sup T a0 term n1 L :
  init_pid < sup -> is_Some (T !! 0) -> T !! 1 = Some (DTerm n1) -> pipes_below 0 T ->
  size T + 4 <= open_max C -> 4 <= proc_max C ->
  "ps" ∈ path C -> "grep" ∈ path C -> "wc" ∈ path C ->
  exists s, run C (pipeline_schedule sup) (init_state sup T (main_prog [a0; term])) = Some s /\
    forall x, star (xstep C L) (xinit L s) x ->
      (forall acc, x_phase x !! S (S sup) = Some (Reading acc) ->
         (acc ++ default [] (x_pipes x !! 1) ++ to_write (x_phase x !! S (S (S sup))))%list = L) /\
      (forall acc, x_phase x !! S sup = Some (Reading acc) ->
         (forall r, x_phase x !! S (S sup) <> Some (Reading r)) ->
         (acc ++ default [] (x_pipes x !! 0) ++ to_write (x_phase x !! S (S sup)))%list = grep_lines term L).
Proof.
  intros Hlt H0 H1 Hnopipe Hom Hpm Hps Hgrep Hwc.
  destruct (flow_start C sup T a0 term L Hlt H0 ltac:(by eexists) Hom Hpm Hps Hgrep Hwc)
    as (s & Hrun & Habs).
  exists s. split; [done|]. intros x Hstar.
  destruct (flow_reachable C sup T term n1 L _ x H1 Hnopipe Hlt Habs Hstar)
    as (a & (_ & Hph & Hpi & _) & Hinv).
  rewrite !Hph, !Hpi. unfold conc_phase, conc_pipe. repeat case_decide; try lia.
  destruct Hinv as [ps acc b1 Hl | acc b0 r Hl | acc b0 Hl | | | | | sp _]; cbn;
    split; intros acc' Hr; try intros Hg; simplify_eq; try done.
  - by destruct ps.
  - by edestruct Hg.
  - by rewrite app_nil_r.
Qed.

(** C6. Teardown: in every run that cannot go on, no process holds an
    end of any pipe (the spec's "no live channel after teardown") and
    every process of the pipeline has exited. *)
Theorem pipeline_teardown C sup T a0 term n1 L :
  init_pid < sup -> is_Some (T !! 0) -> T !! 1 = Some (DTerm n1) -> pipes_below 0 T ->
  size T + 4 <= open_max C -> 4 <= proc_max C ->
  "ps" ∈ path C -> "grep" ∈ path C -> "wc" ∈ path C ->
  exists s, run C (pipeline_schedule sup) (init_state sup T (main_prog [a0; term])) = Some s /\
    forall x, star (xstep C L) (xinit L s) x -> (forall x', ~ xstep C L x x') ->
      (forall pid fd d, desc_pipe d <> None -> ~ holds (x_k x) pid fd d) /\
      (forall pid q, k_procs (x_k x) !! pid = Some q -> exists st, p_state q = Zombie st).
Proof.
  intros Hlt H0 H1 Hnopipe Hom Hpm Hps Hgrep Hwc.
  destruct (flow_start C sup T a0 term L Hlt H0 ltac:(by eexists) Hom Hpm Hps Hgrep Hwc)
    as (s & Hrun & Habs).
  exists s. split; [done|]. intros x Hstar Hterm.
  destruct (flow_final C sup T term n1 L _ x H1 Hnopipe Hlt Habs Hstar Hterm) as (Hp & _).
  split.
  - intros pid fd d Hd (q & Hq & Hfd). rewrite Hp in Hq.
    by destruct (conc_holds sup T term Hnopipe _ pid q fd d Hq Hfd Hd)
      as [(_ & _ & _ & ?)|[(_ & ? & _)|(_ & ? & _)]].
  - intros pid q Hq. rewrite Hp in Hq. unfold conc_proc in Hq.
    repeat case_decide; simplify_eq; by eexists.
Qed.

(** ** Witnesses

    A listing as [ps aux] prints it while the pipeline runs: its header,
    [init], a shell, the supervisor itself and the three commands of the
    pipeline.  The supervisor's and [grep]'s command lines contain the
    term, so they are always counted. *)
Definition demo_listing (term : string) : list string :=
  ["USER       PID COMMAND"; "root         1 /sbin/init"; "alice     4242 -bash";
   "alice     4306 ./processes " ++ term; "alice     4307 ps aux"; "alice     4308 grep " ++ term;
   "alice     4309 wc -l"].

Lemma pipeline_prints_count_witness :
  count_line (demo_listing "bash") "bash" = "3" /\
  exists s, run demo_config (pipeline_schedule 100)
              (init_state 100 std_fds (main_prog ["processes"; "bash"])) = Some s /\
    forall x, star (xstep demo_config (demo_listing "bash")) (xinit (demo_listing "bash") s) x ->
      (forall x', ~ xstep demo_config (demo_listing "bash") x x') ->
      k_out (x_k x) = [(101, DTerm 1, count_line (demo_listing "bash") "bash" ++ endl);
                       (100, DTerm 1, completion_line)].
Proof.
  split; [vm_compute; reflexivity|].
  exact (pipeline_prints_count demo_config 100 std_fds "processes" "bash" 1 (demo_listing "bash")
           ltac:(vm_compute; lia) ltac:(eexists; reflexivity) eq_refl std_fds_no_pipes
           ltac:(vm_compute; lia) ltac:(vm_compute; lia)
           ltac:(repeat constructor) ltac:(repeat constructor) ltac:(repeat constructor)).
Defined.

Lemma pipeline_teardown_witness :
  exists s, run demo_config (pipeline_schedule 100)
              (init_state 100 std_fds (main_prog ["processes"; "bash"])) = Some s /\
    forall x, star (xstep demo_config (demo_listing "bash")) (xinit (demo_listing "bash") s) x ->
      (forall x', ~ xstep demo_config (demo_listing "bash") x x') ->
      (forall pid fd d, desc_pipe d <> None -> ~ holds (x_k x) pid fd d) /\
      (forall pid q, k_procs (x_k x) !! pid = Some q -> exists st, p_state q = Zombie st).
Proof.
  exact (pipeline_teardown demo_config 100 std_fds "processes" "bash" 1 (demo_listing "bash")
           ltac:(vm_compute; lia) ltac:(eexists; reflexivity) eq_refl std_fds_no_pipes
           ltac:(vm_compute; lia) ltac:(vm_compute; lia)
           ltac:(repeat constructor) ltac:(repeat constructor) ltac:(repeat constructor)).
Defined.

Lemma pipeline_channels_fifo_witness :
  exists s, run demo_config (pipeline_schedule 100)
              (init_state 100 std_fds (main_prog ["processes"; "bash"])) = Some s /\
    forall x, star (xstep demo_config (demo_listing "bash")) (xinit (demo_listing "bash") s) x ->
      (forall acc, x_phase x !! 102 = Some (Reading acc) ->
         (acc ++ default [] (x_pipes x !! 1) ++ to_write (x_phase x !! 103))%list = demo_listing "bash") /\
      (forall acc, x_phase x !! 101 = Some (Reading acc) ->
         (forall r, x_phase x !! 102 <> Some (Reading r)) ->
         (acc ++ default [] (x_pipes x !! 0) ++ to_write (x_phase x !! 102))%list =
           grep_lines "bash" (demo_listing "bash")).
Proof.
  exact (pipeline_channels_fifo demo_config 100 std_fds "processes" "bash" 1 (demo_listing "bash")
           ltac:(vm_compute; lia) ltac:(eexists; reflexivity) eq_refl std_fds_no_pipes
           ltac:(vm_compute; lia) ltac:(vm_compute; lia)
           ltac:(repeat constructor) ltac:(repeat constructor) ltac:(repeat constructor)).
Defined.

End Flow.
