(* ===== verification/GrepMissing.v ===== *)
(** * The pipeline when [grep] is not on [PATH]

    When [execlp("grep", ...)] fails (line 99) the grandchild has already
    rewired its descriptors: it holds the read end of the second pipe as
    standard input and the write end of the first as standard output.  It
    prints its diagnostic (line 100) and exits with status 255 (line 101);
    nothing checks this, and the rest of the pipeline runs on.  [ps] writes
    its listing into the second pipe while the grandchild is alive, and is
    killed by [SIGPIPE] at its first write after the grandchild's exit
    (or exits with status 0 if it had nothing left to write); [wc] sees
    end-of-file on the first pipe once the grandchild has exited, because
    no other process holds its write end, and prints the count 0; the
    supervisor reaps [wc] and prints its completion line.

    This file models that run as a machine of its own ([mstep]: [ps], the
    second pipe, the grandchild's last two calls, [wc], the supervisor),
    with an invariant ([minv]), progress and a measure, and proves that
    the data-flow semantics of [Dataflow], from the state the build
    reaches ([grep_missing_build]), is simulated by it in both
    directions ([mabs_step], [mabs_enabled]). *)

From stdpp Require Import base gmap sets list strings pretty.
From Stdlib Require Import ZArith Lia.
From S2P Require Import Prelude FdTable Syscall Processes Kernel Stages Pipeline Footprint Supervisor Commands Streams Dataflow Flow.

Module GrepMissing.
Import FdTable Syscall Processes Kernel Stages Pipeline Footprint Supervisor Commands Streams
  Dataflow Flow.

Local Open Scope string_scope.

(** What [perror("execlp grep failed")] writes when [errno] is [ENOENT]. *)
Definition grep_diag : string := "execlp grep failed: No such file or directory" ++ endl.

(** The build, the grandchild running its body up to its diagnostic. *)
Definition grep_missing_schedule (sup : nat) : list nat := build_schedule sup 8 6.

(** [ps] writes (the lines left) or has exited (with its status). *)
Inductive pphase := PWrite (rest : list string) | PExited (st : Z).
(** The grandchild: about to write its diagnostic, about to exit, exited. *)
Inductive fphase := FDiag | FExit | FDone.

Record mstate := mkM {
  m_ps : pphase;
  m_b1 : list string;
  m_g : fphase;
  m_w : wphase;
  m_sup : sphase;
  m_out : list (nat * desc * string)
}.

Definition f_alive (g : fphase) : bool := if g is FDone then false else true.
Definition p_alive (ps : pphase) : bool := if ps is PWrite _ then true else false.

Section machine.
  Context (sup : nat) (d1 d2 : desc).

  (** The three lines the terminal receives. *)
Definition diag_entry : nat * desc * string := (S (S sup), d2, grep_diag).
Definition zero_entry : nat * desc * string := (S sup, d1, "0" ++ endl).
Definition done_entry : nat * desc * string := (sup, d1, completion_line).

  (** One step of one process: [ps] writes into the second pipe while the
      grandchild holds its read end, is killed by [SIGPIPE] after, and
      exits when it has written everything; the grandchild writes its
      diagnostic, then exits; [wc] sees end-of-file once the grandchild
      has exited, then writes its count and exits; the supervisor as in
      [Streams]. *)
Inductive mstep : mstate -> mstate -> Prop :=
  | m_ps_write l r b1 g w sp out :
      f_alive g = true ->
      mstep (mkM (PWrite (l :: r)) b1 g w sp out) (mkM (PWrite r) (b1 ++ [l]) g w sp out)
  | m_ps_sigpipe l r b1 w sp out :
      mstep (mkM (PWrite (l :: r)) b1 FDone w sp out) (mkM (PExited sigpipe_status) b1 FDone w sp out)
  | m_ps_exit b1 g w sp out :
      mstep (mkM (PWrite []) b1 g w sp out) (mkM (PExited 0) b1 g w sp out)
  | m_g_diag ps b1 w sp out :
      mstep (mkM ps b1 FDiag w sp out) (mkM ps b1 FExit w sp (out ++ [diag_entry]))
  | m_g_exit ps b1 w sp out :
      mstep (mkM ps b1 FExit w sp out) (mkM ps b1 FDone w sp out)
  | m_w_eof ps b1 sp out :
      mstep (mkM ps b1 FDone (WRead []) sp out) (mkM ps b1 FDone (WWrite (wc_l [])) sp out)
  | m_w_write ps b1 g l r sp out :
      mstep (mkM ps b1 g (WWrite (l :: r)) sp out)
            (mkM ps b1 g (WWrite r) sp (out ++ [(S sup, d1, (l ++ endl)%string)]))
  | m_w_exit ps b1 g sp out :
      mstep (mkM ps b1 g (WWrite []) sp out) (mkM ps b1 g WZombie sp out)
  | m_s_wait ps b1 g out :
      mstep (mkM ps b1 g WZombie SWait out) (mkM ps b1 g WReaped SWrite out)
  | m_s_write ps b1 g w out :
      mstep (mkM ps b1 g w SWrite out) (mkM ps b1 g w SExit (out ++ [done_entry]))
  | m_s_exit ps b1 g w out :
      mstep (mkM ps b1 g w SExit out) (mkM ps b1 g w SDone out).

Definition mstart (L : list string) : mstate := mkM (PWrite L) [] FDiag (WRead []) SWait [].

  (** [ps] exits with status 0 or is killed by [SIGPIPE]. *)
Definition ps_ok (ps : pphase) : Prop :=
  match ps with PExited st => st = 0%Z \/ st = sigpipe_status | PWrite _ => True end.

  (** After the grandchild's exit: [wc]'s and the supervisor's phases
      with the terminal output they go with. *)
Inductive wtail : wphase -> sphase -> list (nat * desc * string) -> Prop :=
  | wt_read : wtail (WRead []) SWait [diag_entry]
  | wt_counted : wtail (WWrite (wc_l [])) SWait [diag_entry]
  | wt_wrote : wtail (WWrite []) SWait [diag_entry; zero_entry]
  | wt_exited : wtail WZombie SWait [diag_entry; zero_entry]
  | wt_reaped : wtail WReaped SWrite [diag_entry; zero_entry]
  | wt_reported sp : sp = SExit \/ sp = SDone -> wtail WReaped sp [diag_entry; zero_entry; done_entry].

  (** The invariant: nothing happens downstream before the grandchild has
      exited, and after, the tail follows in order. *)
Inductive minv : mstate -> Prop :=
  | mi_diag ps b1 : ps_ok ps -> minv (mkM ps b1 FDiag (WRead []) SWait [])
  | mi_exit ps b1 : ps_ok ps -> minv (mkM ps b1 FExit (WRead []) SWait [diag_entry])
  | mi_done ps b1 w sp out : ps_ok ps -> wtail w sp out -> minv (mkM ps b1 FDone w sp out).

Lemma minv_start L : minv (mstart L).
Proof. by constructor. Qed.

Lemma minv_step m m' : minv m -> mstep m m' -> minv m'.
Proof.
  intros Hinv Hs.
  destruct Hinv as [ps b1 Hps | ps b1 Hps | ps b1 w sp out Hps Hw];
    [| | destruct Hw as [| | | | | sp [-> | ->]]]; inversion Hs; subst;
    constructor; cbn; auto; constructor; auto.
Qed.

  (** The final state: [ps] has exited with status 0 or by [SIGPIPE], and
      the terminal shows the diagnostic, the count 0, the completion
      line. *)
Definition mfinal (m : mstate) : Prop :=
  exists st, (st = 0%Z \/ st = sigpipe_status) /\
    m = mkM (PExited st) (m_b1 m) FDone WReaped SDone [diag_entry; zero_entry; done_entry].

Lemma minv_progress m : minv m -> mfinal m \/ exists m', mstep m m'.
Proof.
  intros Hinv.
  destruct Hinv as [[[|l r]|st] b1 Hps | [[|l r]|st] b1 Hps | [[|l r]|st] b1 w sp out Hps Hw];
    try (right; eexists; first [by apply m_ps_write | apply m_ps_exit | apply m_ps_sigpipe
                               | apply m_g_diag | apply m_g_exit]).
  destruct Hw as [| | | | | sp [-> | ->]];
    try (right; eexists; first [apply m_w_eof | apply m_w_write | apply m_w_exit | apply m_s_wait
                               | apply m_s_write | apply m_s_exit]).
  left. by exists st.
Qed.

End machine.

(** The state the build reaches: as on the success path, but the
    grandchild, with [errno] [ENOENT], is about to print its diagnostic. *)
Lemma grep_missing_build C sup T a0 term :
  is_Some (T !! 0) -> is_Some (T !! 1) ->
  size T + 4 <= open_max C -> 4 <= proc_max C ->
  "ps" ∈ path C -> "grep" ∉ path C -> "wc" ∈ path C ->
  exists s k,
    run C (grep_missing_schedule sup) (init_state sup T (main_prog [a0; term])) = Some s /\
    k_procs s !! sup = Some (mkProc init_pid T ENOERR (Running (Wait k))) /\
    k_procs s !! S sup = Some (mkProc sup (wc_table T) ENOERR (Image "wc" ["wc"; "-l"])) /\
    k_procs s !! S (S sup) =
      Some (mkProc (S sup) (grep_table T) ENOENT
                   (Running (Write STDERR_FILENO grep_diag (fun _ => Exit (-1))))) /\
    k_procs s !! S (S (S sup)) = Some (mkProc (S (S sup)) (ps_table T) ENOERR (Image "ps" ["ps"; "aux"])) /\
    dom (k_procs s) = {[sup; S sup; S (S sup); S (S (S sup))]} /\
    k_next_pid s = S (S (S (S sup))) /\ k_next_pipe s = 2 /\ k_out s = [].
Proof.
  intros H0 H1 Hom Hpm Hps Hgrep Hwc.
  apply build_run; [done.. | |]; intros.
  - eapply grandchild_body_exec_fails; eauto. lia.
  - eapply great_grandchild_run; eauto. lia.
Qed.

(** The state of the grandchild and of [ps] in each of their phases. *)
Definition f_state (g : fphase) : pstate :=
  match g with
  | FDiag => Running (Write STDERR_FILENO grep_diag (fun _ => Exit (-1)))
  | FExit => Running (Exit (-1))
  | FDone => Zombie 255
  end.

Definition p_state_of (ps : pphase) : pstate :=
  match ps with PWrite _ => Image "ps" ["ps"; "aux"] | PExited st => Zombie st end.

Section refinement.
  Context (sup : nat) (T : fdtab).

  (** The process table of a state of the machine, as in [Flow] but for
      the grandchild, which runs the program's code and not [grep]. *)
Definition mconc_proc (m : mstate) (i : nat) : option proc :=
  if decide (i = sup) then
    Some (mkProc init_pid (if m_sup m is SDone then ∅ else T) ENOERR (sup_state (m_sup m)))
  else if decide (i = S sup) then
    match m_w m with
    | WRead _ | WWrite _ => Some (mkProc sup (wc_table T) ENOERR (Image "wc" ["wc"; "-l"]))
    | WZombie => Some (mkProc sup ∅ ENOERR (Zombie 0))
    | WReaped => None
    end
  else if decide (i = S (S sup)) then
    Some (mkProc (if w_alive (m_w m) then S sup else init_pid)
                 (if f_alive (m_g m) then grep_table T else ∅) ENOENT (f_state (m_g m)))
  else if decide (i = S (S (S sup))) then
    Some (mkProc (if f_alive (m_g m) then S (S sup) else init_pid)
                 (if p_alive (m_ps m) then ps_table T else ∅) ENOERR (p_state_of (m_ps m)))
  else None.

Definition mconc_phase (m : mstate) (i : nat) : option dphase :=
  if decide (i = S sup) then
    match m_w m with WRead acc => Some (Reading acc) | WWrite r => Some (Writing r) | _ => None end
  else if decide (i = S (S (S sup))) then
    (if m_ps m is PWrite r then Some (Writing r) else None)
  else None.

  (** Nothing is ever written into the first pipe. *)
Definition mconc_pipe (m : mstate) (j : nat) : option (list string) :=
  match j with 0 => Some [] | 1 => Some (m_b1 m) | _ => None end.

Definition mabs (x : xstate) (m : mstate) : Prop :=
  (forall i, k_procs (x_k x) !! i = mconc_proc m i) /\
  (forall i, x_phase x !! i = mconc_phase m i) /\
  (forall j, x_pipes x !! j = mconc_pipe m j) /\
  k_out (x_k x) = m_out m.

Lemma mabs_start (L : list string) s :
  k_procs s !! sup = Some (mkProc init_pid T ENOERR waiting) ->
  k_procs s !! S sup = Some (mkProc sup (wc_table T) ENOERR (Image "wc" ["wc"; "-l"])) ->
  k_procs s !! S (S sup) =
    Some (mkProc (S sup) (grep_table T) ENOENT (Running (Write STDERR_FILENO grep_diag (fun _ => Exit (-1))))) ->
  k_procs s !! S (S (S sup)) = Some (mkProc (S (S sup)) (ps_table T) ENOERR (Image "ps" ["ps"; "aux"])) ->
  dom (k_procs s) = {[sup; S sup; S (S sup); S (S (S sup))]} ->
  k_next_pipe s = 2 -> k_out s = [] ->
  mabs (xinit L s) (mstart L).
Proof.
  intros Hs Hw Hg Hps Hdom Hnp Hout. unfold xinit. split_and!; cbn [x_k x_pipes x_phase].
  - intros i. unfold mconc_proc. repeat case_decide; subst; try done.
    apply (proj1 (not_elem_of_dom _ _)). rewrite Hdom. set_unfold. lia.
  - intros i. rewrite lookup_omap. unfold mconc_phase.
    repeat case_decide; subst; rewrite ?Hw, ?Hps; cbn; try done.
    destruct (decide (i = sup)) as [->|]; [by rewrite Hs|].
    destruct (decide (i = S (S sup))) as [->|]; [by rewrite Hg|].
    by rewrite (proj1 (not_elem_of_dom (k_procs s) i)) by (rewrite Hdom; set_unfold; lia).
  - intros [|[|j]]; rewrite Hnp; cbn; [done | done |].
    by rewrite !lookup_insert_ne, lookup_empty by lia.
  - done.
Qed.

  (** The process table of a state of the machine is wired as [main]
      wires the pipeline, the grandchild holding its table until it
      exits. *)
Lemma mconc_wired m :
  wired sup T (w_alive (m_w m)) (f_alive (m_g m)) (p_alive (m_ps m)) (mconc_proc m).
Proof.
  unfold mconc_proc. split_and!.
  - intros i q Hq. repeat case_decide; subst; try discriminate; repeat case_match; simplify_eq/=;
      naive_solver.
  - intros Hw. rewrite decide_False, decide_True by lia. destruct (m_w m); try discriminate; by eexists.
  - intros Hg. rewrite decide_False, decide_False, decide_True by lia. rewrite Hg. by eexists.
  - intros Hps. rewrite decide_False, decide_False, decide_False, decide_True by lia. rewrite Hps.
    by eexists.
Qed.

Section holders.
  Hypothesis (Hnopipe : pipes_below 0 T).

Lemma mwrite_open x m p :
  mabs x m -> write_open (x_k x) p <->
  (p = 0 /\ f_alive (m_g m) = true) \/ (p = 1 /\ p_alive (m_ps m) = true).
Proof. intros (Hp & _). exact (wired_write_open sup T Hnopipe _ _ _ _ x p (mconc_wired m) Hp). Qed.

Lemma mread_open x m p :
  mabs x m -> read_open (x_k x) p <->
  (p = 0 /\ w_alive (m_w m) = true) \/ (p = 1 /\ f_alive (m_g m) = true).
Proof. intros (Hp & _). exact (wired_read_open sup T Hnopipe _ _ _ _ x p (mconc_wired m) Hp). Qed.
End holders.
(** Equality of the lookups of a new state with those of its abstraction,
    key by key. *)
Ltac mconc_ext H := conc_ext_by H ltac:(unfold mconc_proc, mconc_phase, mconc_pipe).

(** A lookup in a state at one of the four pids of the pipeline. *)
Ltac mlook_tac Hp Hph Hpi :=
  first [rewrite Hp; unfold mconc_proc | rewrite Hph; unfold mconc_phase | rewrite Hpi];
  repeat case_decide; try lia; cbn; reflexivity.

Section simulation.
  Context (C : config) (L : list string) (n1 : nat) (d2 : desc).
  Hypothesis (HT1 : T !! 1 = Some (DTerm n1)) (HT2 : T !! 2 = Some d2) (Hw2 : writable d2 = true).
  Hypothesis (Hnopipe : pipes_below 0 T) (Hsup : init_pid < sup).

Lemma mconc_zombie_child m c qc st :
  mconc_proc m c = Some qc -> p_ppid qc = sup -> p_state qc = Zombie st ->
  c = S sup /\ m_w m = WZombie.
Proof.
  intros Hc Hpp Hst. unfold mconc_proc in Hc.
  repeat case_decide; try subst c; try discriminate; repeat case_match; try discriminate;
    injection Hc as <-; cbn in *; unfold init_pid in *; try lia; by simplify_eq.
Qed.

Lemma mconc_wc_child x m :
  (forall i, k_procs (x_k x) !! i = mconc_proc m i) -> m_w m <> WReaped ->
  children (k_procs (x_k x)) sup <> ∅.
Proof.
  intros Hp Hw.
  assert (exists q, k_procs (x_k x) !! S sup = Some q /\ p_ppid q = sup) as (q & Hq & Hpp).
  { rewrite Hp. unfold mconc_proc. rewrite decide_False, decide_True by lia.
    destruct (m_w m); try done; by eexists. }
  by eapply children_nonempty.
Qed.

Lemma mconc_phase_pids m i ph :
  mconc_phase m i = Some ph -> i = S sup \/ i = S (S (S sup)).
Proof. unfold mconc_phase. intros H. repeat case_decide; auto; discriminate. Qed.

Lemma mconc_at_wc m :
  mconc_proc m (S sup) = match m_w m with
                         | WRead _ | WWrite _ => Some (mkProc sup (wc_table T) ENOERR (Image "wc" ["wc"; "-l"]))
                         | WZombie => Some (mkProc sup ∅ ENOERR (Zombie 0))
                         | WReaped => None
                         end /\
  mconc_phase m (S sup) = match m_w m with
                          | WRead acc => Some (Reading acc) | WWrite r => Some (Writing r) | _ => None
                          end.
Proof. unfold mconc_proc, mconc_phase. repeat case_decide; try lia; auto. Qed.

Lemma mconc_at_ps m :
  mconc_proc m (S (S (S sup))) =
    Some (mkProc (if f_alive (m_g m) then S (S sup) else init_pid)
                 (if p_alive (m_ps m) then ps_table T else ∅) ENOERR (p_state_of (m_ps m))) /\
  mconc_phase m (S (S (S sup))) = (if m_ps m is PWrite r then Some (Writing r) else None).
Proof. unfold mconc_proc, mconc_phase. repeat case_decide; try lia; auto. Qed.

Lemma grep_table_stderr : grep_table T !! 2 = Some d2.
Proof. unfold grep_table. by simplify_map_eq. Qed.

  (** A call of the supervisor or of the grandchild is a step of the
      machine. *)
Lemma mabs_call x m pid k' :
  mabs x m -> minv sup (DTerm n1) d2 m -> step_proc C (x_k x) pid = Some k' ->
  exists m', mstep sup (DTerm n1) d2 m m' /\ mabs (mkX k' (x_pipes x) (x_phase x)) m'.
Proof.
  intros HR Hinv Hst. pose proof HR as (Hp & Hph & Hpi & Ho).
  unfold step_proc in Hst. rewrite Hp in Hst. unfold mconc_proc in Hst.
  destruct (decide (pid = sup)) as [->|Hne].
  2: { destruct m as [ps b1 g w sp out]. destruct (decide (pid = S (S sup))) as [->|Hne2].
       - repeat (case_decide; try lia). destruct g; cbn -[do_write proc_exit] in Hst;
           [| | discriminate]; injection Hst as <-.
         + erewrite do_write_ok; [| apply fd_index_stderr | apply grep_table_stderr | exact Hw2].
           eexists. split; [apply m_g_diag|].
           split_and!; [mconc_ext Hp | mconc_ext Hph | mconc_ext Hpi | cbn; by rewrite Ho].
         + eexists. split; [apply m_g_exit|].
           destruct w; (split_and!; [mconc_ext Hp | mconc_ext Hph | mconc_ext Hpi | done]).
       - repeat case_decide; cbn in Hst; try discriminate; destruct w, ps; cbn in Hst; discriminate. }
  assert (forall c qc st, k_procs (x_k x) !! c = Some qc -> p_ppid qc = sup ->
            p_state qc = Zombie st -> c = S sup /\ m_w m = WZombie) as Hz.
  { intros c qc st Hc. rewrite Hp in Hc. by apply mconc_zombie_child. }
  pose proof (mconc_wc_child x m Hp) as Hkid.
  destruct Hinv as [ps b1 Hps | ps b1 Hps | ps b1 w sp out Hps Hw];
    [| | destruct Hw as [| | | | | sp [-> | ->]]];
    cbn -[do_write do_wait proc_exit] in Hst, Hz, Hkid.
  1-5: apply do_wait_cases in Hst as [[Hemp _]|(c & qc & st & Hc & Hpp & Hzs & _)];
    exfalso; [by apply Hkid | destruct (Hz c qc st Hc Hpp Hzs) as [_ ?]; discriminate].
  - apply do_wait_cases in Hst as [[Hemp _]|(c & qc & st & Hc & Hpp & Hzs & ->)]; [exfalso; by apply Hkid|].
    destruct (Hz c qc st Hc Hpp Hzs) as [-> _].
    eexists. split; [constructor|].
    split_and!; [mconc_ext Hp | mconc_ext Hph | mconc_ext Hpi | done].
  - injection Hst as <-. erewrite do_write_ok; [| apply fd_index_stdout | exact HT1 | done].
    eexists. split; [constructor|].
    split_and!; [mconc_ext Hp | mconc_ext Hph | mconc_ext Hpi | cbn; by rewrite Ho].
  - injection Hst as <-. eexists. split; [constructor|].
    split_and!; [mconc_ext Hp | mconc_ext Hph | mconc_ext Hpi | done].
  - discriminate.
Qed.
  (** Each step of the data-flow semantics is a step of the machine:
      [wc] reads nothing (the first pipe stays empty) and sees end-of-file
      only after the grandchild's exit; [ps] writes while the grandchild
      holds the read end of the second pipe and is killed by [SIGPIPE]
      after. *)
Lemma mabs_step x m x' :
  mabs x m -> minv sup (DTerm n1) d2 m -> xstep C L x x' ->
  exists m', mstep sup (DTerm n1) d2 m m' /\ mabs x' m'.
Proof.
  intros HR Hinv Hs. pose proof HR as (Hp & Hph & Hpi & Ho).
  pose proof (fun p => mwrite_open Hnopipe x m p HR) as Hwopen.
  pose proof (fun p => mread_open Hnopipe x m p HR) as Hropen.
  pose proof (table_lookups T n1 HT1) as (Tw0 & Tw1 & Tg0 & Tg1 & Tp1).
  destruct Hs as [x pid k' Hst|x pid q file argv acc p l rest Hq Hst Hphx Hfd Hb
                 |x pid q file argv c acc p Hq Hst Hc Hphx Hfd Hb Hwo
                 |x pid q file argv l rest p b Hq Hst Hphx Hfd Hb Hro
                 |x pid q file argv l rest p Hq Hst Hphx Hfd Hro
                 |x pid q file argv l rest n Hq Hst Hphx Hfd|x pid q file argv Hq Hst Hphx];
    [by eapply mabs_call|..];
    rewrite Hph in Hphx; rewrite Hp in Hq;
    (destruct (mconc_phase_pids m pid _ Hphx) as [-> | ->];
     [destruct (mconc_at_wc m) as [E1 E2] | destruct (mconc_at_ps m) as [E1 E2]];
     rewrite E1 in Hq; rewrite E2 in Hphx; clear E1 E2);
    destruct Hinv as [[r0|st] b1 _|[r0|st] b1 _|[r0|st] b1 w sp out _ Hw];
    try destruct Hw as [| | | | | sp [-> | ->]];
    cbn in Hq, Hphx; simplify_eq; cbn in Hst; simplify_eq;
    try (rewrite ?cmd_of_wc in Hc; simplify_eq);
    try (cbn in Hfd; rewrite ?Tw0, ?Tw1, ?Tp1 in Hfd; simplify_eq);
    try (rewrite Hpi in Hb; cbn in Hb; simplify_eq);
    try (rewrite Hwopen in Hwo; cbn in Hwo);
    try (rewrite Hropen in Hro; cbn in Hro);
    try (exfalso; apply Hwo; by auto); try (exfalso; apply Hro; by auto);
    try (destruct Hro as [[? ?]|[? ?]]; discriminate).
  all: lazymatch goal with
       | |- exists _, _ /\ mabs (mkX _ _ (<[_ := Writing (cmd_output _ _ _)]> _)) _ =>
           eexists; split; [apply m_w_eof |]
       | |- exists _, _ /\ mabs (mkX _ (<[_ := _]> _) _) _ =>
           eexists; split; [apply m_ps_write; done |]
       | |- exists _, _ /\ mabs (mkX (log_write _ _) _ _) _ =>
           eexists; split; [apply m_w_write |]
       | |- exists _, _ /\ mabs (mkX (proc_exit _ _ _ _) _ _) _ =>
           eexists; split; [first [apply m_ps_exit | apply m_ps_sigpipe | apply m_w_exit] |]
       end.
  all: split_and!; [mconc_ext Hp | mconc_ext Hph | mconc_ext Hpi | cbn; by rewrite Ho].
Qed.
  (** Each step of the machine is enabled in the data-flow semantics. *)
Lemma mabs_enabled x m m' :
  mabs x m -> mstep sup (DTerm n1) d2 m m' -> exists x', xstep C L x x'.
Proof.
  intros HR Hs. pose proof HR as (Hp & Hph & Hpi & Ho).
  pose proof (fun p => mwrite_open Hnopipe x m p HR) as Hwopen.
  pose proof (fun p => mread_open Hnopipe x m p HR) as Hropen.
  pose proof (table_lookups T n1 HT1) as (Tw0 & Tw1 & Tg0 & Tg1 & Tp1).
  destruct Hs; cbn in Hwopen, Hropen.
  - eexists. eapply (xs_write_pipe C L x (S (S (S sup))));
      [mlook_tac Hp Hph Hpi | reflexivity | mlook_tac Hp Hph Hpi | exact Tp1
      | mlook_tac Hp Hph Hpi | apply Hropen; right; by split].
  - eexists. eapply (xs_sigpipe C L x (S (S (S sup))));
      [mlook_tac Hp Hph Hpi | reflexivity | mlook_tac Hp Hph Hpi | exact Tp1
      | rewrite Hropen; intros [[? _]|[_ ?]]; discriminate].
  - eexists. eapply (xs_exit C L x (S (S (S sup)))); [mlook_tac Hp Hph Hpi | reflexivity | mlook_tac Hp Hph Hpi].
  - eexists. apply (xs_call C L x (S (S sup))). unfold step_proc. rewrite Hp. unfold mconc_proc.
    repeat case_decide; try lia. reflexivity.
  - eexists. apply (xs_call C L x (S (S sup))). unfold step_proc. rewrite Hp. unfold mconc_proc.
    repeat case_decide; try lia. reflexivity.
  - eexists. eapply (xs_eof C L x (S sup));
      [mlook_tac Hp Hph Hpi | reflexivity | apply cmd_of_wc | mlook_tac Hp Hph Hpi | exact Tw0
      | mlook_tac Hp Hph Hpi | rewrite Hwopen; intros [[_ ?]|[? _]]; discriminate].
  - eexists. eapply (xs_write_term C L x (S sup));
      [mlook_tac Hp Hph Hpi | reflexivity | mlook_tac Hp Hph Hpi | exact Tw1].
  - eexists. eapply (xs_exit C L x (S sup)); [mlook_tac Hp Hph Hpi | reflexivity | mlook_tac Hp Hph Hpi].
  - assert (k_procs (x_k x) !! S sup = Some (mkProc sup ∅ ENOERR (Zombie 0))) as Hw
      by mlook_tac Hp Hph Hpi.
    destruct (do_wait_some (x_k x) sup (mkProc init_pid T ENOERR waiting)
                         (fun _ => Write STDOUT_FILENO completion_line (fun _ => Exit 0%Z))
                         (S sup) _ 0 Hw eq_refl eq_refl)
      as [s' Hs'].
    exists (mkX s' (x_pipes x) (x_phase x)). apply (xs_call C L x sup s').
    rewrite (step_wait C _ sup (mkProc init_pid T ENOERR waiting)
                       (fun _ => Write STDOUT_FILENO completion_line (fun _ => Exit 0%Z)));
      [exact Hs' | mlook_tac Hp Hph Hpi | reflexivity].
  - eexists. apply (xs_call C L x sup). unfold step_proc. rewrite Hp. unfold mconc_proc.
    rewrite decide_True by done. reflexivity.
  - eexists. apply (xs_call C L x sup). unfold step_proc. rewrite Hp. unfold mconc_proc.
    rewrite decide_True by done. reflexivity.
Qed.
End simulation.
End refinement.

(** The build under [grep_missing_schedule] reaches a state whose
    data-flow extension is the start of the machine. *)
Lemma gm_start C sup T a0 term L :
  init_pid < sup -> is_Some (T !! 0) -> is_Some (T !! 1) ->
  size T + 4 <= open_max C -> 4 <= proc_max C ->
  "ps" ∈ path C -> "grep" ∉ path C -> "wc" ∈ path C ->
  exists s, run C (grep_missing_schedule sup) (init_state sup T (main_prog [a0; term])) = Some s /\
    mabs sup T (xinit L s) (mstart L).
Proof.
  intros Hlt H0 H1 Hom Hpm Hps Hgrep Hwc.
  destruct (grep_missing_build C sup T a0 term H0 H1 Hom Hpm Hps Hgrep Hwc)
    as (s & k & Hrun & Hsup & Hc & Hg & Hgg & Hdom & Hnpid & Hnp & Hout).
  exists s. split; [done|].
  pose proof (sup_inv_reachable sup term Hlt C T a0 s (run_star _ _ _ _ Hrun))
    as (_ & _ & q & Hq & _ & [(Hn & _)|[(Hst & _)|(_ & Hnone & _)]]); [lia | | congruence].
  rewrite Hsup in Hq. injection Hq as <-. cbn in Hst. rewrite Hst in Hsup.
  by apply mabs_start.
Qed.

Section runs.
  Context (C : config) (sup : nat) (T : fdtab) (n1 : nat) (d2 : desc) (L : list string).
  Hypothesis (HT1 : T !! 1 = Some (DTerm n1)) (HT2 : T !! 2 = Some d2) (Hw2 : writable d2 = true).
  Hypothesis (Hnopipe : pipes_below 0 T) (Hsup : init_pid < sup).

  (** Every state a run from the start of the machine reaches is the image
      of a state of the invariant. *)
Lemma gm_reachable x0 x :
  mabs sup T x0 (mstart L) -> star (xstep C L) x0 x ->
  exists m, mabs sup T x m /\ minv sup (DTerm n1) d2 m.
Proof.
  intros Habs Hstar.
  assert (forall x m x', mabs sup T x m -> minv sup (DTerm n1) d2 m -> xstep C L x x' ->
            exists m', mstep sup (DTerm n1) d2 m m' /\ mabs sup T x' m') as Hsim
    by (intros; eapply mabs_step; eauto).
  destruct (star_sim (xstep C L) (mstep sup (DTerm n1) d2) (mabs sup T) (minv sup (DTerm n1) d2)
              (minv_step sup (DTerm n1) d2) Hsim _ _ _ Hstar Habs (minv_start _ _ _ _))
    as (m & _ & ? & ?).
  by exists m.
Qed.

  (** Where every run from the start of the machine ends. *)
Lemma gm_final x0 x :
  mabs sup T x0 (mstart L) -> star (xstep C L) x0 x -> (forall x', ~ xstep C L x x') ->
  exists m, mabs sup T x m /\ mfinal sup (DTerm n1) d2 m.
Proof.
  intros Habs Hstar Hterm.
  destruct (gm_reachable x0 x Habs Hstar) as (m & Hxm & Hinv).
  destruct (minv_progress sup (DTerm n1) d2 m Hinv) as [Hf | [m' Hm']]; [by exists m|].
  destruct (mabs_enabled sup T C L n1 d2 HT1 Hnopipe Hsup x m m' Hxm Hm') as [x' Hx'].
  by destruct (Hterm x').
Qed.
End runs.

(** C20. When [grep] is not on [PATH] (and the rest of the build
    succeeds, the invoker's standard output being a terminal), every run
    of the system that cannot go on, in any interleaving and whatever [ps]
    lists, has written exactly three lines: the grandchild's diagnostic on
    its standard error, then [wc]'s count 0, then the supervisor's
    completion line; the supervisor has exited with status 0, the
    grandchild with status 255, and [ps] with status 0 or killed by
    [SIGPIPE].  The failure of the middle stage reaches neither the
    supervisor's status nor its notice, and the count it prints is the
    count of a term that matches nothing. *)
Theorem grep_missing_reports C sup T a0 term n1 d2 L :
  init_pid < sup -> is_Some (T !! 0) -> T !! 1 = Some (DTerm n1) ->
  T !! 2 = Some d2 -> writable d2 = true -> pipes_below 0 T ->
  size T + 4 <= open_max C -> 4 <= proc_max C ->
  "ps" ∈ path C -> "grep" ∉ path C -> "wc" ∈ path C ->
  exists s, run C (grep_missing_schedule sup) (init_state sup T (main_prog [a0; term])) = Some s /\
    forall x, star (xstep C L) (xinit L s) x -> (forall x', ~ xstep C L x x') ->
      k_out (x_k x) = [(S (S sup), d2, grep_diag); (S sup, DTerm n1, "0" ++ endl);
                       (sup, DTerm n1, completion_line)] /\
      k_procs (x_k x) !! sup = Some (mkProc init_pid ∅ ENOERR (Zombie 0)) /\
      k_procs (x_k x) !! S (S sup) = Some (mkProc init_pid ∅ ENOENT (Zombie 255)) /\
      exists st, (st = 0%Z \/ st = sigpipe_status) /\
        k_procs (x_k x) !! S (S (S sup)) = Some (mkProc init_pid ∅ ENOERR (Zombie st)).
Proof.
  intros Hlt H0 H1 H2 Hw2 Hnopipe Hom Hpm Hps Hgrep Hwc.
  destruct (gm_start C sup T a0 term L Hlt H0 ltac:(by eexists) Hom Hpm Hps Hgrep Hwc)
    as (s & Hrun & Habs).
  exists s. split; [done|]. intros x Hstar Hterm.
  destruct (gm_final C sup T n1 d2 L H1 H2 Hw2 Hnopipe Hlt _ x Habs Hstar Hterm)
    as (m & (Hp & _ & _ & Ho) & st & Hst & Em).
  rewrite Em in Hp, Ho. split_and!; [done | | | exists st; split; [done|]];
    rewrite Hp; unfold mconc_proc; repeat case_decide; try lia; reflexivity.
Qed.

(** The witnesses: a [PATH] without [grep], the standard descriptors of
    a terminal, the listing of [Flow]. *)
Definition no_grep_config : config := mkConfig 1024 4096 ["ps"; "wc"].

Lemma grep_missing_reports_witness :
  exists s, run no_grep_config (grep_missing_schedule 100)
              (init_state 100 std_fds (main_prog ["processes"; "bash"])) = Some s /\
    forall x, star (xstep no_grep_config (demo_listing "bash")) (xinit (demo_listing "bash") s) x ->
      (forall x', ~ xstep no_grep_config (demo_listing "bash") x x') ->
      k_out (x_k x) = [(102, DTerm 2, grep_diag); (101, DTerm 1, "0" ++ endl);
                       (100, DTerm 1, completion_line)] /\
      k_procs (x_k x) !! 100 = Some (mkProc init_pid ∅ ENOERR (Zombie 0)) /\
      k_procs (x_k x) !! 102 = Some (mkProc init_pid ∅ ENOENT (Zombie 255)) /\
      exists st, (st = 0%Z \/ st = sigpipe_status) /\
        k_procs (x_k x) !! 103 = Some (mkProc init_pid ∅ ENOERR (Zombie st)).
Proof.
  exact (grep_missing_reports no_grep_config 100 std_fds "processes" "bash" 1 (DTerm 2)
           (demo_listing "bash") ltac:(vm_compute; lia) ltac:(eexists; reflexivity) eq_refl
           eq_refl eq_refl std_fds_no_pipes ltac:(vm_compute; lia) ltac:(vm_compute; lia)
           ltac:(repeat constructor) ltac:(vm_compute; set_solver) ltac:(repeat constructor)).
Defined.

End GrepMissing.
