(* ===== verification/PsMissing.v ===== *)
(** * The pipeline when [ps] is not on [PATH]

    When [execlp("ps", ...)] fails (line 88), the great-grandchild has
    already closed every pipe end but the write end of the second pipe,
    which it holds as standard output.  It prints its diagnostic (line 89)
    and exits with status 255 (line 90).  Everything after is forced: the
    second pipe then has no writer left ([grep]'s process closed its copy
    at line 93), so [grep] sees end-of-file, writes nothing and exits; the
    first pipe then has no writer left, so [wc] sees end-of-file and
    prints the count 0; the supervisor reaps [wc] and prints its
    completion line.  Each process waits for the one before it, so the run
    is one sequence of ten steps, whatever the scheduler does.

    The states of that sequence are [qconc_proc], [qconc_phase],
    [qconc_pipe] and [qconc_out] at [n = 0 .. 10]; [qabs x n] says that the
    data-flow state [x] is the [n]-th.  Every step from the [n]-th state
    leads to the [(n+1)]-th ([qabs_step]), and the [n]-th has a step when
    [n < 10] ([qabs_enabled]). *)

From stdpp Require Import base gmap sets list strings pretty relations.
From Stdlib Require Import ZArith Lia.
From S2P Require Import Prelude FdTable Syscall Processes Kernel Stages Pipeline Footprint Supervisor Commands Streams Dataflow Flow.

Module PsMissing.
Import FdTable Syscall Processes Kernel Stages Pipeline Footprint Supervisor Commands Streams
  Dataflow Flow.

(** What [perror("execlp ps failed")] writes when [errno] is [ENOENT]. *)
Definition ps_diag : string := ("execlp ps failed: No such file or directory" ++ endl)%string.

(** The build, the great-grandchild running its body up to its
    diagnostic. *)
Definition ps_missing_schedule (sup : nat) : list nat := build_schedule sup 7 7.

(** The state the build reaches: as on the success path, but the
    great-grandchild, with [errno] [ENOENT], is about to print its
    diagnostic. *)
Lemma ps_missing_build C sup T a0 term :
  is_Some (T !! 0) -> is_Some (T !! 1) ->
  size T + 4 <= open_max C -> 4 <= proc_max C ->
  "ps" ∉ path C -> "grep" ∈ path C -> "wc" ∈ path C ->
  exists s k,
    run C (ps_missing_schedule sup) (init_state sup T (main_prog [a0; term])) = Some s /\
    k_procs s !! sup = Some (mkProc init_pid T ENOERR (Running (Wait k))) /\
    k_procs s !! S sup = Some (mkProc sup (wc_table T) ENOERR (Image "wc" ["wc"; "-l"])) /\
    k_procs s !! S (S sup) = Some (mkProc (S sup) (grep_table T) ENOERR (Image "grep" ["grep"; term])) /\
    k_procs s !! S (S (S sup)) =
      Some (mkProc (S (S sup)) (ps_table T) ENOENT
                   (Running (Write STDERR_FILENO ps_diag (fun _ => Exit (-1))))) /\
    dom (k_procs s) = {[sup; S sup; S (S sup); S (S (S sup))]} /\
    k_next_pid s = S (S (S (S sup))) /\ k_next_pipe s = 2 /\ k_out s = [].
Proof.
  intros H0 H1 Hom Hpm Hps Hgrep Hwc.
  apply build_run; [done.. | |]; intros.
  - eapply grandchild_body_run; eauto. lia.
  - eapply great_grandchild_exec_fails; eauto. lia.
Qed.

(** The great-grandchild's state: about to write its diagnostic, about
    to exit, exited. *)
Definition q_state (n : nat) : pstate :=
  match n with
  | 0 => Running (Write STDERR_FILENO ps_diag (fun _ => Exit (-1)))
  | 1 => Running (Exit (-1))
  | _ => Zombie 255
  end.

(** The supervisor's point: in [wait] until [wc] is reaped (step 7),
    then the completion line (8), then [exit] (9). *)
Definition q_sup (n : nat) : sphase :=
  if n <? 8 then SWait else if n =? 8 then SWrite else if n =? 9 then SExit else SDone.

Section trace.
  Context (sup : nat) (T : fdtab) (term : string) (d1 d2 : desc).

  (** The process table after [n] steps: the great-grandchild exits at
      step 2, [grep] at step 4, [wc] at step 7 and is reaped at step 8. *)
Definition qconc_proc (n : nat) (i : nat) : option proc :=
  if decide (i = sup) then
    Some (mkProc init_pid (if n <? 10 then T else ∅) ENOERR (sup_state (q_sup n)))
  else if decide (i = S sup) then
    (if n <? 7 then Some (mkProc sup (wc_table T) ENOERR (Image "wc" ["wc"; "-l"]))
     else if n =? 7 then Some (mkProc sup ∅ ENOERR (Zombie 0)) else None)
  else if decide (i = S (S sup)) then
    Some (mkProc (if n <? 7 then S sup else init_pid) (if n <? 4 then grep_table T else ∅) ENOERR
                 (if n <? 4 then Image "grep" ["grep"; term] else Zombie 0))
  else if decide (i = S (S (S sup))) then
    Some (mkProc (if n <? 4 then S (S sup) else init_pid) (if n <? 2 then ps_table T else ∅) ENOENT
                 (q_state n))
  else None.

  (** [grep] reads until step 3, when it has nothing to write; [wc] reads
      until step 5, then writes its count. *)
Definition qconc_phase (n : nat) (i : nat) : option dphase :=
  if decide (i = S sup) then
    (if n <? 5 then Some (Reading []) else if n =? 5 then Some (Writing (wc_l []))
     else if n =? 6 then Some (Writing []) else None)
  else if decide (i = S (S sup)) then
    (if n <? 3 then Some (Reading []) else if n =? 3 then Some (Writing []) else None)
  else None.

  (** Nothing is ever written into either pipe. *)
Definition qconc_pipe (j : nat) : option (list string) :=
  match j with 0 | 1 => Some [] | _ => None end.

Definition pd_entry : nat * desc * string := (S (S (S sup)), d2, ps_diag).
Definition zero_entry : nat * desc * string := (S sup, d1, ("0" ++ endl)%string).
Definition done_entry : nat * desc * string := (sup, d1, completion_line).

Definition qconc_out (n : nat) : list (nat * desc * string) :=
  if n =? 0 then [] else if n <? 6 then [pd_entry]
  else if n <? 9 then [pd_entry; zero_entry] else [pd_entry; zero_entry; done_entry].

Definition qabs (x : xstate) (n : nat) : Prop :=
  n <= 10 /\
  (forall i, k_procs (x_k x) !! i = qconc_proc n i) /\
  (forall i, x_phase x !! i = qconc_phase n i) /\
  (forall j, x_pipes x !! j = qconc_pipe j) /\
  k_out (x_k x) = qconc_out n.

  (** The table after [n] steps is wired, [wc] holding its table until
      step 7, [grep] until step 4 and [ps]'s process until step 2. *)
Lemma qconc_wired n : wired sup T (n <? 7) (n <? 4) (n <? 2) (qconc_proc n).
Proof.
  unfold qconc_proc. split_and!.
  - intros i q Hq. repeat case_decide; subst; try discriminate; repeat case_match; simplify_eq/=;
      naive_solver.
  - intros Hw. rewrite decide_False, decide_True by lia. rewrite Hw. by eexists.
  - intros Hg. rewrite decide_False, decide_False, decide_True by lia. rewrite Hg. by eexists.
  - intros Hps. rewrite decide_False, decide_False, decide_False, decide_True by lia. rewrite Hps.
    by eexists.
Qed.
End trace.

Ltac qconc_ext H := conc_ext_by H ltac:(unfold qconc_proc, qconc_phase, qconc_pipe).
(** The eleven values of a step count at most 10. *)
Ltac cases_upto_10 n Hn :=
  destruct n as [|[|[|[|[|[|[|[|[|[|[|n]]]]]]]]]]]; [.. | exfalso; lia].

Section steps.
  Context (C : config) (L : list string) (sup : nat) (T : fdtab) (term : string) (n1 : nat) (d2 : desc).
  Hypothesis (HT1 : T !! 1 = Some (DTerm n1)) (HT2 : T !! 2 = Some d2) (Hw2 : writable d2 = true).
  Hypothesis (Hnopipe : pipes_below 0 T) (Hsup : init_pid < sup).

  (** The only child of the supervisor is [wc], a zombie at step 7 only. *)
Lemma q_zombie_child n c qc st :
  qconc_proc sup T term n c = Some qc -> p_ppid qc = sup -> p_state qc = Zombie st ->
  c = S sup /\ n = 7.
Proof.
  intros Hc Hpp Hst. unfold qconc_proc in Hc.
  repeat case_decide; try subst c; try discriminate; repeat case_match; try discriminate;
    injection Hc as <-; cbn in *; unfold init_pid in *; try lia; simplify_eq;
    split; [done | by apply Nat.eqb_eq].
Qed.

Lemma q_wc_child x n :
  (forall i, k_procs (x_k x) !! i = qconc_proc sup T term n i) -> n < 8 ->
  children (k_procs (x_k x)) sup <> ∅.
Proof.
  intros Hp Hn.
  assert (exists q, k_procs (x_k x) !! S sup = Some q /\ p_ppid q = sup) as (q & Hq & Hpp).
  { rewrite Hp. unfold qconc_proc. rewrite decide_False, decide_True by lia.
    repeat case_match; try (by eexists); apply Nat.ltb_ge in H; apply Nat.eqb_neq in H0; lia. }
  by eapply children_nonempty.
Qed.

Lemma ps_table_stderr : ps_table T !! 2 = Some d2.
Proof. unfold ps_table. by simplify_map_eq. Qed.

  (** A call of the supervisor or of the great-grandchild leads from the
      [n]-th state to the next. *)
Lemma qabs_call x n pid k' :
  qabs sup T term (DTerm n1) d2 x n -> step_proc C (x_k x) pid = Some k' ->
  n < 10 /\ qabs sup T term (DTerm n1) d2 (mkX k' (x_pipes x) (x_phase x)) (S n).
Proof.
  intros (Hn & Hp & Hph & Hpi & Ho) Hst.
  assert (forall c qc st, k_procs (x_k x) !! c = Some qc -> p_ppid qc = sup ->
            p_state qc = Zombie st -> c = S sup /\ n = 7) as Hz.
  { intros c qc st Hc. rewrite Hp in Hc. by apply q_zombie_child. }
  pose proof (q_wc_child x n Hp) as Hkid.
  unfold step_proc in Hst. rewrite Hp in Hst. unfold qconc_proc in Hst.
  destruct (decide (pid = sup)) as [->|Hne].
  - cases_upto_10 n Hn; cbn -[do_write do_wait proc_exit] in Hst;
      try (apply do_wait_cases in Hst as [[Hemp _]|(c & qc & st & Hc & Hpp & Hzs & Hk)];
           [exfalso; apply Hkid; [lia | done] | destruct (Hz c qc st Hc Hpp Hzs) as [-> ?];
                                                 try discriminate; subst k']);
      try discriminate; try (injection Hst as <-);
      try erewrite do_write_ok by (done || apply fd_index_stdout);
      (split; [lia|]);
      (split_and!; [lia | qconc_ext Hp | qconc_ext Hph | qconc_ext Hpi | cbn; rewrite Ho; reflexivity]).
  - repeat case_decide; try subst pid; try discriminate; cases_upto_10 n Hn;
      cbn -[do_write proc_exit] in Hst; try discriminate; injection Hst as <-;
      try erewrite do_write_ok by (apply fd_index_stderr || apply ps_table_stderr || done);
      (split; [lia|]);
      (split_and!; [lia | qconc_ext Hp | qconc_ext Hph | qconc_ext Hpi | cbn; rewrite Ho; reflexivity]).
Qed.
  (** Every step of the data-flow semantics leads from the [n]-th state
      to the next: [grep] and [wc] can only see end-of-file, and only once
      the process before them has exited. *)
Lemma qabs_step x n x' :
  qabs sup T term (DTerm n1) d2 x n -> xstep C L x x' ->
  n < 10 /\ qabs sup T term (DTerm n1) d2 x' (S n).
Proof.
  intros HR Hs. pose proof HR as (Hn & Hp & Hph & Hpi & Ho).
  pose proof (fun p => wired_write_open sup T Hnopipe _ _ _ _ x p (qconc_wired sup T term n) Hp) as Hwopen.
  pose proof (fun p => wired_read_open sup T Hnopipe _ _ _ _ x p (qconc_wired sup T term n) Hp) as Hropen.
  pose proof (table_lookups T n1 HT1) as (Tw0 & Tw1 & Tg0 & Tg1 & Tp1).
  destruct Hs as [x pid k' Hst|x pid q file argv acc p l rest Hq Hst Hphx Hfd Hb
                 |x pid q file argv c acc p Hq Hst Hc Hphx Hfd Hb Hwo
                 |x pid q file argv l rest p b Hq Hst Hphx Hfd Hb Hro
                 |x pid q file argv l rest p Hq Hst Hphx Hfd Hro
                 |x pid q file argv l rest n' Hq Hst Hphx Hfd|x pid q file argv Hq Hst Hphx];
    [by eapply qabs_call|..];
    rewrite Hph in Hphx; rewrite Hp in Hq; unfold qconc_phase in Hphx; unfold qconc_proc in Hq;
    repeat case_decide; try subst pid; try discriminate; try lia;
    cases_upto_10 n Hn; cbn in Hq, Hphx, Hwopen, Hropen; simplify_eq; cbn in Hst; simplify_eq;
    try (rewrite ?cmd_of_wc, ?cmd_of_grep in Hc; simplify_eq);
    try (cbn in Hfd; rewrite ?Tw0, ?Tw1, ?Tg0, ?Tg1, ?Tp1 in Hfd; simplify_eq);
    try (rewrite Hpi in Hb; cbn in Hb; simplify_eq);
    try (rewrite Hwopen in Hwo); try (rewrite Hropen in Hro);
    try (exfalso; apply Hwo; by auto); try (exfalso; apply Hro; by auto);
    try (destruct Hro as [[? ?]|[? ?]]; discriminate).
  all: (split; [lia|]);
    (split_and!; [lia | qconc_ext Hp | qconc_ext Hph | qconc_ext Hpi | cbn; rewrite Ho; reflexivity]).
Qed.
(** A lookup in the [n]-th state. *)
Ltac qlook_tac Hp Hph Hpi :=
  first [rewrite Hp; unfold qconc_proc | rewrite Hph; unfold qconc_phase | rewrite Hpi];
  repeat case_decide; try lia; cbn; reflexivity.

  (** Before the tenth state, the next step is enabled. *)
Lemma qabs_enabled x n :
  qabs sup T term (DTerm n1) d2 x n -> n < 10 -> exists x', xstep C L x x'.
Proof.
  intros HR Hn10. pose proof HR as (Hn & Hp & Hph & Hpi & Ho).
  pose proof (fun p => wired_write_open sup T Hnopipe _ _ _ _ x p (qconc_wired sup T term n) Hp) as Hwopen.
  pose proof (table_lookups T n1 HT1) as (Tw0 & Tw1 & Tg0 & Tg1 & Tp1).
  cases_upto_10 n Hn; cbn in Hwopen; try lia.
  1, 2: eexists; apply (xs_call C L x (S (S (S sup)))); unfold step_proc; rewrite Hp; unfold qconc_proc;
    repeat case_decide; try lia; reflexivity.
  - eexists. eapply (xs_eof C L x (S (S sup)));
      [qlook_tac Hp Hph Hpi | reflexivity | apply cmd_of_grep | qlook_tac Hp Hph Hpi | exact Tg0
      | qlook_tac Hp Hph Hpi | rewrite Hwopen; intros [[? _]|[_ ?]]; discriminate].
  - eexists. eapply (xs_exit C L x (S (S sup))); [qlook_tac Hp Hph Hpi | reflexivity | qlook_tac Hp Hph Hpi].
  - eexists. eapply (xs_eof C L x (S sup));
      [qlook_tac Hp Hph Hpi | reflexivity | apply cmd_of_wc | qlook_tac Hp Hph Hpi | exact Tw0
      | qlook_tac Hp Hph Hpi | rewrite Hwopen; intros [[_ ?]|[_ ?]]; discriminate].
  - eexists. eapply (xs_write_term C L x (S sup));
      [qlook_tac Hp Hph Hpi | reflexivity | qlook_tac Hp Hph Hpi | exact Tw1].
  - eexists. eapply (xs_exit C L x (S sup)); [qlook_tac Hp Hph Hpi | reflexivity | qlook_tac Hp Hph Hpi].
  - assert (k_procs (x_k x) !! S sup = Some (mkProc sup ∅ ENOERR (Zombie 0))) as Hw
      by qlook_tac Hp Hph Hpi.
    destruct (do_wait_some (x_k x) sup (mkProc init_pid T ENOERR waiting)
                         (fun _ => Write STDOUT_FILENO completion_line (fun _ => Exit 0%Z))
                         (S sup) _ 0 Hw eq_refl eq_refl)
      as [s' Hs'].
    exists (mkX s' (x_pipes x) (x_phase x)). apply (xs_call C L x sup s').
    rewrite (step_wait C _ sup (mkProc init_pid T ENOERR waiting)
                       (fun _ => Write STDOUT_FILENO completion_line (fun _ => Exit 0%Z)));
      [exact Hs' | qlook_tac Hp Hph Hpi | reflexivity].
  - eexists. apply (xs_call C L x sup). unfold step_proc. rewrite Hp. unfold qconc_proc.
    rewrite decide_True by done. reflexivity.
  - eexists. apply (xs_call C L x sup). unfold step_proc. rewrite Hp. unfold qconc_proc.
    rewrite decide_True by done. reflexivity.
Qed.

  (** After [k] steps from the [j]-th state, the system is in the
      [(j + k)]-th. *)
Lemma qabs_nsteps j k x0 x :
  qabs sup T term (DTerm n1) d2 x0 j -> nsteps (xstep C L) k x0 x ->
  j + k <= 10 /\ qabs sup T term (DTerm n1) d2 x (j + k).
Proof.
  intros Hx Hs. revert j Hx. induction Hs as [x0|k x0 x1 x Hstep Hs IH]; intros j Hx.
  - rewrite Nat.add_0_r. split; [apply Hx | done].
  - destruct (qabs_step x0 j x1 Hx Hstep) as [_ Hx1].
    destruct (IH (S j) Hx1) as [? ?]. rewrite Nat.add_succ_r. split; [lia | done].
Qed.
End steps.

(** The build under [ps_missing_schedule] reaches the first state of the
    sequence. *)
Lemma qabs_start C sup T a0 term L n1 d2 :
  init_pid < sup -> is_Some (T !! 0) -> is_Some (T !! 1) ->
  size T + 4 <= open_max C -> 4 <= proc_max C ->
  "ps" ∉ path C -> "grep" ∈ path C -> "wc" ∈ path C ->
  exists s, run C (ps_missing_schedule sup) (init_state sup T (main_prog [a0; term])) = Some s /\
    qabs sup T term n1 d2 (xinit L s) 0.
Proof.
  intros Hlt H0 H1 Hom Hpm Hps Hgrep Hwc.
  destruct (ps_missing_build C sup T a0 term H0 H1 Hom Hpm Hps Hgrep Hwc)
    as (s & k & Hrun & Hsup & Hc & Hg & Hgg & Hdom & Hnpid & Hnp & Hout).
  exists s. split; [done|].
  pose proof (sup_inv_reachable sup term Hlt C T a0 s (run_star _ _ _ _ Hrun))
    as (_ & _ & q & Hq & _ & [(Hn & _)|[(Hst & _)|(_ & Hnone & _)]]); [lia | | congruence].
  rewrite Hsup in Hq. injection Hq as <-. cbn in Hst. rewrite Hst in Hsup.
  unfold xinit. split; [lia|]. split_and!; cbn [x_k x_pipes x_phase]; [| | | done].
  - intros i. unfold qconc_proc. repeat case_decide; subst; try done.
    apply (proj1 (not_elem_of_dom _ _)). rewrite Hdom. set_unfold. lia.
  - intros i. rewrite lookup_omap. unfold qconc_phase.
    repeat case_decide; subst; rewrite ?Hc, ?Hg; cbn; rewrite ?cmd_of_grep; try done.
    destruct (decide (i = sup)) as [->|]; [by rewrite Hsup|].
    destruct (decide (i = S (S (S sup)))) as [->|]; [by rewrite Hgg|].
    by rewrite (proj1 (not_elem_of_dom (k_procs s) i)) by (rewrite Hdom; set_unfold; lia).
  - intros [|[|j]]; rewrite Hnp; cbn; [done | done |].
    by rewrite !lookup_insert_ne, lookup_empty by lia.
Qed.

(** C21. When [ps] is not on [PATH], the running pipeline is one fixed
    sequence of ten steps, whatever the scheduler does: after [k] steps
    from the state the build reaches, [k] is at most 10 and the system is
    in the [k]-th state of the sequence: the great-grandchild writes its
    diagnostic (step 1) and exits (2), [grep] sees end-of-file (3) and
    exits without writing (4), [wc] sees end-of-file (5), writes 0 (6) and
    exits (7), the supervisor reaps it (8), writes its completion line (9)
    and exits (10). *)
Theorem ps_missing_trace C sup T a0 term n1 d2 L :
  init_pid < sup -> is_Some (T !! 0) -> T !! 1 = Some (DTerm n1) ->
  T !! 2 = Some d2 -> writable d2 = true -> pipes_below 0 T ->
  size T + 4 <= open_max C -> 4 <= proc_max C ->
  "ps" ∉ path C -> "grep" ∈ path C -> "wc" ∈ path C ->
  exists s, run C (ps_missing_schedule sup) (init_state sup T (main_prog [a0; term])) = Some s /\
    forall k x, nsteps (xstep C L) k (xinit L s) x -> k <= 10 /\ qabs sup T term (DTerm n1) d2 x k.
Proof.
  intros Hlt H0 H1 H2 Hw2 Hnopipe Hom Hpm Hps Hgrep Hwc.
  destruct (qabs_start C sup T a0 term L (DTerm n1) d2 Hlt H0 ltac:(by eexists) Hom Hpm Hps Hgrep Hwc)
    as (s & Hrun & Hx0).
  exists s. split; [done|]. intros k x Hk.
  by eapply (qabs_nsteps C L sup T term n1 d2 H1 H2 Hw2 Hnopipe Hlt 0 k).
Qed.

(** C22. When [ps] is not on [PATH], every run that cannot go on has
    written exactly three lines: the great-grandchild's diagnostic, then
    [wc]'s count 0, then the completion line; the great-grandchild has
    exited with status 255, [grep] and the supervisor with status 0.  As
    when [grep] is missing, the count cannot be told from that of a term
    that matches nothing, and the supervisor reports completion. *)
Theorem ps_missing_reports C sup T a0 term n1 d2 L :
  init_pid < sup -> is_Some (T !! 0) -> T !! 1 = Some (DTerm n1) ->
  T !! 2 = Some d2 -> writable d2 = true -> pipes_below 0 T ->
  size T + 4 <= open_max C -> 4 <= proc_max C ->
  "ps" ∉ path C -> "grep" ∈ path C -> "wc" ∈ path C ->
  exists s, run C (ps_missing_schedule sup) (init_state sup T (main_prog [a0; term])) = Some s /\
    forall x, star (xstep C L) (xinit L s) x -> (forall x', ~ xstep C L x x') ->
      k_out (x_k x) = [(S (S (S sup)), d2, ps_diag); (S sup, DTerm n1, ("0" ++ endl)%string);
                       (sup, DTerm n1, completion_line)] /\
      k_procs (x_k x) !! sup = Some (mkProc init_pid ∅ ENOERR (Zombie 0)) /\
      k_procs (x_k x) !! S (S sup) = Some (mkProc init_pid ∅ ENOERR (Zombie 0)) /\
      k_procs (x_k x) !! S (S (S sup)) = Some (mkProc init_pid ∅ ENOENT (Zombie 255)).
Proof.
  intros Hlt H0 H1 H2 Hw2 Hnopipe Hom Hpm Hps Hgrep Hwc.
  destruct (qabs_start C sup T a0 term L (DTerm n1) d2 Hlt H0 ltac:(by eexists) Hom Hpm Hps Hgrep Hwc)
    as (s & Hrun & Hx0).
  exists s. split; [done|]. intros x Hstar Hterm.
  destruct (star_nsteps _ _ _ Hstar) as [k Hk].
  destruct (qabs_nsteps C L sup T term n1 d2 H1 H2 Hw2 Hnopipe Hlt 0 k _ x Hx0 Hk) as [Hk10 Hx].
  destruct (decide (k < 10)) as [Hlt10|].
  { destruct (qabs_enabled C L sup T term n1 d2 H1 Hnopipe Hlt x k Hx Hlt10) as [x' Hx'].
    by destruct (Hterm x'). }
  replace (0 + k) with 10 in Hx by lia. destruct Hx as (_ & Hp & _ & _ & Ho).
  split_and!; [exact Ho | ..]; rewrite Hp; unfold qconc_proc; repeat case_decide; try lia; reflexivity.
Qed.

(** The witnesses: a [PATH] without [ps], the standard descriptors of a
    terminal. *)
Definition no_ps_config : config := mkConfig 1024 4096 ["grep"; "wc"].

Lemma ps_missing_trace_witness :
  exists s, run no_ps_config (ps_missing_schedule 100)
              (init_state 100 std_fds (main_prog ["processes"; "bash"])) = Some s /\
    forall k x, nsteps (xstep no_ps_config []) k (xinit [] s) x ->
      k <= 10 /\ qabs 100 std_fds "bash" (DTerm 1) (DTerm 2) x k.
Proof.
  exact (ps_missing_trace no_ps_config 100 std_fds "processes" "bash" 1 (DTerm 2) []
           ltac:(vm_compute; lia) ltac:(eexists; reflexivity) eq_refl eq_refl eq_refl std_fds_no_pipes
           ltac:(vm_compute; lia) ltac:(vm_compute; lia)
           ltac:(vm_compute; set_solver) ltac:(repeat constructor) ltac:(repeat constructor)).
Defined.

Lemma ps_missing_reports_witness :
  exists s, run no_ps_config (ps_missing_schedule 100)
              (init_state 100 std_fds (main_prog ["processes"; "bash"])) = Some s /\
    forall x, star (xstep no_ps_config []) (xinit [] s) x -> (forall x', ~ xstep no_ps_config [] x x') ->
      k_out (x_k x) = [(103, DTerm 2, ps_diag); (101, DTerm 1, ("0" ++ endl)%string);
                       (100, DTerm 1, completion_line)] /\
      k_procs (x_k x) !! 100 = Some (mkProc init_pid ∅ ENOERR (Zombie 0)) /\
      k_procs (x_k x) !! 102 = Some (mkProc init_pid ∅ ENOERR (Zombie 0)) /\
      k_procs (x_k x) !! 103 = Some (mkProc init_pid ∅ ENOENT (Zombie 255)).
Proof.
  exact (ps_missing_reports no_ps_config 100 std_fds "processes" "bash" 1 (DTerm 2) []
           ltac:(vm_compute; lia) ltac:(eexists; reflexivity) eq_refl eq_refl eq_refl std_fds_no_pipes
           ltac:(vm_compute; lia) ltac:(vm_compute; lia)
           ltac:(vm_compute; set_solver) ltac:(repeat constructor) ltac:(repeat constructor)).
Defined.

End PsMissing.
