(* ===== verification/Build.v ===== *)
(** * The build under every interleaving

    [Pipeline] runs the build under one schedule, [pipeline_schedule]:
    each process runs as far as it goes before the next one starts.  The
    four processes of the build may in fact interleave their calls in any
    order.  This file shows that the order does not matter.

    [bstep] is one call of any process of the program ([Kernel.step_proc]):
    the build without the external commands, which only start once it is
    over (see [Flow]).  Each process has a step count: the supervisor 0 or
    1 ([fork]), the child 0 to 6 ([pipe], [fork], then four calls of
    [child_body] up to [execlp wc]), the grandchild 0 to 9 ([pipe], [fork],
    seven calls of [grandchild_body]), the great-grandchild 0 to 6.  The
    record of each process after [n] of its own calls does not depend on
    the other processes: the pipes and pids it obtains are handed out in
    the causal order of the forks.  So every state reachable by [bstep] is
    [bstate a b c d] for the step counts [a], [b], [c], [d] of the four
    processes ([nsteps_bstate]); a state with no step left has every count at its
    end, and is the state [pipeline_schedule] reaches. *)

From stdpp Require Import base gmap sets list strings.
From Stdlib Require Import ZArith Lia.
From S2P Require Import Prelude FdTable Syscall Processes Kernel Stages Pipeline Footprint Supervisor Commands Streams Dataflow Flow.

Module Build.
Import FdTable Syscall Processes Kernel Stages Pipeline Footprint Supervisor Commands Streams Dataflow Flow.

(** One call of one process of the program. *)
Definition bstep (C : config) (s s' : kstate) : Prop := exists pid, step_proc C s pid = Some s'.

(** The program after a [pipe] that returned [r] and [w], as
    [Kernel.do_pipe] continues it. *)
Definition pipe_ret (c : prog) (r w : nat) : prog :=
  match c with Pipe k => k 0%Z (Z.of_nat r, Z.of_nat w) | _ => c end.

(** What follows the child's branch in [main]: [return 0]. *)
Definition kend : unit -> prog := fun _ => Exit 0%Z.

(** [local_run] composes. *)
Lemma local_run_add C n m p : local_run C (n + m) p = local_run C n p ≫= local_run C m.
Proof.
  revert p. induction n as [|n IH]; intros p; [done|]. cbn.
  destruct (local_call C p); [apply IH | done].
Qed.

(** Every call before the last of a local run that succeeds is a local
    call that succeeds. *)
Lemma local_run_prefix C n p q j :
  local_run C n p = Some q -> j < n ->
  exists pj pj', local_run C j p = Some pj /\ local_call C pj = Some pj' /\ local_run C (S j) p = Some pj'.
Proof.
  intros Hn Hj. replace n with (j + S (n - S j)) in Hn by lia.
  rewrite local_run_add in Hn.
  destruct (local_run C j p) as [pj|] eqn:Ej; [|discriminate]. cbn in Hn.
  destruct (local_call C pj) as [pj'|] eqn:Ec; [|discriminate].
  exists pj, pj'. split_and!; [done | done |].
  replace (S j) with (j + 1) by lia. rewrite local_run_add, Ej. cbn. by rewrite Ec.
Qed.

(** A process that has not exited. *)
Definition live (st : pstate) : Prop := match st with Zombie _ => False | _ => True end.

Lemma local_call_live C p p' : local_call C p = Some p' -> live (p_state p').
Proof.
  unfold local_call. intros H.
  destruct (p_state p) as [[]| |]; try discriminate; injection H as <-; repeat case_match; cbn; done.
Qed.

(** Local calls keep the parent and do not exit. *)
Lemma local_run_facts C p j q :
  live (p_state p) -> local_run C j p = Some q -> p_ppid q = p_ppid p /\ live (p_state q).
Proof.
  revert p. induction j as [|j IH]; intros p Hl Hq; cbn in Hq; [by injection Hq as <-|].
  destruct (local_call C p) as [p'|] eqn:E; [|discriminate].
  destruct (IH p' (local_call_live _ _ _ E) Hq) as [-> ?]. split; [by eapply local_call_ppid | done].
Qed.

Lemma traj_facts C p j :
  live (p_state p) ->
  p_ppid (default p (local_run C j p)) = p_ppid p /\ live (p_state (default p (local_run C j p))).
Proof.
  intros Hl. destruct (local_run C j p) as [q|] eqn:E; cbn; [by eapply local_run_facts | done].
Qed.

(** The [j]-th call of a local run that succeeds leads to the
    [(j+1)]-th record. *)
Lemma traj_step C p n q j :
  local_run C n p = Some q -> j < n ->
  local_call C (default p (local_run C j p)) = Some (default p (local_run C (S j) p)).
Proof.
  intros Hn Hj. destruct (local_run_prefix C n p q j Hn Hj) as (pj & pj' & E1 & E2 & E3).
  by rewrite E1, E3.
Qed.

(** An image and an absent process make no call. *)
Lemma step_image C s pid p f a : k_procs s !! pid = Some p -> p_state p = Image f a -> step_proc C s pid = None.
Proof. intros Hp Hst. unfold step_proc. rewrite Hp, Hst. unfold local_call. by rewrite Hst. Qed.

Lemma step_absent C s pid : k_procs s !! pid = None -> step_proc C s pid = None.
Proof. intros Hp. unfold step_proc. by rewrite Hp. Qed.

(** A process part-way along a run of local calls takes the next one. *)
Lemma step_traj C s pid p0 n q j :
  k_procs s !! pid = Some (default p0 (local_run C j p0)) -> local_run C n p0 = Some q -> j < n ->
  step_proc C s pid = Some (upd_proc s pid (default p0 (local_run C (S j) p0))).
Proof. intros Hs Hq Hj. eapply step_local; [exact Hs | by eapply traj_step]. Qed.

(** At the end of a run that stops in an image, the process is blocked. *)
Lemma step_traj_end C s pid p0 n q f a :
  k_procs s !! pid = Some (default p0 (local_run C n p0)) -> local_run C n p0 = Some q ->
  p_state q = Image f a -> step_proc C s pid = None.
Proof. intros Hs Hq Hst. rewrite Hq in Hs. by eapply step_image. Qed.

(** [n] calls of one process, each taking the state [f i] to [f (S i)]. *)
Lemma run_replicate C pid (f : nat -> kstate) m n s :
  s = f m -> (forall i, m <= i -> i < m + n -> step_proc C (f i) pid = Some (f (S i))) ->
  run C (replicate n pid) s = Some (f (m + n)).
Proof.
  intros ->. revert m. induction n as [|n IH]; intros m Hs; cbn; [by rewrite Nat.add_0_r|].
  rewrite Hs by lia. rewrite IH by (intros; apply Hs; lia). by rewrite Nat.add_succ_r.
Qed.

(** Kernel states are equal field by field. *)
Lemma kstate_eq p1 p2 n1 n2 q1 q2 o1 o2 :
  p1 = p2 -> n1 = n2 -> q1 = q2 -> o1 = o2 -> mkKState p1 n1 q1 o1 = mkKState p2 n2 q2 o2.
Proof. by intros -> -> -> ->. Qed.

(** Booleans of [nat] comparisons as arithmetic. *)
Ltac bool_arith :=
  repeat match goal with
  | H : (_ <? _) = true |- _ => apply Nat.ltb_lt in H
  | H : (_ <? _) = false |- _ => apply Nat.ltb_ge in H
  | H : (_ <=? _) = true |- _ => apply Nat.leb_le in H
  | H : (_ <=? _) = false |- _ => apply Nat.leb_gt in H
  | H : (_ =? _) = true |- _ => apply Nat.eqb_eq in H
  | H : (_ =? _) = false |- _ => apply Nat.eqb_neq in H
  | H : (_ <? _)%Z = true |- _ => apply Z.ltb_lt in H
  | H : (_ <? _)%Z = false |- _ => apply Z.ltb_ge in H
  | H : (_ =? _)%Z = true |- _ => apply Z.eqb_eq in H
  | H : (_ =? _)%Z = false |- _ => apply Z.eqb_neq in H
  end.

(** Case analysis on the [nat] comparisons of the goal. *)
Ltac nat_cmp :=
  repeat match goal with
  | |- context [?x <? ?y] => destruct (Nat.ltb_spec x y); try lia
  | |- context [?x <=? ?y] => destruct (Nat.leb_spec x y); try lia
  | |- context [?x =? ?y] => destruct (Nat.eqb_spec x y); try lia
  end.

Section build.
  Context (C : config) (sup : nat) (T : fdtab) (term : string).
  Context (r0 w0 r1 w1 : nat) (t0 t1 : fdtab).

Definition fds0 : Z * Z := (Z.of_nat r0, Z.of_nat w0).
Definition fds1 : Z * Z := (Z.of_nat r1, Z.of_nat w1).

  (** The supervisor before and after its [fork]. *)
Definition sup_rec (a : nat) : proc :=
  mkProc init_pid T ENOERR (if a =? 0 then Running (Fork (after_fork term)) else waiting).

  (** The child ([S sup]) after [b] of its calls: the [pipe] of line 61,
      the [fork] of line 67, then the body of lines 103-111. *)
Definition ch2 : proc := mkProc sup t0 ENOERR (Running (child_body fds0 kend)).
Definition ch (b : nat) : proc :=
  match b with
  | 0 => mkProc sup T ENOERR (Running (child term kend))
  | 1 => mkProc sup t0 ENOERR (Running (pipe_ret (child term kend) r0 w0))
  | S (S j) => default ch2 (local_run C j ch2)
  end.

  (** The grandchild ([S (S sup)]) after [c] of its calls: the [pipe] of
      line 71, the [fork] of line 77, then the body of lines 91-101. *)
Definition gc2 : proc := mkProc (S sup) t1 ENOERR (Running (grandchild_body term fds0 fds1 kend)).
Definition gc (c : nat) : proc :=
  match c with
  | 0 => mkProc (S sup) t0 ENOERR (Running (grandchild term fds0 kend))
  | 1 => mkProc (S sup) t1 ENOERR (Running (pipe_ret (grandchild term fds0 kend) r1 w1))
  | S (S j) => default gc2 (local_run C j gc2)
  end.

  (** The great-grandchild ([S (S (S sup))]) after [d] of its calls
      (lines 80-90). *)
Definition gg0 : proc := mkProc (S (S sup)) t1 ENOERR (Running (great_grandchild fds0 fds1 kend)).
Definition gg (d : nat) : proc := default gg0 (local_run C d gg0).

  (** The state after [a], [b], [c], [d] calls of the four processes: a
      process exists once its parent has forked it. *)
Definition ins (skip : bool) (k : nat) (v : proc) (m : gmap nat proc) : gmap nat proc :=
  if skip then m else <[k := v]> m.

Definition bmap (a b c d : nat) : gmap nat proc :=
  ins (c <? 2) (S (S (S sup))) (gg d)
    (ins (b <? 2) (S (S sup)) (gc c)
       (ins (a =? 0) (S sup) (ch b) {[sup := sup_rec a]})).

Definition bstate (a b c d : nat) : kstate :=
  mkKState (bmap a b c d)
           (S sup + a + (if 2 <=? b then 1 else 0) + (if 2 <=? c then 1 else 0))
           ((if 1 <=? b then 1 else 0) + (if 1 <=? c then 1 else 0)) [].

  (** The counts of a state of the build: none is past its end, and a
      process has made no call before its parent has forked it. *)
Definition bvalid (a b c d : nat) : Prop :=
  a <= 1 /\ b <= 6 /\ c <= 9 /\ d <= 6 /\ (a = 0 -> b = 0) /\ (b < 2 -> c = 0) /\ (c < 2 -> d = 0).

Lemma bmap_lookup a b c d i :
  bmap a b c d !! i =
    if decide (i = S (S (S sup))) then (if c <? 2 then None else Some (gg d))
    else if decide (i = S (S sup)) then (if b <? 2 then None else Some (gc c))
    else if decide (i = S sup) then (if a =? 0 then None else Some (ch b))
    else if decide (i = sup) then Some (sup_rec a) else None.
Proof.
  unfold bmap, ins. repeat case_match; repeat case_decide; subst; simplify_map_eq; try lia; try done;
    rewrite ?lookup_insert_ne, lookup_singleton_ne by lia; done.
Qed.
  (** The two pipes the build obtains, and the conditions under which no
      call of the build fails. *)
  Hypothesis (Hp0 : fd_pipe (open_max C) T 0 = Some (r0, w0, t0)).
  Hypothesis (Hp1 : fd_pipe (open_max C) t0 1 = Some (r1, w1, t1)).
  Hypothesis (Hd : NoDup [r0; w0; r1; w1; 0; 1]).
  Hypothesis (Hom : 1 < open_max C) (Hpm : 4 <= proc_max C).
  Hypothesis (Hps : "ps" ∈ path C) (Hgrep : "grep" ∈ path C) (Hwc : "wc" ∈ path C).

Lemma t0_eq : t0 = <[w0 := DPipeWr 0]> (<[r0 := DPipeRd 0]> T).
Proof. by apply fd_pipe_Some in Hp0 as (_ & _ & _ & _ & _ & _ & ->). Qed.
Lemma t1_eq : t1 = <[w1 := DPipeWr 1]> (<[r1 := DPipeRd 1]> t0).
Proof. by apply fd_pipe_Some in Hp1 as (_ & _ & _ & _ & _ & _ & ->). Qed.

  (** Each body runs to its [execlp], which replaces the image. *)
Lemma ch_run : exists q, local_run C 4 ch2 = Some q /\ p_state q = Image "wc" ["wc"; "-l"].
Proof.
  pose proof Hd as Hd'. nodup_facts Hd'. eexists. split.
  { eapply child_body_run; [rewrite t0_eq; by simplify_map_eq.. | done | done | lia | done]. }
  reflexivity.
Qed.

Lemma gc_run : exists q, local_run C 7 gc2 = Some q /\ p_state q = Image "grep" ["grep"; term].
Proof.
  pose proof Hd as Hd'. nodup_facts Hd'. eexists. split.
  { eapply grandchild_body_run;
      [rewrite t1_eq, t0_eq; by simplify_map_eq.. | nodup_tac | nodup_tac | lia | done]. }
  reflexivity.
Qed.

Lemma gg_run : exists q, local_run C 6 gg0 = Some q /\ p_state q = Image "ps" ["ps"; "aux"].
Proof.
  pose proof Hd as Hd'. nodup_facts Hd'. eexists. split.
  { eapply great_grandchild_run; [rewrite t1_eq, t0_eq; by simplify_map_eq.. | nodup_tac | lia | done]. }
  reflexivity.
Qed.
Lemma ch_facts b : p_ppid (ch b) = sup /\ live (p_state (ch b)).
Proof. destruct b as [|[|j]]; [done | done | apply traj_facts; done]. Qed.
Lemma gc_facts c : p_ppid (gc c) = S sup /\ live (p_state (gc c)).
Proof. destruct c as [|[|j]]; [done | done | apply traj_facts; done]. Qed.
Lemma gg_facts d : p_ppid (gg d) = S (S sup) /\ live (p_state (gg d)).
Proof. apply traj_facts; done. Qed.

(** A lookup in [bstate]. *)
Ltac blook :=
  cbn [bstate k_procs]; rewrite bmap_lookup; repeat (case_decide; try lia); nat_cmp; cbn; try done.
Ltac bsize :=
  cbn [bstate k_procs]; unfold bmap, ins; nat_cmp; cbn;
  repeat rewrite map_size_insert_None by (rewrite ?lookup_insert_ne, ?lookup_singleton_ne by lia; done);
  rewrite map_size_singleton; lia.

(** The state after a step, compared with [bstate] key by key and count
    by count. *)
Ltac bstate_eq :=
  unfold bstate, upd_proc; cbn [k_procs k_next_pid k_next_pipe k_out];
  try apply (f_equal Some); apply kstate_eq;
  [ apply map_eq; intros ?i; rewrite ?lookup_insert, !bmap_lookup;
    repeat case_decide; subst; try lia; repeat case_match; bool_arith; try lia; reflexivity
  | .. | done ];
  repeat match goal with |- context [?x <=? ?y] => destruct (Nat.leb_spec x y) end; lia.

  (** The supervisor forks once, then waits: its only child, the child,
      never exits during the build. *)
Lemma step_sup a b c d :
  bvalid a b c d -> step_proc C (bstate a b c d) sup = if a =? 0 then Some (bstate 1 b c d) else None.
Proof.
  intros (Ha & Hb & Hc & Hdd & H0 & H1 & H2). destruct a as [|a].
  - rewrite H0 in * by done. rewrite H1, H2 by lia. cbn.
    rewrite (step_fork C _ sup (sup_rec 0) (after_fork term)) by first [blook | done].
    rewrite do_fork_ok; [bstate_eq|].
    cbn. unfold bmap, ins. cbn. rewrite map_size_singleton. lia.
  - assert (a = 0) as -> by lia. cbn.
    rewrite (step_wait C _ sup (sup_rec 1) (fun _ => Write STDOUT_FILENO completion_line (fun _ => Exit 0%Z)))
      by first [blook | done].
    apply do_wait_blocked.
    + eapply (children_nonempty _ _ (S sup) (ch b)); [blook | apply ch_facts].
    + apply exited_children_none. intros c' q Hq Hpp st Hst. cbn in Hq.
      rewrite bmap_lookup in Hq. repeat case_decide; repeat case_match; simplify_eq; cbn in *;
        first [ pose proof (gg_facts d) as [? Hl]; lia
              | pose proof (gc_facts c) as [? Hl]; lia
              | pose proof (ch_facts b) as [_ Hl]; by rewrite Hst in Hl
              | done ].
Qed.
  (** The child: [pipe], [fork], four local calls, then [wc]. *)
Lemma step_child a b c d :
  bvalid a b c d ->
  step_proc C (bstate a b c d) (S sup) = if (a =? 0) || (6 <=? b) then None else Some (bstate a (S b) c d).
Proof.
  intros (Ha & Hb & Hc & Hdd & H0 & H1 & H2). destruct a as [|a].
  { rewrite H0 in * by done. rewrite H1, H2 by lia. apply step_absent. blook. }
  assert (a = 0) as -> by lia. destruct b as [|[|b]].
  - rewrite H1, H2 by lia. cbn [Nat.eqb orb Nat.leb].
    erewrite step_pipe; [| blook | reflexivity].
    rewrite (do_pipe_ok _ _ _ _ _ r0 w0 t0); [bstate_eq | exact Hp0].
  - rewrite H1, H2 by lia. cbn [Nat.eqb orb Nat.leb].
    erewrite step_fork; [| blook | reflexivity].
    rewrite do_fork_ok; [bstate_eq | bsize].
  - destruct ch_run as (q & Hq & Hst). destruct (decide (b < 4)).
    + replace (6 <=? S (S b)) with false by (symmetry; apply Nat.leb_gt; lia). cbn [Nat.eqb orb].
      erewrite (step_traj _ _ (S sup) ch2 4 q b); [bstate_eq | blook | done | lia].
    + assert (b = 4) as -> by lia. cbn [Nat.eqb orb Nat.leb].
      eapply (step_traj_end _ _ (S sup) ch2 4 q); [blook | done | exact Hst].
Qed.
  (** The grandchild: [pipe], [fork], seven local calls, then [grep]. *)
Lemma step_gc a b c d :
  bvalid a b c d ->
  step_proc C (bstate a b c d) (S (S sup)) =
    if (b <? 2) || (9 <=? c) then None else Some (bstate a b (S c) d).
Proof.
  intros (Ha & Hb & Hc & Hdd & H0 & H1 & H2).
  destruct (decide (b < 2)).
  { rewrite H1, H2 by lia. replace (b <? 2) with true by (symmetry; by apply Nat.ltb_lt).
    apply step_absent. blook. }
  replace (b <? 2) with false by (symmetry; apply Nat.ltb_ge; lia). cbn [orb].
  assert (a = 1) as -> by (destruct a as [|[|]]; lia).
  destruct c as [|[|c]].
  - rewrite H2 by lia. cbn [Nat.leb].
    assert (Hn : k_next_pipe (bstate 1 b 0 0) = 1) by (unfold bstate; cbn [k_next_pipe]; destruct (Nat.leb_spec 1 b); cbn; lia).
    erewrite step_pipe; [| blook | reflexivity].
    rewrite (do_pipe_ok _ _ _ _ _ r1 w1 t1), Hn; [bstate_eq | rewrite Hn; exact Hp1].
  - rewrite H2 by lia. cbn [Nat.leb].
    assert (Hn : k_next_pid (bstate 1 b 1 0) = S (S (S sup))) by (unfold bstate; cbn [k_next_pid]; destruct (Nat.leb_spec 2 b); cbn; lia).
    erewrite step_fork; [| blook | reflexivity].
    rewrite do_fork_ok, Hn; [bstate_eq | bsize].
  - destruct gc_run as (q & Hq & Hst). destruct (decide (c < 7)).
    + replace (9 <=? S (S c)) with false by (symmetry; apply Nat.leb_gt; lia).
      erewrite (step_traj _ _ (S (S sup)) gc2 7 q c); [bstate_eq | blook | done | lia].
    + assert (c = 7) as -> by lia. cbn [Nat.leb].
      eapply (step_traj_end _ _ (S (S sup)) gc2 7 q); [blook | done | exact Hst].
Qed.

  (** The great-grandchild: six local calls, then [ps]. *)
Lemma step_gg a b c d :
  bvalid a b c d ->
  step_proc C (bstate a b c d) (S (S (S sup))) =
    if (c <? 2) || (6 <=? d) then None else Some (bstate a b c (S d)).
Proof.
  intros (Ha & Hb & Hc & Hdd & H0 & H1 & H2).
  destruct (decide (c < 2)).
  { rewrite H2 by lia. replace (c <? 2) with true by (symmetry; by apply Nat.ltb_lt).
    apply step_absent. blook. }
  replace (c <? 2) with false by (symmetry; apply Nat.ltb_ge; lia). cbn [orb].
  destruct gg_run as (q & Hq & Hst). destruct (decide (d < 6)).
  - replace (6 <=? d) with false by (symmetry; apply Nat.leb_gt; lia).
    erewrite (step_traj _ _ (S (S (S sup))) gg0 6 q d); [bstate_eq | blook | done | lia].
  - assert (d = 6) as -> by lia. cbn [Nat.leb].
    eapply (step_traj_end _ _ (S (S (S sup))) gg0 6 q); [blook | done | exact Hst].
Qed.

  (** No other process exists. *)
Lemma step_other a b c d pid :
  pid <> sup -> pid <> S sup -> pid <> S (S sup) -> pid <> S (S (S sup)) ->
  step_proc C (bstate a b c d) pid = None.
Proof. intros. apply step_absent. blook. Qed.
  (** One call of the build from [bstate a b c d], whichever process makes
      it: one counter goes one up. *)
Lemma bstep_bstate a b c d s' :
  bvalid a b c d -> bstep C (bstate a b c d) s' ->
  exists a' b' c' d', s' = bstate a' b' c' d' /\ bvalid a' b' c' d' /\
    a <= a' /\ b <= b' /\ c <= c' /\ d <= d' /\ a' + b' + c' + d' = S (a + b + c + d).
Proof.
  intros Hv [pid Hs].
  destruct (decide (pid = sup)) as [->|]; [rewrite step_sup in Hs by done|];
  [|destruct (decide (pid = S sup)) as [->|]; [rewrite step_child in Hs by done|]];
  [..|destruct (decide (pid = S (S sup))) as [->|]; [rewrite step_gc in Hs by done|]];
  [..|destruct (decide (pid = S (S (S sup)))) as [->|]; [rewrite step_gg in Hs by done|]];
  [..|by rewrite step_other in Hs].
  all: revert Hs; nat_cmp; cbn; intros; simplify_eq; do 4 eexists; split; [reflexivity|];
    destruct Hv as (? & ? & ? & ? & ? & ? & ?); unfold bvalid; lia.
Qed.

  (** Until all four processes have reached their images, one of them can call. *)
Lemma bstate_progress a b c d :
  bvalid a b c d -> ~ (a = 1 /\ b = 6 /\ c = 9 /\ d = 6) ->
  exists a' b' c' d', bstep C (bstate a b c d) (bstate a' b' c' d') /\ bvalid a' b' c' d' /\
                      a' + b' + c' + d' = S (a + b + c + d).
Proof.
  intros Hv Hn. pose proof Hv as (? & ? & ? & ? & ? & ? & ?).
  destruct (decide (a = 0)); [|destruct (decide (b < 6)); [|destruct (decide (c < 9))]].
  - exists 1, b, c, d. split; [exists sup; rewrite step_sup by done; by nat_cmp|unfold bvalid; lia].
  - exists a, (S b), c, d.
    split; [exists (S sup); rewrite step_child by done; nat_cmp; by cbn|unfold bvalid; lia].
  - exists a, b, (S c), d.
    split; [exists (S (S sup)); rewrite step_gc by done; nat_cmp; by cbn|unfold bvalid; lia].
  - exists a, b, c, (S d).
    split; [exists (S (S (S sup))); rewrite step_gg by done; nat_cmp; by cbn|unfold bvalid; lia].
Qed.
  (** The number of calls made so far is the sum of the four counters. *)
Lemma nsteps_bstate k a b c d s :
  bvalid a b c d -> nsteps (bstep C) k (bstate a b c d) s ->
  exists a' b' c' d', s = bstate a' b' c' d' /\ bvalid a' b' c' d' /\ a' + b' + c' + d' = a + b + c + d + k.
Proof.
  intros Hv Hs. remember (bstate a b c d) as s0 eqn:Hs0. revert a b c d Hv Hs0.
  induction Hs as [s|k s1 s2 s3 H12 H23 IH]; intros a b c d Hv ->.
  - exists a, b, c, d. split_and!; [done | done | lia].
  - destruct (bstep_bstate a b c d s2) as (a1 & b1 & c1 & d1 & -> & Hv1 & _ & _ & _ & _ & Hsum1);
      [done..|].
    destruct (IH a1 b1 c1 d1 Hv1 eq_refl) as (a2 & b2 & c2 & d2 & -> & Hv2 & Hsum2).
    exists a2, b2, c2, d2. split_and!; [done | done | lia].
Qed.

  (** From every state of the build, the remaining calls lead to the state
      where every process has reached its image. *)
Lemma bstate_final n a b c d :
  bvalid a b c d -> a + b + c + d + n = 22 -> nsteps (bstep C) n (bstate a b c d) (bstate 1 6 9 6).
Proof.
  revert a b c d. induction n as [|n IH]; intros a b c d Hv Hn.
  - destruct Hv as (? & ? & ? & ? & _). assert (a = 1 /\ b = 6 /\ c = 9 /\ d = 6) as (-> & -> & -> & ->) by lia.
    constructor.
  - destruct (bstate_progress a b c d Hv) as (a' & b' & c' & d' & Hs & Hv' & Hsum); [lia|].
    econstructor; [exact Hs | apply IH; [done | lia]].
Qed.

  (** The program's first state is the start of the build. *)
Lemma init_bstate a0 : init_state sup T (main_prog [a0; term]) = bstate 0 0 0 0.
Proof. unfold init_state, bstate. apply kstate_eq; [reflexivity | cbn; lia | done | done]. Qed.

  (** [pipeline_schedule] is one of the orders: it goes from the start of
      the build to its end. *)
Lemma pipeline_bstate : run C (pipeline_schedule sup) (bstate 0 0 0 0) = Some (bstate 1 6 9 6).
Proof.
  unfold pipeline_schedule, build_schedule.
  rewrite (run_cons C _ sup _ (bstate 1 0 0 0)) by (rewrite step_sup by (unfold bvalid; lia); done).
  rewrite (run_cons C _ (S sup) _ (bstate 1 1 0 0)) by (rewrite step_child by (unfold bvalid; lia); done).
  rewrite (run_cons C _ (S sup) _ (bstate 1 2 0 0)) by (rewrite step_child by (unfold bvalid; lia); done).
  rewrite run_app, (run_replicate C (S sup) (fun b => bstate 1 b 0 0) 2 4); cbn [mbind option_bind];
    [| done | intros; rewrite step_child by (unfold bvalid; lia); nat_cmp; reflexivity].
  rewrite (run_cons C _ (S (S sup)) _ (bstate 1 6 1 0)) by (rewrite step_gc by (unfold bvalid; lia); done).
  rewrite (run_cons C _ (S (S sup)) _ (bstate 1 6 2 0)) by (rewrite step_gc by (unfold bvalid; lia); done).
  rewrite run_app, (run_replicate C (S (S sup)) (fun c => bstate 1 6 c 0) 2 7); cbn [mbind option_bind];
    [| done | intros; rewrite step_gc by (unfold bvalid; lia); nat_cmp; reflexivity].
  rewrite (run_replicate C (S (S (S sup))) (fun d => bstate 1 6 9 d) 0 6);
    [done | done | intros; rewrite step_gg by (unfold bvalid; lia); nat_cmp; reflexivity].
Qed.
  (** No call is possible once every process has reached its image. *)
Lemma bstate_final_terminal s' : ~ bstep C (bstate 1 6 9 6) s'.
Proof.
  intros Hs. destruct (bstep_bstate 1 6 9 6 s') as (a & b & c & d & _ & Hv & _ & _ & _ & _ & Hsum);
    [unfold bvalid; lia | done |].
  destruct Hv as (? & ? & ? & ? & _). lia.
Qed.

  (** After [k] calls of any interleaving, [22 - k] more calls lead to the
      end of the build. *)
Lemma bstate_reach k s :
  nsteps (bstep C) k (bstate 0 0 0 0) s -> exists n, nsteps (bstep C) n s (bstate 1 6 9 6) /\ k + n = 22.
Proof.
  intros Hs. destruct (nsteps_bstate k 0 0 0 0 s) as (a & b & c & d & -> & Hv & Hsum);
    [unfold bvalid; lia | done |].
  pose proof Hv as (? & ? & ? & ? & _).
  exists (22 - k). split; [apply bstate_final; [done | lia] | lia].
Qed.
End build.

(** Room for two pipes gives the two pipes of the build, with four
    distinct ends, none of them descriptor 0 or 1. *)
Lemma build_pipes C T :
  is_Some (T !! 0) -> is_Some (T !! 1) -> size T + 4 <= open_max C ->
  exists r0 w0 t0 r1 w1 t1,
    fd_pipe (open_max C) T 0 = Some (r0, w0, t0) /\ fd_pipe (open_max C) t0 1 = Some (r1, w1, t1) /\
    NoDup [r0; w0; r1; w1; 0; 1].
Proof.
  intros H0 H1 Hom.
  destruct (fd_pipe_room (open_max C) T 0) as (r0 & w0 & Hp0 & Hr0 & Hw0 & Hrw0); [lia|].
  destruct (fd_pipe_room (open_max C) (<[w0:=DPipeWr 0]> (<[r0:=DPipeRd 0]> T)) 1)
    as (r1 & w1 & Hp1 & Hr1 & Hw1 & Hrw1).
  { rewrite !map_size_insert_None; simplify_map_eq; try done; lia. }
  apply lookup_insert_None in Hr1 as [[Hr1T ?]%lookup_insert_None ?].
  apply lookup_insert_None in Hw1 as [[Hw1T ?]%lookup_insert_None ?].
  pose proof (fresh_not_open T r0 0 Hr0 H0). pose proof (fresh_not_open T r0 1 Hr0 H1).
  pose proof (fresh_not_open T w0 0 Hw0 H0). pose proof (fresh_not_open T w0 1 Hw0 H1).
  pose proof (fresh_not_open T r1 0 Hr1T H0). pose proof (fresh_not_open T r1 1 Hr1T H1).
  pose proof (fresh_not_open T w1 0 Hw1T H0). pose proof (fresh_not_open T w1 1 Hw1T H1).
  do 6 eexists. split_and!; [exact Hp0 | exact Hp1 | nodup_tac].
Qed.

(** The build as a whole: the state [pipeline_schedule] reaches admits no
    further call, and every interleaving of [k] calls from the start can
    be completed to it by [n] more calls, [k + n] being the length of
    [pipeline_schedule]. *)
Lemma build_interleavings C sup T a0 term :
  is_Some (T !! 0) -> is_Some (T !! 1) -> size T + 4 <= open_max C -> 4 <= proc_max C ->
  "ps" ∈ path C -> "grep" ∈ path C -> "wc" ∈ path C ->
  exists sf, run C (pipeline_schedule sup) (init_state sup T (main_prog [a0; term])) = Some sf /\
    (forall s', ~ bstep C sf s') /\
    forall k s, nsteps (bstep C) k (init_state sup T (main_prog [a0; term])) s ->
      exists n, nsteps (bstep C) n s sf /\ k + n = length (pipeline_schedule sup).
Proof.
  intros H0 H1 Hom Hpm Hps Hgrep Hwc.
  destruct (build_pipes C T H0 H1 ltac:(lia)) as (r0 & w0 & t0 & r1 & w1 & t1 & Hp0 & Hp1 & Hd).
  exists (bstate C sup T term r0 w0 r1 w1 t0 t1 1 6 9 6).
  assert (1 < open_max C) by lia.
  rewrite (init_bstate C sup T term r0 w0 r1 w1 t0 t1) by lia. split_and!.
  - by eapply pipeline_bstate.
  - intros s'. by eapply bstate_final_terminal.
  - intros k s Hs. by eapply bstate_reach.
Qed.

(** ** The build under every interleaving *)

(** C23. The order in which the four processes of the build are
    scheduled does not matter.  When the build succeeds (room for two
    pipes and four processes, the three commands on [PATH]), every
    interleaving of the calls of [main], the child, the grandchild and
    the great-grandchild that reaches a state where none of them can call
    has made exactly as many calls as [pipeline_schedule], and has
    reached exactly the state that [pipeline_schedule] reaches: the same
    pids, the same descriptor tables, the same pipes. *)
Theorem build_any_interleaving C sup T a0 term :
  is_Some (T !! 0) -> is_Some (T !! 1) -> size T + 4 <= open_max C -> 4 <= proc_max C ->
  "ps" ∈ path C -> "grep" ∈ path C -> "wc" ∈ path C ->
  exists sf, run C (pipeline_schedule sup) (init_state sup T (main_prog [a0; term])) = Some sf /\
    forall k s, nsteps (bstep C) k (init_state sup T (main_prog [a0; term])) s ->
      (forall s', ~ bstep C s s') -> k = length (pipeline_schedule sup) /\ s = sf.
Proof.
  intros H0 H1 Hom Hpm Hps Hgrep Hwc.
  destruct (build_interleavings C sup T a0 term) as (sf & Hrun & _ & Hreach); [done..|].
  exists sf. split; [done|]. intros k s Hs Hterm.
  destruct (Hreach k s Hs) as (n & Hn & Hk).
  destruct (nsteps_from_final _ n s sf Hn Hterm) as [-> ->]. split; [lia | done].
Qed.

(** C24. The build cannot get stuck half-way: from every state that
    some interleaving of its calls reaches, further calls reach the end
    of the build, the state [pipeline_schedule] reaches, where no process
    of the build can call; and no interleaving makes more calls than
    [pipeline_schedule]. *)
Theorem build_completes C sup T a0 term :
  is_Some (T !! 0) -> is_Some (T !! 1) -> size T + 4 <= open_max C -> 4 <= proc_max C ->
  "ps" ∈ path C -> "grep" ∈ path C -> "wc" ∈ path C ->
  exists sf, run C (pipeline_schedule sup) (init_state sup T (main_prog [a0; term])) = Some sf /\
    (forall s', ~ bstep C sf s') /\
    forall s, star (bstep C) (init_state sup T (main_prog [a0; term])) s ->
      star (bstep C) s sf /\
      forall k, nsteps (bstep C) k (init_state sup T (main_prog [a0; term])) s ->
        k <= length (pipeline_schedule sup).
Proof.
  intros H0 H1 Hom Hpm Hps Hgrep Hwc.
  destruct (build_interleavings C sup T a0 term) as (sf & Hrun & Hterm & Hreach); [done..|].
  exists sf. split_and!; [done | done |]. intros s Hs.
  destruct (star_nsteps _ _ _ Hs) as [k Hk]. destruct (Hreach k s Hk) as (n & Hn & _).
  split; [by eapply nsteps_star |]. intros k' Hk'. destruct (Hreach k' s Hk') as (n' & _ & ?). lia.
Qed.

(** C25. The build composed with the data flow.  When the build
    succeeds and the invoker's standard output is a terminal, then
    whichever interleaving of the build was taken, once no process of
    the build can call, every run of the data flow from there that
    cannot go on has written exactly two lines to the terminal: [wc]'s
    count of the listed lines that contain the term, then the
    supervisor's "commands completed". *)
Theorem build_then_prints_count C sup T a0 term n1 L :
  init_pid < sup -> is_Some (T !! 0) -> T !! 1 = Some (DTerm n1) -> pipes_below 0 T ->
  size T + 4 <= open_max C -> 4 <= proc_max C ->
  "ps" ∈ path C -> "grep" ∈ path C -> "wc" ∈ path C ->
  forall s, star (bstep C) (init_state sup T (main_prog [a0; term])) s -> (forall s', ~ bstep C s s') ->
  forall x, star (xstep C L) (xinit L s) x -> (forall x', ~ xstep C L x x') ->
    k_out (x_k x) = [(S sup, DTerm n1, (count_line L term ++ endl)%string); (sup, DTerm n1, completion_line)].
Proof.
  intros Hlt H0 H1 Hnopipe Hom Hpm Hps Hgrep Hwc s Hs Hterm x Hx Hxterm.
  destruct (build_interleavings C sup T a0 term) as (sf & Hrun & _ & Hreach); [done | by eexists | done..|].
  destruct (star_nsteps _ _ _ Hs) as [k Hk]. destruct (Hreach k s Hk) as (n & Hn & _).
  destruct (nsteps_from_final _ n s sf Hn Hterm) as [_ <-].
  destruct (flow_start C sup T a0 term L Hlt H0 ltac:(by eexists) Hom Hpm Hps Hgrep Hwc) as (s' & Hrun' & Habs).
  rewrite Hrun in Hrun'. injection Hrun' as <-.
  by destruct (flow_final C sup T term n1 L _ x H1 Hnopipe Hlt Habs Hx Hxterm) as (_ & _ & _ & ->).
Qed.

(** ** Witnesses *)

Lemma build_any_interleaving_witness :
  exists sf, run demo_config (pipeline_schedule 100)
               (init_state 100 std_fds (main_prog ["processes"; "bash"])) = Some sf /\
    forall k s, nsteps (bstep demo_config) k (init_state 100 std_fds (main_prog ["processes"; "bash"])) s ->
      (forall s', ~ bstep demo_config s s') -> k = length (pipeline_schedule 100) /\ s = sf.
Proof.
  exact (build_any_interleaving demo_config 100 std_fds "processes" "bash"
           ltac:(eexists; reflexivity) ltac:(eexists; reflexivity)
           ltac:(vm_compute; lia) ltac:(vm_compute; lia)
           ltac:(repeat constructor) ltac:(repeat constructor) ltac:(repeat constructor)).
Defined.

Lemma build_completes_witness :
  exists sf, run demo_config (pipeline_schedule 100)
               (init_state 100 std_fds (main_prog ["processes"; "bash"])) = Some sf /\
    (forall s', ~ bstep demo_config sf s') /\
    forall s, star (bstep demo_config) (init_state 100 std_fds (main_prog ["processes"; "bash"])) s ->
      star (bstep demo_config) s sf /\
      forall k, nsteps (bstep demo_config) k (init_state 100 std_fds (main_prog ["processes"; "bash"])) s ->
        k <= length (pipeline_schedule 100).
Proof.
  exact (build_completes demo_config 100 std_fds "processes" "bash"
           ltac:(eexists; reflexivity) ltac:(eexists; reflexivity)
           ltac:(vm_compute; lia) ltac:(vm_compute; lia)
           ltac:(repeat constructor) ltac:(repeat constructor) ltac:(repeat constructor)).
Defined.

Lemma build_then_prints_count_witness :
  exists s, star (bstep demo_config) (init_state 100 std_fds (main_prog ["processes"; "bash"])) s /\
    (forall s', ~ bstep demo_config s s') /\
    forall x, star (xstep demo_config (demo_listing "bash")) (xinit (demo_listing "bash") s) x ->
      (forall x', ~ xstep demo_config (demo_listing "bash") x x') ->
      k_out (x_k x) = [(101, DTerm 1, (count_line (demo_listing "bash") "bash" ++ endl)%string);
                       (100, DTerm 1, completion_line)].
Proof.
  destruct (build_interleavings demo_config 100 std_fds "processes" "bash"
              ltac:(eexists; reflexivity) ltac:(eexists; reflexivity)
              ltac:(vm_compute; lia) ltac:(vm_compute; lia)
              ltac:(repeat constructor) ltac:(repeat constructor) ltac:(repeat constructor))
    as (sf & _ & Hterm & Hreach).
  destruct (Hreach 0 _ (nsteps_O _ _)) as (n & Hn & _).
  exists sf. split_and!; [exact (nsteps_star _ _ _ _ Hn) | exact Hterm |].
  exact (build_then_prints_count demo_config 100 std_fds "processes" "bash" 1 (demo_listing "bash")
           ltac:(vm_compute; lia) ltac:(eexists; reflexivity) eq_refl std_fds_no_pipes
           ltac:(vm_compute; lia) ltac:(vm_compute; lia)
           ltac:(repeat constructor) ltac:(repeat constructor) ltac:(repeat constructor)
           sf (nsteps_star _ _ _ _ Hn) Hterm).
Defined.

End Build.
