(* ===== verification/System.v ===== *)
(** * The whole system under every interleaving

    [Flow] runs the data flow from the state the build reaches: the
    images of [ps], [grep] and [wc] start once every process of the build
    has made all its calls.  In the real system they start as soon as
    their own process has called [execlp]: [ps] may write its listing
    while the child has not yet rewired its descriptors, and [grep] may
    filter it before [wc] exists.  This file takes every step of
    [Dataflow.xstep] from the program's first state, at any point of the
    build ([fstep]): a process that has just called [execlp] starts its
    command at the beginning, and a pipe that has just been created is
    empty ([sync]).

    The proof is a simulation with two regimes.  While [ps] has not yet
    been exec'd nothing can flow: no image has input, and every reader
    waits for a writer that some process of the build still holds; the
    state is [xinit L (bstate a b c d)] for the counters of [Build].
    Once [ps] runs, the only calls left to the build are the local calls
    of the child and of the grandchild, and the state is the one [Flow]
    relates to the stream machine, with the child and the grandchild
    replaced by their records part-way through their bodies ([fproc]).
    Calls of the build leave the stream machine where it is; steps of
    the images are steps of the machine.  A state where no process can
    move has every counter at its end, so it is a state of [Flow], where
    the stream machine has finished: the terminal shows the count, then
    the completion line.  Every step lowers a rank ([srank]: the calls
    the build has left plus [Streams.ameasure]), so from the first state
    some run reaches that end; and no other reachable state is without a
    step ([system_never_stuck]).  Unlike [Kernel.kstep], [fstep] lets a
    command exit only once it has written all its output, so a process
    holding a pipe end it should have closed shows up here as a stuck
    state with nothing on the terminal. *)

From stdpp Require Import base gmap sets list strings.
From Stdlib Require Import ZArith Lia.
From S2P Require Import Prelude FdTable Syscall Processes Kernel Stages Pipeline Footprint Supervisor Commands Streams Dataflow Flow Build.

Module System.
Import FdTable Syscall Processes Kernel Stages Pipeline Footprint Supervisor Commands Streams Dataflow Flow.

(** After a step: the images that have just been started run their
    command from the beginning, and the pipes that have just been
    created are empty.  Processes that were images already keep their
    progress, and pipes keep their contents. *)
Definition sync (L : list string) (x : xstate) : xstate :=
  mkX (x_k x) (x_pipes x ∪ list_to_map ((fun p => (p, [])) <$> seq 0 (k_next_pipe (x_k x))))
      (x_phase x ∪ omap (image_phase L) (k_procs (x_k x))).

(** One step of the whole system: a call of a process of the program,
    or a step of an image, as in [Dataflow.xstep]. *)
Definition fstep (C : config) (L : list string) (x x' : xstate) : Prop :=
  exists x0, xstep C L x x0 /\ x' = sync L x0.

(** The empty pipes of [xinit]. *)
Lemma fresh_lookup n p :
  (list_to_map ((fun p => (p, [])) <$> seq 0 n) : gmap nat (list string)) !! p =
    if decide (p < n) then Some [] else None.
Proof.
  assert (Hfst : ((fun p => (p, [] : list string)) <$> seq 0 n).*1 = seq 0 n).
  { rewrite <- list_fmap_compose. apply list_fmap_id. }
  case_decide.
  - apply elem_of_list_to_map_1; [rewrite Hfst; apply NoDup_seq|].
    apply list_elem_of_fmap. exists p. split; [done | apply elem_of_seq; lia].
  - apply not_elem_of_list_to_map_1. rewrite Hfst, elem_of_seq. lia.
Qed.

(** A call of the build from a state where nothing has flowed yet: the
    pipes it creates are empty and the images it starts are at their
    beginning, as [xinit] has them. *)
Lemma sync_xinit L s s' :
  k_next_pipe s <= k_next_pipe s' ->
  (forall i ph, k_procs s !! i ≫= image_phase L = Some ph -> k_procs s' !! i ≫= image_phase L = Some ph) ->
  sync L (mkX s' (x_pipes (xinit L s)) (x_phase (xinit L s))) = xinit L s'.
Proof.
  intros Hn Hi. unfold sync, xinit. cbn [x_k x_pipes x_phase]. f_equal; apply map_eq; intros i.
  - rewrite lookup_union, !fresh_lookup. repeat case_decide; try lia; done.
  - rewrite lookup_union, !lookup_omap.
    destruct (k_procs s !! i ≫= image_phase L) eqn:E; [by rewrite (Hi i _ E)|].
    cbn. by destruct (k_procs s' !! i ≫= image_phase L).
Qed.

(** A process that makes a call is running code. *)
Lemma step_running C s pid s' :
  step_proc C s pid = Some s' -> exists p k, k_procs s !! pid = Some p /\ p_state p = Running k.
Proof.
  unfold step_proc. destruct (k_procs s !! pid) as [p|]; [|done]. intros H.
  destruct (p_state p) as [k| |] eqn:E; [by eauto|..]; unfold local_call in H; by rewrite E in H.
Qed.

(** A process that makes a local call is running code. *)
Lemma local_call_running C p p' : local_call C p = Some p' -> exists c, p_state p = Running c.
Proof. unfold local_call. destruct (p_state p) as [c| |]; [by eexists | done | done]. Qed.

(** Only [pipe] allocates a pipe number. *)
Lemma step_next_pipe C s pid s' :
  step_proc C s pid = Some s' ->
  k_next_pipe s' = k_next_pipe s \/ exists p k, k_procs s !! pid = Some p /\ p_state p = Running (Pipe k).
Proof.
  unfold step_proc. intros Hs. destruct (k_procs s !! pid) as [p|]; [|done].
  destruct (p_state p) as [[]| |] eqn:Hp; try (right; by eauto); left;
    first [apply fmap_Some in Hs as (? & _ & ->); done
          | unfold do_wait, do_fork in Hs; repeat case_match; simplify_eq; done
          | simplify_eq; unfold do_fork, do_write; repeat case_match; done].
Qed.

Lemma xstep_next_pipe C L x x0 :
  xstep C L x x0 -> (forall pid p k, k_procs (x_k x) !! pid = Some p -> p_state p <> Running (Pipe k)) ->
  k_next_pipe (x_k x0) = k_next_pipe (x_k x).
Proof.
  intros Hs Hno. destruct Hs as [x pid k' Hst| | | | | |]; try done.
  destruct (step_next_pipe _ _ _ _ Hst) as [|(p & k & Hp & Hk)]; [done|]. by destruct (Hno _ _ _ Hp Hk).
Qed.

Section whole.
  Context (C : config) (sup : nat) (T : fdtab) (term : string).
  Context (r0 w0 r1 w1 : nat) (t0 t1 : fdtab) (L : list string) (n1 : nat).
  Hypothesis (Hp0 : fd_pipe (open_max C) T 0 = Some (r0, w0, t0)).
  Hypothesis (Hp1 : fd_pipe (open_max C) t0 1 = Some (r1, w1, t1)).
  Hypothesis (Hd : NoDup [r0; w0; r1; w1; 0; 1]).
  Hypothesis (Hom : 1 < open_max C) (Hpm : 4 <= proc_max C).
  Hypothesis (Hps : "ps" ∈ path C) (Hgrep : "grep" ∈ path C) (Hwc : "wc" ∈ path C).
  Hypothesis (HT1 : T !! 1 = Some (DTerm n1)) (Hnopipe : pipes_below 0 T) (Hsup : init_pid < sup).

  Local Abbreviation ch := (Build.ch C sup T term r0 w0 t0).
  Local Abbreviation gc := (Build.gc C sup term r0 w0 r1 w1 t0 t1).
  Local Abbreviation gg := (Build.gg C sup r0 w0 r1 w1 t1).
  Local Abbreviation bstate := (Build.bstate C sup T term r0 w0 r1 w1 t0 t1).
  Local Abbreviation conc_proc := (Flow.conc_proc sup T term).
  Local Abbreviation wc_table := (Flow.wc_table T).
  Local Abbreviation grep_table := (Flow.grep_table T).
  Local Abbreviation ps_table := (Flow.ps_table T).

  (** The two tables the build's pipes leave, with the pipe ends fresh. *)
Lemma tables :
  t0 = <[w0 := DPipeWr 0]> (<[r0 := DPipeRd 0]> T) /\ t1 = <[w1 := DPipeWr 1]> (<[r1 := DPipeRd 1]> t0) /\
  T !! r0 = None /\ T !! w0 = None /\ T !! r1 = None /\ T !! w1 = None.
Proof.
  destruct (fd_pipe_Some _ _ _ _ _ _ Hp0) as (_ & Hr0 & Hw0 & _ & _ & _ & ->).
  destruct (fd_pipe_Some _ _ _ _ _ _ Hp1) as (_ & Hr1 & Hw1 & _ & _ & _ & ->).
  pose proof Hd as Hd'. nodup_facts Hd'.
  split_and!; try done; by simplify_map_eq.
Qed.

(** Tactic for lookups in the tables of the build. *)
Ltac table_tac :=
  let E0 := fresh "E0" in let E1 := fresh "E1" in let N := fresh "Hnd" in
  destruct tables as (E0 & E1 & ? & ? & ? & ?); rewrite ?E1, ?E0; clear E0 E1; pose proof Hd as N;
  nodup_facts N; simplify_map_eq; try done.
  (** Where each process of the build ends: the records [Flow] gives the
      three commands. *)
Lemma ch_final : ch 6 = mkProc sup wc_table ENOERR (Image "wc" ["wc"; "-l"]).
Proof.
  cbn [Build.ch]. unfold Build.ch2, Build.fds0.
  rewrite (child_body_run C sup t0 ENOERR r0 w0 (DPipeRd 0) (DPipeWr 0)) by first [lia | solve [table_tac]].
  cbn [default from_option id]. f_equal. destruct tables as (E0 & _ & ? & ? & _ & _). rewrite E0. clear E0.
  pose proof Hd as Hd'. nodup_facts Hd'. unfold Flow.wc_table. map_ext.
Qed.

Lemma gc_final : gc 9 = mkProc (S sup) grep_table ENOERR (Image "grep" ["grep"; term]).
Proof.
  cbn [Build.gc]. unfold Build.gc2, Build.fds0, Build.fds1. pose proof Hd as Hd'. nodup_facts Hd'.
  rewrite (grandchild_body_run C (S sup) t1 ENOERR term r0 w0 r1 w1 (DPipeRd 0) (DPipeWr 0)
             (DPipeRd 1) (DPipeWr 1)) by first [nodup_tac | done | solve [table_tac]].
  cbn [default from_option id]. f_equal. destruct tables as (E0 & E1 & ? & ? & ? & ?). rewrite E1, E0. clear E0 E1.
  unfold Flow.grep_table. map_ext.
Qed.

Lemma gg_final : gg 6 = mkProc (S (S sup)) ps_table ENOERR (Image "ps" ["ps"; "aux"]).
Proof.
  unfold Build.gg, Build.gg0, Build.fds0, Build.fds1. pose proof Hd as Hd'. nodup_facts Hd'.
  rewrite (great_grandchild_run C (S (S sup)) t1 ENOERR r0 w0 r1 w1 (DPipeRd 0) (DPipeWr 0)
             (DPipeRd 1) (DPipeWr 1)) by first [nodup_tac | done | solve [table_tac]].
  cbn [default from_option id]. f_equal. destruct tables as (E0 & E1 & ? & ? & ? & ?). rewrite E1, E0. clear E0 E1.
  unfold Flow.ps_table. map_ext.
Qed.
  (** Before its [execlp], each process of the build runs code. *)
Lemma ch_running b : b < 6 -> exists k, p_state (ch b) = Running k.
Proof.
  intros Hb. destruct b as [|[|b]]; [by eexists.. |]. cbn [Build.ch].
  destruct (Build.ch_run C sup T r0 w0 r1 w1 t0 t1 Hp0 Hp1 Hd Hom Hpm Hwc) as (q & Hq & _).
  eapply local_call_running, (Build.traj_step C _ 4 q b); [exact Hq | lia].
Qed.

Lemma gc_running c : c < 9 -> exists k, p_state (gc c) = Running k.
Proof.
  intros Hc. destruct c as [|[|c]]; [by eexists.. |]. cbn [Build.gc].
  destruct (Build.gc_run C sup T term r0 w0 r1 w1 t0 t1 Hp0 Hp1 Hd Hom Hpm Hgrep) as (q & Hq & _).
  eapply local_call_running, (Build.traj_step C _ 7 q c); [exact Hq | lia].
Qed.

Lemma gg_running d : d < 6 -> exists k, p_state (gg d) = Running k.
Proof.
  intros Hdd. unfold Build.gg.
  destruct (Build.gg_run C sup T r0 w0 r1 w1 t0 t1 Hp0 Hp1 Hd Hom Hpm Hps) as (q & Hq & _).
  eapply local_call_running, (Build.traj_step C _ 6 q d); [exact Hq | lia].
Qed.

(** The tables of the build made explicit, for running the bodies. *)
Ltac body_prep :=
  let E0 := fresh "E0" in let E1 := fresh "E1" in let N := fresh "Hnd" in
  destruct tables as (E0 & E1 & ? & ? & ? & ?); rewrite ?E1, ?E0; clear E0 E1;
  pose proof Hd as N; nodup_facts N.

  (** The pipe ends the processes of the build hold before their
      [execlp]: the child holds the read end of the first pipe, the
      grandchild its write end and the read end of the second pipe, the
      great-grandchild the write end of the second pipe. *)
Lemma ch_holds b : 1 <= b <= 5 -> exists fd, p_fds (ch b) !! fd = Some (DPipeRd 0).
Proof.
  intros Hb. unfold Build.ch2, Build.fds0.
  destruct b as [|[|[|[|[|[|b]]]]]]; try lia; cbn [Build.ch Build.pipe_ret p_fds]; body_prep.
  - exists r0. by simplify_map_eq.
  - exists r0. by simplify_map_eq.
  - do 1 local_step. exists r0. by simplify_map_eq.
  - do 2 local_step. exists 0. by simplify_map_eq.
  - do 3 local_step. exists 0. by simplify_map_eq.
Qed.

Lemma gc_holds c :
  c <= 8 -> (exists fd, p_fds (gc c) !! fd = Some (DPipeWr 0)) /\
            (1 <= c -> exists fd, p_fds (gc c) !! fd = Some (DPipeRd 1)).
Proof.
  intros Hc. unfold Build.gc2, Build.fds0, Build.fds1.
  destruct c as [|[|[|[|[|[|[|[|[|c]]]]]]]]]; try lia; cbn [Build.gc Build.pipe_ret p_fds]; body_prep;
    [| | | do 1 local_step | do 2 local_step | do 3 local_step | do 4 local_step | do 5 local_step
     | do 6 local_step]; cbn [default from_option id p_fds]; split; try lia; intros;
    first [exists w0; by simplify_map_eq | exists 1; by simplify_map_eq
          | exists r1; by simplify_map_eq | exists 0; by simplify_map_eq].
Qed.

Lemma gg_holds d : d <= 5 -> exists fd, p_fds (gg d) !! fd = Some (DPipeWr 1).
Proof.
  intros Hdd. unfold Build.gg, Build.gg0, Build.fds0, Build.fds1.
  destruct d as [|[|[|[|[|[|d]]]]]]; try lia; body_prep;
    [| do 1 local_step | do 2 local_step | do 3 local_step | do 4 local_step | do 5 local_step];
    cbn [default from_option id p_fds]; first [exists w1; by simplify_map_eq | exists 1; by simplify_map_eq].
Qed.
  (** The commands the three images run, at their start. *)
Lemma final_phases :
  image_phase L (mkProc sup wc_table ENOERR (Image "wc" ["wc"; "-l"])) = Some (Reading []) /\
  image_phase L (mkProc (S sup) grep_table ENOERR (Image "grep" ["grep"; term])) = Some (Reading []) /\
  image_phase L (mkProc (S (S sup)) ps_table ENOERR (Image "ps" ["ps"; "aux"])) =
    Some (Writing (cmd_output L CPs [])).
Proof. unfold image_phase. cbn [p_state]. by rewrite cmd_of_wc, cmd_of_grep, cmd_of_ps. Qed.

Lemma running_phase q k : p_state q = Running k -> image_phase L q = None.
Proof. intros Hq. unfold image_phase. by rewrite Hq. Qed.

  (** In a state of the build, the images are the processes whose
      counter is at its end, each at the start of its command. *)
Lemma bstate_image a b c d i ph :
  Build.bvalid a b c d -> k_procs (bstate a b c d) !! i ≫= image_phase L = Some ph ->
  (i = S sup /\ b = 6 /\ ph = Reading []) \/ (i = S (S sup) /\ c = 9 /\ ph = Reading []) \/
  (i = S (S (S sup)) /\ d = 6 /\ ph = Writing (cmd_output L CPs [])).
Proof.
  intros (Ha & Hb & Hc & Hdd & _). pose proof final_phases as (Fw & Fg & Fp).
  cbn [Build.bstate k_procs]. rewrite Build.bmap_lookup.
  repeat case_decide; subst; repeat case_match; cbn [mbind option_bind]; try discriminate; intros Hph.
  - destruct (decide (d < 6)) as [Hl|Hl].
    + destruct (gg_running d Hl) as [k Hk]. by rewrite (running_phase _ k Hk) in Hph.
    + assert (d = 6) as -> by lia. rewrite gg_final, Fp in Hph. right; right. naive_solver.
  - destruct (decide (c < 9)) as [Hl|Hl].
    + destruct (gc_running c Hl) as [k Hk]. by rewrite (running_phase _ k Hk) in Hph.
    + assert (c = 9) as -> by lia. rewrite gc_final, Fg in Hph. right; left. naive_solver.
  - destruct (decide (b < 6)) as [Hl|Hl].
    + destruct (ch_running b Hl) as [k Hk]. by rewrite (running_phase _ k Hk) in Hph.
    + assert (b = 6) as -> by lia. rewrite ch_final, Fw in Hph. left. naive_solver.
  - unfold Build.sup_rec in Hph. by case_match.
Qed.
  (** A call of the build from a state where nothing has flowed: the
      images already started stay where they are, and the new state is
      again the start of every image with every pipe empty. *)
Lemma P_call a b c d pid k' :
  Build.bvalid a b c d -> step_proc C (bstate a b c d) pid = Some k' ->
  exists a' b' c' d', Build.bvalid a' b' c' d' /\ a' + b' + c' + d' = S (a + b + c + d) /\
    sync L (mkX k' (x_pipes (xinit L (bstate a b c d))) (x_phase (xinit L (bstate a b c d)))) =
      xinit L (bstate a' b' c' d').
Proof.
  intros Hv Hs.
  destruct (Build.bstep_bstate C sup T term r0 w0 r1 w1 t0 t1 Hp0 Hp1 Hd Hom Hpm Hps Hgrep Hwc
              a b c d k' Hv (ex_intro _ pid Hs))
    as (a' & b' & c' & d' & -> & Hv' & Ha & Hb & Hc & Hdd & Hsum).
  exists a', b', c', d'. split_and!; [done | done |]. apply sync_xinit.
  - cbn [Build.bstate k_next_pipe]. Build.nat_cmp; lia.
  - intros i ph Hi. pose proof Hv' as (? & ? & ? & ? & ? & ? & ?).
    destruct (bstate_image a b c d i ph Hv Hi) as [(-> & -> & ->)|[(-> & -> & ->)|(-> & -> & ->)]];
      revert Hi; cbn [Build.bstate k_procs]; rewrite !Build.bmap_lookup;
      repeat case_decide; try lia; Build.nat_cmp; intros Hi;
      repeat match goal with H : ?x <= ?y, H' : ?y <= ?x |- _ => assert (x = y) as -> by lia end;
      done.
Qed.
(** A lookup in a state of the build. *)
Ltac blook :=
  cbn [Build.bstate k_procs]; rewrite Build.bmap_lookup; repeat (case_decide; try lia); Build.nat_cmp;
  cbn -[Build.ch Build.gc Build.gg Build.sup_rec]; try done.

  (** Before [ps] runs, no image can move: [wc] and [grep] have nothing to
      read, and the write end of their pipe is still held by a process of
      the build; so every step is a call of a process of the build. *)
Lemma P_xstep a b c d x0 :
  Build.bvalid a b c d -> d < 6 -> xstep C L (xinit L (bstate a b c d)) x0 ->
  exists pid k', step_proc C (bstate a b c d) pid = Some k' /\
    x0 = mkX k' (x_pipes (xinit L (bstate a b c d))) (x_phase (xinit L (bstate a b c d))).
Proof.
  intros Hv Hdd Hs. pose proof Hv as (? & ? & ? & ? & ? & ? & ?).
  remember (xinit L (bstate a b c d)) as xi eqn:Exi.
  destruct Hs as [x pid k' Hst|x pid q file argv acc p l rest Hq Hst Hphx Hfd Hb
                 |x pid q file argv cm acc p Hq Hst Hc Hphx Hfd Hb Hwo
                 |x pid q file argv l rest p b' Hq Hst Hphx Hfd Hb Hro
                 |x pid q file argv l rest p Hq Hst Hphx Hfd Hro
                 |x pid q file argv l rest n Hq Hst Hphx Hfd|x pid q file argv Hq Hst Hphx];
    subst x; [by eexists _, _|..];
    cbn [xinit x_phase x_pipes x_k] in *; rewrite lookup_omap in Hphx;
    (destruct (bstate_image a b c d pid _ Hv Hphx) as [(-> & -> & Eph)|[(-> & -> & Eph)|(-> & -> & Eph)]];
     [| | lia]; try discriminate); exfalso.
  - rewrite fresh_lookup in Hb. by case_decide.
  - rewrite fresh_lookup in Hb. by case_decide.
  - revert Hq. blook. rewrite ch_final. intros [= <-]. cbn [p_fds] in Hfd. unfold Flow.wc_table in Hfd.
    simplify_map_eq. apply Hwo.
    destruct (decide (c < 9)).
    + destruct (gc_holds c ltac:(lia)) as [[fd Hfd'] _]. exists (S (S sup)), fd, (gc c).
      split; [blook | done].
    + assert (c = 9) as -> by lia. exists (S (S sup)), 1, (gc 9). split; [blook|].
      rewrite gc_final. unfold Flow.grep_table. cbn. by simplify_map_eq.
  - revert Hq. blook. rewrite gc_final. intros [= <-]. cbn [p_fds] in Hfd. unfold Flow.grep_table in Hfd.
    simplify_map_eq. apply Hwo.
    destruct (gg_holds d ltac:(lia)) as [fd Hfd']. exists (S (S (S sup))), fd, (gg d).
    split; [blook | done].
Qed.
  (** The whole system before [ps] runs: each step is a call of the
      build, after which the state is again the start of the data flow
      from a state of the build. *)
Lemma P_fstep a b c d x' :
  Build.bvalid a b c d -> d < 6 -> fstep C L (xinit L (bstate a b c d)) x' ->
  exists a' b' c' d', Build.bvalid a' b' c' d' /\ a' + b' + c' + d' = S (a + b + c + d) /\
    x' = xinit L (bstate a' b' c' d').
Proof.
  intros Hv Hdd (x0 & Hs & ->). destruct (P_xstep a b c d x0 Hv Hdd Hs) as (pid & k' & Hst & ->).
  destruct (P_call a b c d pid k' Hv Hst) as (a' & b' & c' & d' & ? & ? & ->). by exists a', b', c', d'.
Qed.

(** Once [ps] runs: the child after [b] calls and the grandchild after
    [c] calls, both possibly still in their bodies, and the other
    processes as the stream machine [ast] has them. *)
Definition fproc (b c : nat) (ast : astate) (i : nat) : option proc :=
  if decide (i = S sup /\ b < 6) then Some (ch b)
  else if decide (i = S (S sup) /\ c < 9) then Some (gc c)
  else conc_proc ast i.

Definition fphase (b c : nat) (ast : astate) (i : nat) : option dphase :=
  if decide ((i = S sup /\ b < 6) \/ (i = S (S sup) /\ c < 9)) then None else conc_phase sup ast i.

Definition frel (x : xstate) (b c : nat) (ast : astate) : Prop :=
  (forall i, k_procs (x_k x) !! i = fproc b c ast i) /\ (forall i, x_phase x !! i = fphase b c ast i) /\
  (forall j, x_pipes x !! j = conc_pipe ast j) /\ k_next_pipe (x_k x) = 2 /\ k_out (x_k x) = a_out ast.

(** A stage that has not yet started is at the start of its command. *)
Definition fvalid (b c : nat) (ast : astate) : Prop :=
  2 <= b <= 6 /\ 2 <= c <= 9 /\ (b < 6 -> a_w ast = WRead []) /\ (c < 9 -> a_g ast = GRead []) /\
  ainv L term (S sup) sup (DTerm n1) ast.

(** Whether the child and the grandchild are at the end of their calls. *)
Ltac counters_at_end b c :=
  (destruct (decide (b < 6)); [|assert (b = 6) as -> by lia]);
  (destruct (decide (c < 9)); [|assert (c = 9) as -> by lia]).

  (** The step of the great-grandchild that execs [ps] enters this
      regime at the start of the stream machine. *)
Lemma F_start b c :
  Build.bvalid 1 b c 6 -> frel (xinit L (bstate 1 b c 6)) b c (astart L) /\ fvalid b c (astart L).
Proof.
  intros Hv. pose proof Hv as (_ & ? & ? & _ & _ & H1 & H2).
  assert (2 <= c) by (destruct (decide (c < 2)); [specialize (H2 ltac:(done)); lia | lia]).
  assert (2 <= b) by (destruct (decide (b < 2)); [specialize (H1 ltac:(done)); lia | lia]).
  pose proof final_phases as (Fw & Fg & Fp).
  split; [unfold frel; cbn [xinit x_k x_phase x_pipes]; split_and! |].
  - intros i. unfold fproc, Flow.conc_proc. cbn [Build.bstate k_procs]. rewrite Build.bmap_lookup.
    counters_at_end b c.
    all: repeat case_decide; subst; try lia; Build.nat_cmp; cbn -[Build.ch Build.gc Build.gg];
      rewrite ?ch_final, ?gc_final, ?gg_final; done.
  - intros i. rewrite lookup_omap. unfold fphase, conc_phase. cbn [Build.bstate k_procs].
    rewrite Build.bmap_lookup. counters_at_end b c.
    all: repeat case_decide; subst; try lia; Build.nat_cmp; cbn -[Build.ch Build.gc Build.gg image_phase];
      rewrite ?ch_final, ?gc_final, ?gg_final, ?Fw, ?Fg, ?Fp; try done;
      first [ destruct (gc_running c ltac:(lia)) as [k Hk]; by rewrite (running_phase _ k Hk)
            | destruct (ch_running b ltac:(lia)) as [k Hk]; by rewrite (running_phase _ k Hk) ].
  - intros j. rewrite fresh_lookup. cbn [Build.bstate k_next_pipe]. Build.nat_cmp.
    destruct j as [|[|j]]; cbn; [done | done |]. case_decide; [lia | done].
  - cbn [Build.bstate k_next_pipe]. Build.nat_cmp.
  - done.
  - unfold fvalid. split_and!; try lia; try done. apply ainv_start.
Qed.
  (** A process without a phase is not a running image. *)
Lemma fproc_no_image b c ast i : fphase b c ast i = None -> fproc b c ast i ≫= image_phase L = None.
Proof.
  unfold fphase, fproc, Flow.conc_proc, conc_phase. intros Hn.
  repeat case_decide; subst; try lia; try (apply fmap_None in Hn; rewrite Hn);
    repeat case_match; simplify_eq; cbn [mbind option_bind ps_alive]; try done;
    first [ destruct (ch_running b ltac:(lia)) as [k Hk]; by rewrite (running_phase _ k Hk)
          | destruct (gc_running c ltac:(lia)) as [k Hk]; by rewrite (running_phase _ k Hk)
          | unfold image_phase; cbn; by destruct (a_sup ast) ].
Qed.

  (** After a step: [sync] gives a phase exactly to the images that have
      none yet, and no pipe is created. *)
Lemma frel_sync x b c ast :
  (forall i, k_procs (x_k x) !! i = fproc b c ast i) ->
  (forall i, x_phase x !! i = fphase b c ast i \/
             (x_phase x !! i = None /\ fproc b c ast i ≫= image_phase L = fphase b c ast i)) ->
  (forall j, x_pipes x !! j = conc_pipe ast j) -> k_next_pipe (x_k x) = 2 -> k_out (x_k x) = a_out ast ->
  frel (sync L x) b c ast.
Proof.
  intros Hp Hph Hpi Hn Ho. unfold frel, sync. cbn [x_k x_phase x_pipes]. split_and!; try done.
  - intros i. rewrite lookup_union, lookup_omap, Hp.
    destruct (Hph i) as [E|[E E']]; rewrite E; [|rewrite E'; by destruct (fphase b c ast i)].
    destruct (fphase b c ast i) eqn:F; [by destruct (fproc b c ast i ≫= image_phase L)|].
    by rewrite (fproc_no_image b c ast i F).
  - intros j. rewrite lookup_union, Hpi, fresh_lookup, Hn.
    destruct j as [|[|j]]; cbn; [done | done |]. case_decide; [lia | done].
Qed.

  (** With the build over, the relation is [Flow]'s abstraction. *)
Lemma frel_abs x ast : frel x 6 9 ast -> Flow.abs sup T term x ast.
Proof.
  intros (Hp & Hph & Hpi & _ & Ho). split_and!; [| | done | done]; intros i.
  - rewrite Hp. unfold fproc. by repeat case_decide; try lia.
  - rewrite Hph. unfold fphase. by case_decide; try lia.
Qed.

Lemma abs_frel x ast : Flow.abs sup T term x ast -> k_next_pipe (x_k x) = 2 -> frel x 6 9 ast.
Proof.
  intros (Hp & Hph & Hpi & Ho) Hn. split_and!; try done; intros i.
  - rewrite Hp. unfold fproc. by repeat case_decide; try lia.
  - rewrite Hph. unfold fphase. by case_decide; try lia.
Qed.
  (** While the build is not over, [wc] has not exited and the supervisor
      waits: [grep] has not finished (or the child is still building),
      so the stream machine is before [wc]'s end-of-file. *)
Lemma F_incomplete b c ast :
  fvalid b c ast -> ~ (b = 6 /\ c = 9) ->
  (exists acc, a_w ast = WRead acc) /\ a_sup ast = SWait /\ a_out ast = [].
Proof.
  intros (? & ? & Hw & Hg & Hinv) Hnc. destruct ast as [ps b1 g b0 w sp out]; cbn in *.
  destruct (decide (c < 9)).
  - assert (g = GRead []) as -> by (apply Hg; done). inversion Hinv; subst. eauto.
  - assert (w = WRead []) as -> by (apply Hw; lia). inversion Hinv; subst; eauto.
Qed.

  (** While the build is not over, only the child and the grandchild can
      call: the supervisor waits for [wc], which has not exited. *)
Lemma F_call_other x b c ast pid k' :
  frel x b c ast -> fvalid b c ast -> ~ (b = 6 /\ c = 9) -> step_proc C (x_k x) pid = Some k' ->
  (pid = S sup /\ b < 6) \/ (pid = S (S sup) /\ c < 9).
Proof.
  intros Hr Hv Hnc Hs. pose proof Hr as (Hp & _).
  destruct (F_incomplete b c ast Hv Hnc) as ([acc Hw] & Hsp & _).
  destruct (step_running _ _ _ _ Hs) as (p & k & Hpid & Hk).
  destruct (decide ((pid = S sup /\ b < 6) \/ (pid = S (S sup) /\ c < 9))) as [|Hno]; [done|]. exfalso.
  rewrite Hp in Hpid. unfold fproc in Hpid. rewrite !decide_False in Hpid by naive_solver.
  unfold Flow.conc_proc in Hpid. rewrite Hw, Hsp in Hpid.
  repeat case_decide; subst; try discriminate; repeat case_match; simplify_eq; cbn in Hk; try discriminate.
  unfold step_proc in Hs. rewrite Hp in Hs. unfold fproc, Flow.conc_proc in Hs.
  rewrite !decide_False in Hs by lia. rewrite decide_True in Hs by done. rewrite Hsp in Hs. cbn in Hs.
  rewrite do_wait_blocked in Hs; [done | |].
  - destruct (decide (b < 6)).
    + eapply (children_nonempty _ _ (S sup) (ch b)); [rewrite Hp; unfold fproc; by rewrite decide_True|].
      apply (Build.ch_facts C sup T term r0 w0 t0).
    + apply (children_nonempty _ _ (S sup) (mkProc sup wc_table ENOERR (Image "wc" ["wc"; "-l"])));
        [|done].
      rewrite Hp. unfold fproc, Flow.conc_proc.
      rewrite !decide_False, decide_True by lia. by rewrite Hw.
  - apply exited_children_none. intros i q Hq Hpp st Hst. rewrite Hp in Hq. unfold fproc, Flow.conc_proc in Hq.
    rewrite Hw in Hq. repeat case_decide; subst; simplify_eq; repeat case_match; simplify_eq; cbn in *;
      try (unfold init_pid in *; lia); try lia.
    + destruct (Build.ch_facts C sup T term r0 w0 t0 b) as [_ Hl]. by rewrite Hst in Hl.
    + destruct (Build.gc_facts C sup term r0 w0 r1 w1 t0 t1 c) as [? _]. lia.
Qed.
  (** A call of the child while [ps] runs: one more call of its body,
      and at its [execlp], [wc] starts reading. *)
Lemma F_call_child x b c ast k' :
  frel x b c ast -> fvalid b c ast -> b < 6 -> step_proc C (x_k x) (S sup) = Some k' ->
  frel (sync L (mkX k' (x_pipes x) (x_phase x))) (S b) c ast /\ fvalid (S b) c ast.
Proof.
  intros Hr Hv Hb Hs. pose proof Hr as (Hp & Hph & Hpi & Hn & Ho). pose proof Hv as (? & ? & Hw & Hg & ?).
  pose proof final_phases as (Fw & _ & _).
  destruct (Build.ch_run C sup T r0 w0 r1 w1 t0 t1 Hp0 Hp1 Hd Hom Hpm Hwc) as (q & Hq & _).
  destruct b as [|[|j]]; [lia | lia |].
  assert (k' = upd_proc (x_k x) (S sup) (ch (S (S (S j))))) as ->.
  { rewrite (Build.step_traj C (x_k x) (S sup) (Build.ch2 sup r0 w0 t0) 4 q j) in Hs;
      [by injection Hs | rewrite Hp; unfold fproc; by rewrite decide_True | exact Hq | lia]. }
  split; [|unfold fvalid; split_and!; try lia; try done; intros; apply Hw; lia].
  apply frel_sync; cbn [x_k x_phase x_pipes upd_proc k_procs k_next_pipe k_out]; try done.
  - intros i. rewrite lookup_insert. unfold fproc. case_decide; subst.
    + destruct (decide (S (S (S j)) < 6)).
      * by rewrite decide_True by lia.
      * assert (j = 3) as -> by lia. rewrite ch_final, decide_False by lia. unfold Flow.conc_proc.
        repeat (rewrite decide_False by lia). by rewrite decide_True, Hw by lia.
    + rewrite Hp. unfold fproc. repeat case_decide; naive_solver.
  - intros i. destruct (decide (i = S sup)) as [->|]; [right|left].
    + rewrite Hph. unfold fphase, fproc. rewrite decide_True by lia. split; [done|].
      destruct (decide (S (S (S j)) < 6)).
      * rewrite decide_True, decide_True by lia. cbn [mbind option_bind].
        destruct (ch_running (S (S (S j))) ltac:(lia)) as [k Hk]. by rewrite (running_phase _ k Hk).
      * assert (j = 3) as -> by lia. unfold Flow.conc_proc, conc_phase.
        repeat case_decide; try lia. rewrite Hw by lia. cbn [mbind option_bind]. by rewrite Fw.
    + rewrite Hph. unfold fphase. repeat case_decide; naive_solver.
Qed.

  (** A call of the grandchild while [ps] runs: one more call of its
      body, and at its [execlp], [grep] starts reading. *)
Lemma F_call_gc x b c ast k' :
  frel x b c ast -> fvalid b c ast -> c < 9 -> step_proc C (x_k x) (S (S sup)) = Some k' ->
  frel (sync L (mkX k' (x_pipes x) (x_phase x))) b (S c) ast /\ fvalid b (S c) ast.
Proof.
  intros Hr Hv Hc Hs. pose proof Hr as (Hp & Hph & Hpi & Hn & Ho). pose proof Hv as (? & ? & Hw & Hg & Hinv).
  pose proof final_phases as (_ & Fg & _).
  assert (a_w ast = WRead []) as Hw'.
  { destruct ast as [ps b1 g b0 w sp out]; cbn in *. assert (g = GRead []) as -> by (apply Hg; done).
    by inversion Hinv. }
  destruct (Build.gc_run C sup T term r0 w0 r1 w1 t0 t1 Hp0 Hp1 Hd Hom Hpm Hgrep) as (q & Hq & _).
  destruct c as [|[|j]]; [lia | lia |].
  assert (k' = upd_proc (x_k x) (S (S sup)) (gc (S (S (S j))))) as ->.
  { rewrite (Build.step_traj C (x_k x) (S (S sup)) (Build.gc2 sup term r0 w0 r1 w1 t1) 7 q j) in Hs;
      [by injection Hs | rewrite Hp; unfold fproc; rewrite decide_False, decide_True by lia; done
      | exact Hq | lia]. }
  split; [|unfold fvalid; split_and!; try lia; try done; intros; apply Hg; lia].
  apply frel_sync; cbn [x_k x_phase x_pipes upd_proc k_procs k_next_pipe k_out]; try done.
  - intros i. rewrite lookup_insert. unfold fproc. case_decide; subst.
    + rewrite decide_False by lia. destruct (decide (S (S (S j)) < 9)).
      * by rewrite decide_True by lia.
      * assert (j = 6) as -> by lia. rewrite gc_final, decide_False by lia. unfold Flow.conc_proc.
        repeat (rewrite decide_False by lia). by rewrite decide_True, Hw', Hg by lia.
    + rewrite Hp. unfold fproc. repeat case_decide; naive_solver.
  - intros i. destruct (decide (i = S (S sup))) as [->|]; [right|left].
    + rewrite Hph. unfold fphase, fproc. rewrite decide_True by lia. split; [done|].
      destruct (decide (S (S (S j)) < 9)).
      * repeat case_decide; try lia. cbn [mbind option_bind].
        destruct (gc_running (S (S (S j))) ltac:(lia)) as [k Hk]. by rewrite (running_phase _ k Hk).
      * assert (j = 6) as -> by lia. unfold Flow.conc_proc, conc_phase.
        repeat case_decide; try lia. rewrite Hw', Hg by lia. cbn [mbind option_bind w_alive g_alive].
        by rewrite Fg.
    + rewrite Hph. unfold fphase. repeat case_decide; naive_solver.
Qed.
  (** Pipe ends still open while [ps] runs.  The write end of the first
      pipe is held by the grandchild until [grep] exits; the write end of
      the second by [ps] until it exits; the read end of the first by the
      child, then [wc]; the read end of the second by the grandchild,
      then [grep]. *)
Lemma F_w0_open x b c ast :
  frel x b c ast -> c < 9 \/ g_alive (a_g ast) = true -> write_open (x_k x) 0.
Proof.
  intros (Hp & _) Hc. exists (S (S sup)). destruct (decide (c < 9)).
  - destruct (gc_holds c ltac:(lia)) as [[fd Hfd] _]. exists fd, (gc c).
    rewrite Hp. unfold fproc. by rewrite decide_False, decide_True by lia.
  - destruct Hc as [|Hg]; [lia|]. exists 1. unfold holds. rewrite Hp. unfold fproc, Flow.conc_proc.
    repeat (rewrite decide_False by lia). rewrite decide_True, Hg by done. eexists. split; [done|].
    cbn. unfold Flow.grep_table. by simplify_map_eq.
Qed.

Lemma F_w1_open x b c ast : frel x b c ast -> ps_alive (a_ps ast) = true -> write_open (x_k x) 1.
Proof.
  intros (Hp & _) Hps'. exists (S (S (S sup))), 1. unfold holds. rewrite Hp. unfold fproc, Flow.conc_proc.
  repeat (rewrite decide_False by lia). rewrite decide_True, Hps' by done. eexists. split; [done|].
  cbn. unfold Flow.ps_table. by simplify_map_eq.
Qed.

Lemma F_r0_open x b c ast :
  frel x b c ast -> 2 <= b -> b < 6 \/ w_alive (a_w ast) = true -> read_open (x_k x) 0.
Proof.
  intros (Hp & _) Hb2 Hb. exists (S sup). destruct (decide (b < 6)).
  - destruct (ch_holds b ltac:(lia)) as [fd Hfd]. exists fd, (ch b).
    rewrite Hp. unfold fproc. by rewrite decide_True by lia.
  - destruct Hb as [|Hw]; [lia|]. exists 0. unfold holds. rewrite Hp. unfold fproc, Flow.conc_proc.
    repeat (rewrite decide_False by lia). rewrite decide_True by done.
    destruct (a_w ast); try discriminate; eexists; (split; [done|]); cbn; unfold Flow.wc_table;
      by simplify_map_eq.
Qed.

Lemma F_r1_open x b c ast :
  frel x b c ast -> 2 <= c -> c < 9 \/ g_alive (a_g ast) = true -> read_open (x_k x) 1.
Proof.
  intros (Hp & _) Hc2 Hc. exists (S (S sup)). destruct (decide (c < 9)).
  - destruct (gc_holds c ltac:(lia)) as [_ [fd Hfd]]; [lia|]. exists fd, (gc c).
    rewrite Hp. unfold fproc. by rewrite decide_False, decide_True by lia.
  - destruct Hc as [|Hg]; [lia|]. exists 0. unfold holds. rewrite Hp. unfold fproc, Flow.conc_proc.
    repeat (rewrite decide_False by lia). rewrite decide_True, Hg by done. eexists. split; [done|].
    cbn. unfold Flow.grep_table. by simplify_map_eq.
Qed.
Lemma builders_ppid b c : p_ppid (ch b) = sup /\ p_ppid (gc c) = S sup.
Proof.
  split; [apply (Build.ch_facts C sup T term r0 w0 t0) | apply (Build.gc_facts C sup term r0 w0 r1 w1 t0 t1)].
Qed.

(** Equality, key by key, of a state after a step of an image with the
    relation at the new state of the machine. *)
Ltac fext H :=
  intros ?i; cbn [k_procs k_out log_write x_k x_pipes x_phase];
  rewrite ?proc_exit_lookup, ?lookup_insert, ?lookup_delete;
  repeat case_decide; subst; rewrite ?H;
  unfold fproc, fphase, Flow.conc_proc, conc_phase, conc_pipe; repeat case_decide; subst;
  cbn -[init_pid Build.ch Build.gc];
  rewrite ?(proj1 (builders_ppid _ 0)), ?(proj2 (builders_ppid 0 _)); eqb_simpl;
  try lia; try reflexivity; try (destruct i as [|[|i]]; cbn; congruence).

  (** While the build is not over, each step of the whole system is a
      call of the child or of the grandchild, which moves the build one
      call on and leaves the stream machine where it is, or a step of
      [ps] or [grep], which is a step of the stream machine. *)
Lemma F_xstep x b c ast x0 :
  frel x b c ast -> fvalid b c ast -> ~ (b = 6 /\ c = 9) -> xstep C L x x0 ->
  (exists b' c', frel (sync L x0) b' c' ast /\ fvalid b' c' ast /\ b' + c' = S (b + c)) \/
  (exists ast', astep term (S sup) sup (DTerm n1) ast ast' /\ frel (sync L x0) b c ast' /\
                fvalid b c ast').
Proof.
  intros Hr Hv Hnc Hs. pose proof Hr as (Hp & Hph & Hpi & Hn & Ho).
  pose proof (Flow.table_lookups T n1 HT1) as (Tw0 & Tw1 & Tg0 & Tg1 & Tp1).
  destruct Hs as [x pid k' Hst|x pid q file argv acc p l rest Hq Hst Hphx Hfd Hpb
                 |x pid q file argv cm acc p Hq Hst Hcm Hphx Hfd Hpb Hwo
                 |x pid q file argv l rest p bp Hq Hst Hphx Hfd Hpb Hro
                 |x pid q file argv l rest p Hq Hst Hphx Hfd Hro
                 |x pid q file argv l rest n Hq Hst Hphx Hfd|x pid q file argv Hq Hst Hphx].
  { left. destruct (F_call_other x b c ast pid k' Hr Hv Hnc Hst) as [[-> Hlt]|[-> Hlt]].
    - destruct (F_call_child x b c ast k' Hr Hv Hlt Hst). exists (S b), c. split_and!; [done | done | lia].
    - destruct (F_call_gc x b c ast k' Hr Hv Hlt Hst). exists b, (S c). split_and!; [done | done | lia]. }
  all: right; pose proof Hv as (Hb & Hc & Hw & Hg & Hinv); pose proof Hinv as Hinv0.
  all: rewrite Hph in Hphx; unfold fphase in Hphx; case_decide as Hbld; [discriminate|];
       rewrite Hp in Hq; unfold fproc in Hq; rewrite !decide_False in Hq by naive_solver.
  all: (destruct (Flow.conc_phase_pids sup ast pid _ Hphx) as [-> | [-> | ->]];
       [destruct (Flow.conc_at_wc sup T term Hsup ast) as [E1 E2]
       |destruct (Flow.conc_at_grep sup T term Hsup ast) as [E1 E2]
       |destruct (Flow.conc_at_ps sup T term Hsup ast) as [E1 E2]];
       rewrite E1 in Hq; rewrite E2 in Hphx; clear E1 E2).
  all: try (assert (b = 6) as -> by (destruct (decide (b < 6)); [exfalso; apply Hbld; left; lia | lia]));
       try (assert (c = 9) as -> by (destruct (decide (c < 9)); [exfalso; apply Hbld; right; lia | lia]));
       try specialize (Hg ltac:(lia)); try specialize (Hw ltac:(lia)).
  all: destruct Hinv as [[r0'|] acc0 b1 Hl|acc0 b0 r0' Hl|acc0 b0 Hl| | | | |sp Hsp];
       cbn in Hq, Hphx, Hg, Hw; simplify_eq; cbn in Hst; simplify_eq.
  all: try (rewrite ?cmd_of_grep, ?cmd_of_wc in Hcm; simplify_eq);
       try (cbn in Hfd; rewrite ?Tw0, ?Tw1, ?Tg0, ?Tg1, ?Tp1 in Hfd; simplify_eq);
       try (rewrite Hpi in Hpb; cbn in Hpb; simplify_eq);
       try (exfalso; apply Hwo; first [apply (F_w0_open _ _ _ _ Hr); first [left; lia | right; done]
                                      | apply (F_w1_open _ _ _ _ Hr); done]);
       try (exfalso; apply Hro; first [apply (F_r0_open _ _ _ _ Hr); [lia | first [left; lia | right; done]]
                                      | apply (F_r1_open _ _ _ _ Hr); [lia | first [left; lia | right; done]]]).
  all: lazymatch goal with
       | |- exists _, _ /\ frel (sync _ (mkX _ _ (<[_ := Reading _]> _))) _ _ _ /\ _ =>
           eexists; split; [apply a_g_read |]
       | |- exists _, _ /\ frel (sync _ (mkX _ _ (<[_ := Writing (cmd_output _ _ _)]> _))) _ _ _ /\ _ =>
           eexists; split; [apply a_g_eof |]
       | |- exists _, _ /\ frel (sync _ (mkX _ (<[_ := _]> _) _)) _ _ _ /\ _ =>
           eexists; split; [first [apply a_ps_write; done | apply a_g_write; done] |]
       | |- exists _, _ /\ frel (sync _ (mkX (proc_exit _ _ _ _) _ _)) _ _ _ /\ _ =>
           eexists; split; [first [apply a_ps_exit | apply a_g_exit] |]
       end.
  all: split; [apply frel_sync; [fext Hp | intros ?i; left; revert i; fext Hph | fext Hpi
                                 | cbn; by rewrite ?Hn | cbn; by rewrite Ho] |].
  all: split_and!; try lia; try (intros; by auto);
       (eapply ainv_step; [exact Hinv0 | by econstructor]).
Qed.
Lemma frel_sync_frel x b c ast : frel x b c ast -> frel (sync L x) b c ast.
Proof. intros (? & Hph & ? & ? & ?). apply frel_sync; auto. Qed.

Lemma conc_no_pipe ast i p k : Flow.conc_proc sup T term ast i = Some p -> p_state p <> Running (Pipe k).
Proof.
  unfold Flow.conc_proc. intros Hq.
  repeat case_decide; repeat case_match; simplify_eq/=; try discriminate; destruct (a_sup ast); discriminate.
Qed.

  (** Once the build is over, a step of the whole system is a step of the
      stream machine. *)
Lemma F_complete_step x ast x0 :
  frel x 6 9 ast -> fvalid 6 9 ast -> xstep C L x x0 ->
  exists ast', astep term (S sup) sup (DTerm n1) ast ast' /\ frel (sync L x0) 6 9 ast' /\ fvalid 6 9 ast'.
Proof.
  intros Hr Hv Hs. pose proof Hv as (Hb & Hc & _ & _ & Hinv).
  destruct (Flow.abs_step sup T term C L n1 HT1 Hnopipe Hsup x ast x0 (frel_abs x ast Hr) Hinv Hs)
    as (ast' & Hst & Ha).
  exists ast'. split; [done|]. split.
  - apply frel_sync_frel, abs_frel; [done|].
    pose proof Hr as (Hp & _ & _ & Hn & _). rewrite (xstep_next_pipe C L x x0 Hs); [done|].
    intros pid p k Hq. rewrite Hp in Hq. unfold fproc in Hq.
    rewrite !decide_False in Hq by lia. by apply (conc_no_pipe ast pid).
  - split_and!; try lia. by apply (ainv_step L term (S sup) sup (DTerm n1) ast).
Qed.
  (** A builder that has calls left can make one. *)
Lemma F_child_steps x b c ast :
  frel x b c ast -> fvalid b c ast -> b < 6 -> exists k', step_proc C (x_k x) (S sup) = Some k'.
Proof.
  intros (Hp & _) (? & _) Hb.
  destruct (Build.ch_run C sup T r0 w0 r1 w1 t0 t1 Hp0 Hp1 Hd Hom Hpm Hwc) as (q & Hq & _).
  destruct b as [|[|j]]; [lia | lia |]. eexists.
  apply (Build.step_traj C (x_k x) (S sup) (Build.ch2 sup r0 w0 t0) 4 q j);
    [rewrite Hp; unfold fproc; by rewrite decide_True | exact Hq | lia].
Qed.

Lemma F_gc_steps x b c ast :
  frel x b c ast -> fvalid b c ast -> c < 9 -> exists k', step_proc C (x_k x) (S (S sup)) = Some k'.
Proof.
  intros (Hp & _) (_ & ? & _) Hc.
  destruct (Build.gc_run C sup T term r0 w0 r1 w1 t0 t1 Hp0 Hp1 Hd Hom Hpm Hgrep) as (q & Hq & _).
  destruct c as [|[|j]]; [lia | lia |]. eexists.
  apply (Build.step_traj C (x_k x) (S (S sup)) (Build.gc2 sup term r0 w0 r1 w1 t1) 7 q j);
    [rewrite Hp; unfold fproc; rewrite decide_False, decide_True by lia; done | exact Hq | lia].
Qed.

(** The states the whole system reaches, each with a rank that every
    step decreases: the calls the build has left, then the measure of
    the stream machine. *)
Definition srank (x : xstate) (n : nat) : Prop :=
  (exists a b c d, Build.bvalid a b c d /\ d < 6 /\ x = xinit L (bstate a b c d) /\
                   n = 22 - (a + b + c + d) + ameasure (astart L)) \/
  (exists b c ast, frel x b c ast /\ fvalid b c ast /\ n = 15 - (b + c) + ameasure ast).

Lemma srank_start a0 : srank (xinit L (init_state sup T (main_prog [a0; term]))) (22 + ameasure (astart L)).
Proof.
  left. exists 0, 0, 0, 0. rewrite (Build.init_bstate C sup T term r0 w0 r1 w1 t0 t1 Hom Hpm a0).
  split_and!; [unfold Build.bvalid; lia | lia | done | done].
Qed.

  (** The child, grandchild and great-grandchild counters reach the
      start of the data flow at the first call of [ps]'s body after its
      [execlp]: the child and grandchild are then past their [pipe]
      calls. *)
Lemma P_to_F a b c :
  Build.bvalid a b c 6 -> a = 1.
Proof.
  intros (? & ? & ? & _ & Ha0 & Hb2 & Hc2).
  destruct (decide (c < 2)) as [Hlt|]; [specialize (Hc2 Hlt); lia|].
  destruct (decide (b < 2)) as [Hlt|]; [specialize (Hb2 Hlt); lia|].
  destruct (decide (a = 0)) as [Ha|]; [specialize (Ha0 Ha); lia | lia].
Qed.

Lemma srank_step x n x' : srank x n -> fstep C L x x' -> exists n', n' < n /\ srank x' n'.
Proof.
  intros [(a & b & c & d & Hv & Hdd & -> & ->)|(b & c & ast & Hr & Hv & ->)] Hs.
  - destruct (P_fstep a b c d x' Hv Hdd Hs) as (a' & b' & c' & d' & Hv' & Hsum & ->).
    pose proof Hv' as (? & ? & ? & ? & _). destruct (decide (d' < 6)).
    + exists (22 - (a' + b' + c' + d') + ameasure (astart L)). split; [lia|]. left. by exists a', b', c', d'.
    + assert (d' = 6) as -> by lia.
      pose proof (P_to_F a' b' c' Hv') as ->. destruct (F_start b' c' Hv') as [Hr Hfv].
      exists (15 - (b' + c') + ameasure (astart L)). split; [lia|]. right. by exists b', c', (astart L).
  - destruct Hs as (x0 & Hs & ->).
    destruct (decide (b = 6 /\ c = 9)) as [[-> ->]|Hnc].
    + destruct (F_complete_step x ast x0 Hr Hv Hs) as (ast' & Hst & Hr' & Hv').
      apply astep_measure in Hst. exists (15 - (6 + 9) + ameasure ast'). split; [lia|]. right. by exists 6, 9, ast'.
    + destruct (F_xstep x b c ast x0 Hr Hv Hnc Hs) as [(b' & c' & Hr' & Hv' & Hsum)|(ast' & Hst & Hr' & Hv')].
      * exists (15 - (b' + c') + ameasure ast). pose proof Hv' as (? & ? & _). split; [lia|]. right.
        by exists b', c', ast.
      * apply astep_measure in Hst. exists (15 - (b + c) + ameasure ast'). split; [lia|]. right.
        by exists b, c, ast'.
Qed.

Lemma srank_acc x n : srank x n -> Acc (fun x2 x1 => fstep C L x1 x2) x.
Proof.
  revert x. induction n as [n IH] using lt_wf_ind. intros x Hx. constructor. intros x' Hs.
  destruct (srank_step x n x' Hx Hs) as (n' & ? & ?). by apply (IH n').
Qed.
(** The two lines the pipeline leaves on the terminal: [wc]'s count,
    then the supervisor's completion line. *)
Local Abbreviation out_lines :=
  [(S sup, DTerm n1, (count_line L term ++ endl)%string); (sup, DTerm n1, completion_line)].

  (** Progress: a state with a rank either has a step, or has none and
      holds the two lines. *)
Lemma srank_progress x n :
  srank x n -> (exists x', fstep C L x x') \/ ((forall x', ~ fstep C L x x') /\ k_out (x_k x) = out_lines).
Proof.
  intros [(a & b & c & d & Hv & Hdd & -> & _)|(b & c & ast & Hr & Hv & _)].
  - left. destruct (Build.bstate_progress C sup T term r0 w0 r1 w1 t0 t1 Hp0 Hp1 Hd Hom Hpm Hps Hgrep Hwc
                      a b c d Hv) as (a' & b' & c' & d' & [pid Hs] & _); [lia|].
    eexists. eexists. split; [apply (xs_call C L _ pid); exact Hs | done].
  - destruct (decide (b = 6 /\ c = 9)) as [[-> ->]|Hnc].
    + pose proof Hv as (_ & _ & _ & _ & Hinv).
      destruct (ainv_progress L term (S sup) sup (DTerm n1) ast Hinv) as [Hfin|(ast' & Hst)].
      * right. split.
        -- intros x' (x0 & Hs & _). destruct (F_complete_step x ast x0 Hr Hv Hs) as (ast' & Hst & _).
           subst ast. inversion Hst.
        -- destruct Hr as (_ & _ & _ & _ & ->). by subst ast.
      * left. destruct (Flow.abs_enabled sup T term C L n1 HT1 Hnopipe Hsup x ast ast' (frel_abs x ast Hr) Hst)
          as [x0 Hs].
        by exists (sync L x0), x0.
    + left. pose proof Hv as (? & ? & _).
      destruct (decide (b < 6)) as [Hb|Hb];
        [destruct (F_child_steps x b c ast Hr Hv Hb) as [k' Hs]
        |destruct (F_gc_steps x b c ast Hr Hv ltac:(lia)) as [k' Hs]];
        eexists; exists (mkX k' (x_pipes x) (x_phase x)); (split; [eapply xs_call; exact Hs | done]).
Qed.

Lemma srank_reachable a0 x :
  star (fstep C L) (xinit L (init_state sup T (main_prog [a0; term]))) x -> exists n, srank x n.
Proof.
  intros Hs. eapply (star_invariant (fstep C L) (fun x => exists n, srank x n)); [| exact Hs |].
  - intros x1 x2 [n Hn] H12. destruct (srank_step x1 n x2 Hn H12) as (n' & _ & ?). by exists n'.
  - exists (22 + ameasure (astart L)). apply srank_start.
Qed.

  (** From a state with a rank, some run reaches a state with no step. *)
Lemma srank_terminal x n :
  srank x n -> exists x', star (fstep C L) x x' /\ (forall x'', ~ fstep C L x' x'') /\ k_out (x_k x') = out_lines.
Proof.
  revert x. induction n as [n IH] using lt_wf_ind. intros x Hx.
  destruct (srank_progress x n Hx) as [(x1 & Hs)|(Hno & Ho)].
  - destruct (srank_step x n x1 Hx Hs) as (n' & Hlt & Hx1).
    destruct (IH n' Hlt x1 Hx1) as (x' & ? & ? & ?). exists x'. eauto using star.
  - exists x. eauto using star.
Qed.
  (** The whole system from the start of [main]: some run ends, and every
      reachable state has a step or is an end with the two lines. *)
Lemma system_run a0 :
  (exists x, star (fstep C L) (xinit L (init_state sup T (main_prog [a0; term]))) x /\
             (forall x', ~ fstep C L x x') /\ k_out (x_k x) = out_lines) /\
  forall x, star (fstep C L) (xinit L (init_state sup T (main_prog [a0; term]))) x ->
    (exists x', fstep C L x x') \/ ((forall x', ~ fstep C L x x') /\ k_out (x_k x) = out_lines).
Proof.
  split.
  - destruct (srank_terminal _ _ (srank_start a0)) as (x & ? & ? & ?). exists x. done.
  - intros x Hs. destruct (srank_reachable a0 x Hs) as [n Hn]. exact (srank_progress x n Hn).
Qed.
End whole.

(** C5. The whole system cannot deadlock.  From the start of [main],
    with the build and the data flow interleaved in any order (a command
    may start reading and writing while other processes of the build
    still make their calls), and with external commands that exit only
    once they have written all their output: every reachable state
    either has a step, or has none and the terminal holds exactly [wc]'s
    count of the listed lines that contain the term, then the
    supervisor's "commands completed"; and such an end is reached. *)
Theorem system_never_stuck C sup T a0 term n1 L :
  init_pid < sup -> is_Some (T !! 0) -> T !! 1 = Some (DTerm n1) -> pipes_below 0 T ->
  size T + 4 <= open_max C -> 4 <= proc_max C ->
  "ps" ∈ path C -> "grep" ∈ path C -> "wc" ∈ path C ->
  (exists x, star (fstep C L) (xinit L (init_state sup T (main_prog [a0; term]))) x /\
             (forall x', ~ fstep C L x x') /\
             k_out (x_k x) = [(S sup, DTerm n1, (count_line L term ++ endl)%string);
                              (sup, DTerm n1, completion_line)]) /\
  forall x, star (fstep C L) (xinit L (init_state sup T (main_prog [a0; term]))) x ->
    (exists x', fstep C L x x') \/
    ((forall x', ~ fstep C L x x') /\
     k_out (x_k x) = [(S sup, DTerm n1, (count_line L term ++ endl)%string);
                      (sup, DTerm n1, completion_line)]).
Proof.
  intros Hlt H0 H1 Hnopipe Hom Hpm Hps Hgrep Hwc.
  destruct (Build.build_pipes C T H0 ltac:(by eexists) Hom) as (r0 & w0 & t0 & r1 & w1 & t1 & Hp0 & Hp1 & Hd).
  eapply (system_run C sup T term r0 w0 r1 w1 t0 t1 L n1); try eassumption; lia.
Qed.

(** ** Witness *)

Lemma system_never_stuck_witness :
  (exists x, star (fstep demo_config (demo_listing "bash"))
               (xinit (demo_listing "bash") (init_state 100 std_fds (main_prog ["processes"; "bash"]))) x /\
             (forall x', ~ fstep demo_config (demo_listing "bash") x x') /\
             k_out (x_k x) = [(101, DTerm 1, (count_line (demo_listing "bash") "bash" ++ endl)%string);
                              (100, DTerm 1, completion_line)]) /\
  forall x, star (fstep demo_config (demo_listing "bash"))
              (xinit (demo_listing "bash") (init_state 100 std_fds (main_prog ["processes"; "bash"]))) x ->
    (exists x', fstep demo_config (demo_listing "bash") x x') \/
    ((forall x', ~ fstep demo_config (demo_listing "bash") x x') /\
     k_out (x_k x) = [(101, DTerm 1, (count_line (demo_listing "bash") "bash" ++ endl)%string);
                      (100, DTerm 1, completion_line)]).
Proof.
  exact (system_never_stuck demo_config 100 std_fds "processes" "bash" 1 (demo_listing "bash")
           ltac:(vm_compute; lia) ltac:(eexists; reflexivity) eq_refl std_fds_no_pipes
           ltac:(vm_compute; lia) ltac:(vm_compute; lia)
           ltac:(repeat constructor) ltac:(repeat constructor) ltac:(repeat constructor)).
Defined.

End System.
